(** * AR business cards: the card loader and the overlay lifecycle

    A shallow embedding of the two scripts of the repository:

    - [src/main.js], the first build of the page script (module [MainJs]);
    - [src/unnamed/part_000], the later build with the spawned-overlay list,
      the target listeners and the hide-and-reset policy (module [Part000]).

    Functions that are textually the same in both files ([getCardIdFromUrl],
    [loadJSON], [setStatus], [clampLayers], the [layer-anim] component,
    [ensureVideoAsset], [clearAnchor], [showVideoButtonIfNeeded]) are embedded
    once, before the two modules.

    Conventions of the embedding.
    - A JavaScript string is a [string]: a sequence of 8-bit code units
      (Latin-1), which is the domain on which [btoa] is defined.
    - A JavaScript number is an IEEE-754 binary64 value: Rocq's primitive
      [float], with the same rounding.  [Math.sin] is a parameter.
    - The page, the scene and the script's globals form the record [World];
      every function of the script is a computation in the monad [M], which
      threads the world and may throw.
    - DOM elements that the script shares between two places (the overlay
      entities: children of the anchor and members of [spawnedEntities]) live
      in a store and are referred to by address.
    - The compositing helpers ([iosForceCanvasAboveCamera],
      [bringCanvasAboveVideoSafariHack], [forceIosLayerOrder], the
      [always-on-top] component, [clearWebGLCanvas], [forceHideElement]) only
      write CSS styles and render state; of them the world keeps one flag,
      whether the scene output is shown.  Those that the script calls are
      embedded on their own state, the styles of the document and the
      materials of a model, in the modules [Compositor] and [AlwaysOnTop]. *)

From Stdlib Require Import ZArith NArith String Ascii List Bool Lia Floats.
From stdpp Require Import gmap strings list.

Local Open Scope string_scope.
Local Open Scope list_scope.

Set Warnings "-inexact-float".

(** ** JavaScript values *)

(** [ToBoolean] on a string: only the empty string is falsy. *)
Definition truthy_string (s : string) : bool :=
  match s with
  | EmptyString => false
  | String _ _ => true
  end.

(** [ToBoolean] on a property that is [undefined] when missing. *)
Definition truthy_field (f : option string) : bool :=
  match f with
  | Some s => truthy_string s
  | None => false
  end.

(** [ToBoolean] on a number: [0], [-0] and [NaN] are falsy. *)
Definition truthy_number (x : float) : bool :=
  negb (PrimFloat.eqb x 0%float || PrimFloat.is_nan x).

(** [a === b] on two strings. *)
Definition strict_eq (a b : string) : bool := String.eqb a b.

(** [x.type === lit] where [x.type] may be [undefined]. *)
Definition field_is (f : option string) (lit : string) : bool :=
  match f with
  | Some s => strict_eq s lit
  | None => false
  end.

(** The code units [String.prototype.trim] removes, among those below 256:
    TAB, LF, VT, FF, CR, SPACE and NO-BREAK SPACE. *)
Definition is_white_space (c : ascii) : bool :=
  let n := nat_of_ascii c in
  ((9 <=? n)%nat && (n <=? 13)%nat) || (n =? 32)%nat || (n =? 160)%nat.

Fixpoint trimStart (s : string) : string :=
  match s with
  | EmptyString => EmptyString
  | String c s' => if is_white_space c then trimStart s' else s
  end.

Fixpoint trimEnd (s : string) : string :=
  match s with
  | EmptyString => EmptyString
  | String c s' =>
      match trimEnd s' with
      | EmptyString => if is_white_space c then EmptyString else String c EmptyString
      | t => String c t
      end
  end.

Definition trim (s : string) : string := trimEnd (trimStart s).

(** *** [btoa] and the id of a video asset *)

Definition base64_alphabet : string :=
  "ABCDEFGHIJKLMNOPQRSTUVWXYZabcdefghijklmnopqrstuvwxyz0123456789+/".

Definition base64_digit (n : N) : ascii :=
  match String.get (N.to_nat n) base64_alphabet with
  | Some c => c
  | None => "="%char
  end.

(** Base64 of a sequence of bytes, three bytes to four digits, padded with
    [=] as [btoa] pads. *)
Fixpoint base64 (bytes : list N) : string :=
  match bytes with
  | [] => EmptyString
  | [a] =>
      String (base64_digit (N.shiftr a 2))
        (String (base64_digit (N.shiftl (N.land a 3) 4)) "==")
  | [a; b] =>
      String (base64_digit (N.shiftr a 2))
        (String (base64_digit (N.lor (N.shiftl (N.land a 3) 4) (N.shiftr b 4)))
           (String (base64_digit (N.shiftl (N.land b 15) 2)) "="))
  | a :: b :: c :: rest =>
      String (base64_digit (N.shiftr a 2))
        (String (base64_digit (N.lor (N.shiftl (N.land a 3) 4) (N.shiftr b 4)))
           (String (base64_digit (N.lor (N.shiftl (N.land b 15) 2) (N.shiftr c 6)))
              (String (base64_digit (N.land c 63)) (base64 rest))))
  end.

Definition btoa (s : string) : string :=
  base64 (map N_of_ascii (list_ascii_of_string s)).

(** [s.replace(/=/g, "")]. *)
Fixpoint remove_equals (s : string) : string :=
  match s with
  | EmptyString => EmptyString
  | String c s' =>
      if Ascii.eqb c "="%char then remove_equals s' else String c (remove_equals s')
  end.

(** [`vid_${btoa(layer.src).replace(/=/g, "")}`]. *)
Definition video_id (src : string) : string :=
  "vid_" +:+ remove_equals (btoa src).

(** ** The configuration file ([cards.json]) *)

Definition Vec3 : Type := float * float * float.

(** [anim]: both members are optional numbers. *)
Record Anim := {
  anim_float : option float;
  anim_spinY : option float
}.

(** One entry of [layers].  A member that the JSON object does not have reads
    as [undefined]: [None]. *)
Record LayerSpec := {
  layer_type : option string;
  layer_src : option string;
  layer_pos : option Vec3;
  layer_scale : option Vec3;
  layer_anim : option Anim
}.

(** The value of [layers] in a card.  An entry of the array is [None] when
    the JSON text has [null] there. *)
Inductive LayersValue :=
| LayersMissing
| LayersNotArray (truthy : bool)
| LayersArray (entries : list (option LayerSpec)).

Record CardDefinition := {
  instagramUrl : option string;
  layers : LayersValue
}.

(** What [config[key]] evaluates to.  [config] is the object [res.json()]
    built, so the lookup first tries the own members (the cards of the file)
    and then the members every object inherits from [Object.prototype];
    all of those are functions or objects, hence truthy. *)
Inductive PropertyValue :=
| OwnCard (d : CardDefinition)
| InheritedMember (name : string).

Definition object_prototype_members : list string :=
  [ "constructor"; "hasOwnProperty"; "isPrototypeOf"; "propertyIsEnumerable";
    "toLocaleString"; "toString"; "valueOf"; "__proto__";
    "__defineGetter__"; "__defineSetter__"; "__lookupGetter__"; "__lookupSetter__" ].

Definition get_property (config : gmap string CardDefinition) (key : string)
  : option PropertyValue :=
  match config !! key with
  | Some d => Some (OwnCard d)
  | None =>
      if bool_decide (key ∈ object_prototype_members)
      then Some (InheritedMember key)
      else None
  end.

(** [chosen.instagramUrl] and [chosen.layers]. *)
Definition get_instagramUrl (chosen : PropertyValue) : option string :=
  match chosen with
  | OwnCard d => instagramUrl d
  | InheritedMember _ => None
  end.

Definition get_layers (chosen : PropertyValue) : LayersValue :=
  match chosen with
  | OwnCard d => layers d
  | InheritedMember _ => LayersMissing
  end.

(** [String(x)] for a member that may be [undefined], as a template literal
    or [btoa] converts it. *)
Definition field_text (f : option string) : string :=
  match f with
  | Some s => s
  | None => "undefined"
  end.

(** ** The page and the scene *)

Inductive JsError :=
| LoadFailed          (* loadJSON: the response is not ok, or fetch rejected *)
| MissingDefaultCard  (* "cards.json must include at least the default card config." *)
| NullProperty        (* TypeError: a property of null was read *)
| TrackerRejected.    (* the promise of mindarSystem.start() or stop() rejected *)

(** The texts [setStatus] is called with. *)
Inductive Status :=
| StLoading (cardId : string)      (* Card: <cardId> - loading config... *)
| StUnknownCard (cardId : string)  (* Unknown card id: <cardId>. Using default: card_001 *)
| StReady                          (* Ready. Tap "Start AR", then point at the EC logo. *)
| StTargetFound                    (* Target found *)
| StTargetLost                     (* Target lost... *)
| StStarting                       (* Starting AR... *)
| StNotReady                       (* MindAR not ready yet. Try again in a moment. *)
| StStarted                        (* AR started. Point at the EC logo. *)
| StStartFailed                    (* Could not start AR (camera permission?). *)
| StStopped                        (* Stopped. Tap Start AR to run again. *)
| StVideoStarted                   (* Video started (if your browser allows it). *)
| StError (e : JsError).           (* Error: <err.message> *)

Inductive Display := InlineBlock | DisplayNone.

(** The [<video>] elements under [<a-assets>]. *)
Record Video := {
  v_id : string;
  v_src : string;
  v_crossOrigin : string;
  v_loop : bool;
  v_playsInline : bool;
  v_muted : bool;
  v_preload : string;
  v_paused : bool;
  v_currentTime : float
}.

(** The [material] attribute: its [src] is either [url(...)], with the
    cache-buster of the later build, or a selector [#id] of a video asset. *)
Inductive Material :=
| MaterialUrl (url : string) (bust : option Z)
| MaterialSelector (selector : string).

(** The element an overlay entity wraps. *)
Inductive Primitive :=
| APlane (material : Material)
| AGltfModel (src : string) (animation_mixer : bool).

(** The data of a [layer-anim] component, as the attribute string gives it. *)
Record LayerAnimData := {
  la_float : float;
  la_spinY : float
}.

(** An [<a-entity>] with its [object3D].  [e_material] is the entity's own
    [material] attribute, which [hideAllOverlaysAndReset] reads; [e_baseY]
    is [this.baseY] of its [layer-anim] component once [init] has run. *)
Record Entity := {
  e_position : Vec3;
  e_scale : Vec3;
  e_rotation_y : float;
  e_visible : bool;
  e_layer_anim : option LayerAnimData;
  e_baseY : option float;
  e_always_on_top : bool;
  e_material : option Material;
  e_children : list Primitive
}.

(** [sceneEl.systems["mindar-image-system"]], once it exists. *)
Record Tracker := {
  running : bool
}.

(** The world the script runs in.  The first three fields are only read:
    [url.searchParams.get("id")], what fetching [cards.json] yields ([None]:
    the fetch fails or the response is not ok) and [Date.now()]. [statusLog]
    keeps every text written to [#status], the newest first; the text shown
    is its head.  [store] holds the overlay entities; [anchorChildren] and
    [spawnedEntities] hold addresses into it.

    The page itself is not part of the sources.  What the script needs of it
    is taken for granted: the elements it looks up by id exist, [#assets] is
    the scene's [<a-assets>] (so [assets] is what the selector
    [a-assets video] finds), and [#anchor], like every [<a-entity>], has
    its [object3D]. *)
Record World := {
  location_id : option string;
  cardsJson : option (gmap string CardDefinition);
  dateNow : Z;
  statusLog : list Status;
  igHref : option string;
  videoBtnDisplay : option Display;
  startBtnDisabled : bool;
  stopBtnDisabled : bool;
  sceneShown : bool;
  mindarSystem : option Tracker;
  assets : list Video;
  anchorVisible : bool;
  anchorChildren : list nat;
  store : list Entity;
  spawnedEntities : list nat;
  targetListeners : bool;
  clickListeners : bool
}.

(** Updates of one field of the world. *)
Definition set_statusLog (x : list Status) (w : World) : World :=
  {| location_id := location_id w; cardsJson := cardsJson w; dateNow := dateNow w;
     statusLog := x; igHref := igHref w; videoBtnDisplay := videoBtnDisplay w;
     startBtnDisabled := startBtnDisabled w; stopBtnDisabled := stopBtnDisabled w;
     sceneShown := sceneShown w; mindarSystem := mindarSystem w; assets := assets w;
     anchorVisible := anchorVisible w; anchorChildren := anchorChildren w;
     store := store w; spawnedEntities := spawnedEntities w;
     targetListeners := targetListeners w; clickListeners := clickListeners w |}.

Definition set_igHref (x : option string) (w : World) : World :=
  {| location_id := location_id w; cardsJson := cardsJson w; dateNow := dateNow w;
     statusLog := statusLog w; igHref := x; videoBtnDisplay := videoBtnDisplay w;
     startBtnDisabled := startBtnDisabled w; stopBtnDisabled := stopBtnDisabled w;
     sceneShown := sceneShown w; mindarSystem := mindarSystem w; assets := assets w;
     anchorVisible := anchorVisible w; anchorChildren := anchorChildren w;
     store := store w; spawnedEntities := spawnedEntities w;
     targetListeners := targetListeners w; clickListeners := clickListeners w |}.

Definition set_videoBtnDisplay (x : option Display) (w : World) : World :=
  {| location_id := location_id w; cardsJson := cardsJson w; dateNow := dateNow w;
     statusLog := statusLog w; igHref := igHref w; videoBtnDisplay := x;
     startBtnDisabled := startBtnDisabled w; stopBtnDisabled := stopBtnDisabled w;
     sceneShown := sceneShown w; mindarSystem := mindarSystem w; assets := assets w;
     anchorVisible := anchorVisible w; anchorChildren := anchorChildren w;
     store := store w; spawnedEntities := spawnedEntities w;
     targetListeners := targetListeners w; clickListeners := clickListeners w |}.

Definition set_startBtnDisabled (x : bool) (w : World) : World :=
  {| location_id := location_id w; cardsJson := cardsJson w; dateNow := dateNow w;
     statusLog := statusLog w; igHref := igHref w;
     videoBtnDisplay := videoBtnDisplay w; startBtnDisabled := x;
     stopBtnDisabled := stopBtnDisabled w; sceneShown := sceneShown w;
     mindarSystem := mindarSystem w; assets := assets w;
     anchorVisible := anchorVisible w; anchorChildren := anchorChildren w;
     store := store w; spawnedEntities := spawnedEntities w;
     targetListeners := targetListeners w; clickListeners := clickListeners w |}.

Definition set_stopBtnDisabled (x : bool) (w : World) : World :=
  {| location_id := location_id w; cardsJson := cardsJson w; dateNow := dateNow w;
     statusLog := statusLog w; igHref := igHref w;
     videoBtnDisplay := videoBtnDisplay w; startBtnDisabled := startBtnDisabled w;
     stopBtnDisabled := x; sceneShown := sceneShown w; mindarSystem := mindarSystem w;
     assets := assets w; anchorVisible := anchorVisible w;
     anchorChildren := anchorChildren w; store := store w;
     spawnedEntities := spawnedEntities w; targetListeners := targetListeners w;
     clickListeners := clickListeners w |}.

Definition set_sceneShown (x : bool) (w : World) : World :=
  {| location_id := location_id w; cardsJson := cardsJson w; dateNow := dateNow w;
     statusLog := statusLog w; igHref := igHref w;
     videoBtnDisplay := videoBtnDisplay w; startBtnDisabled := startBtnDisabled w;
     stopBtnDisabled := stopBtnDisabled w; sceneShown := x;
     mindarSystem := mindarSystem w; assets := assets w;
     anchorVisible := anchorVisible w; anchorChildren := anchorChildren w;
     store := store w; spawnedEntities := spawnedEntities w;
     targetListeners := targetListeners w; clickListeners := clickListeners w |}.

Definition set_mindarSystem (x : option Tracker) (w : World) : World :=
  {| location_id := location_id w; cardsJson := cardsJson w; dateNow := dateNow w;
     statusLog := statusLog w; igHref := igHref w;
     videoBtnDisplay := videoBtnDisplay w; startBtnDisabled := startBtnDisabled w;
     stopBtnDisabled := stopBtnDisabled w; sceneShown := sceneShown w;
     mindarSystem := x; assets := assets w; anchorVisible := anchorVisible w;
     anchorChildren := anchorChildren w; store := store w;
     spawnedEntities := spawnedEntities w; targetListeners := targetListeners w;
     clickListeners := clickListeners w |}.

Definition set_assets (x : list Video) (w : World) : World :=
  {| location_id := location_id w; cardsJson := cardsJson w; dateNow := dateNow w;
     statusLog := statusLog w; igHref := igHref w;
     videoBtnDisplay := videoBtnDisplay w; startBtnDisabled := startBtnDisabled w;
     stopBtnDisabled := stopBtnDisabled w; sceneShown := sceneShown w;
     mindarSystem := mindarSystem w; assets := x; anchorVisible := anchorVisible w;
     anchorChildren := anchorChildren w; store := store w;
     spawnedEntities := spawnedEntities w; targetListeners := targetListeners w;
     clickListeners := clickListeners w |}.

Definition set_anchorVisible (x : bool) (w : World) : World :=
  {| location_id := location_id w; cardsJson := cardsJson w; dateNow := dateNow w;
     statusLog := statusLog w; igHref := igHref w;
     videoBtnDisplay := videoBtnDisplay w; startBtnDisabled := startBtnDisabled w;
     stopBtnDisabled := stopBtnDisabled w; sceneShown := sceneShown w;
     mindarSystem := mindarSystem w; assets := assets w; anchorVisible := x;
     anchorChildren := anchorChildren w; store := store w;
     spawnedEntities := spawnedEntities w; targetListeners := targetListeners w;
     clickListeners := clickListeners w |}.

Definition set_anchorChildren (x : list nat) (w : World) : World :=
  {| location_id := location_id w; cardsJson := cardsJson w; dateNow := dateNow w;
     statusLog := statusLog w; igHref := igHref w;
     videoBtnDisplay := videoBtnDisplay w; startBtnDisabled := startBtnDisabled w;
     stopBtnDisabled := stopBtnDisabled w; sceneShown := sceneShown w;
     mindarSystem := mindarSystem w; assets := assets w;
     anchorVisible := anchorVisible w; anchorChildren := x; store := store w;
     spawnedEntities := spawnedEntities w; targetListeners := targetListeners w;
     clickListeners := clickListeners w |}.

Definition set_store (x : list Entity) (w : World) : World :=
  {| location_id := location_id w; cardsJson := cardsJson w; dateNow := dateNow w;
     statusLog := statusLog w; igHref := igHref w;
     videoBtnDisplay := videoBtnDisplay w; startBtnDisabled := startBtnDisabled w;
     stopBtnDisabled := stopBtnDisabled w; sceneShown := sceneShown w;
     mindarSystem := mindarSystem w; assets := assets w;
     anchorVisible := anchorVisible w; anchorChildren := anchorChildren w; store := x;
     spawnedEntities := spawnedEntities w; targetListeners := targetListeners w;
     clickListeners := clickListeners w |}.

Definition set_spawnedEntities (x : list nat) (w : World) : World :=
  {| location_id := location_id w; cardsJson := cardsJson w; dateNow := dateNow w;
     statusLog := statusLog w; igHref := igHref w;
     videoBtnDisplay := videoBtnDisplay w; startBtnDisabled := startBtnDisabled w;
     stopBtnDisabled := stopBtnDisabled w; sceneShown := sceneShown w;
     mindarSystem := mindarSystem w; assets := assets w;
     anchorVisible := anchorVisible w; anchorChildren := anchorChildren w;
     store := store w; spawnedEntities := x; targetListeners := targetListeners w;
     clickListeners := clickListeners w |}.

Definition set_targetListeners (x : bool) (w : World) : World :=
  {| location_id := location_id w; cardsJson := cardsJson w; dateNow := dateNow w;
     statusLog := statusLog w; igHref := igHref w;
     videoBtnDisplay := videoBtnDisplay w; startBtnDisabled := startBtnDisabled w;
     stopBtnDisabled := stopBtnDisabled w; sceneShown := sceneShown w;
     mindarSystem := mindarSystem w; assets := assets w;
     anchorVisible := anchorVisible w; anchorChildren := anchorChildren w;
     store := store w; spawnedEntities := spawnedEntities w; targetListeners := x;
     clickListeners := clickListeners w |}.

Definition set_clickListeners (x : bool) (w : World) : World :=
  {| location_id := location_id w; cardsJson := cardsJson w; dateNow := dateNow w;
     statusLog := statusLog w; igHref := igHref w;
     videoBtnDisplay := videoBtnDisplay w; startBtnDisabled := startBtnDisabled w;
     stopBtnDisabled := stopBtnDisabled w; sceneShown := sceneShown w;
     mindarSystem := mindarSystem w; assets := assets w;
     anchorVisible := anchorVisible w; anchorChildren := anchorChildren w;
     store := store w; spawnedEntities := spawnedEntities w;
     targetListeners := targetListeners w; clickListeners := x |}.

(** Updates of one field of an entity, and of the playback state of a video. *)
Definition set_e_position (x : Vec3) (e : Entity) : Entity :=
  {| e_position := x; e_scale := e_scale e; e_rotation_y := e_rotation_y e;
     e_visible := e_visible e; e_layer_anim := e_layer_anim e; e_baseY := e_baseY e;
     e_always_on_top := e_always_on_top e; e_material := e_material e;
     e_children := e_children e |}.

Definition set_e_rotation_y (x : float) (e : Entity) : Entity :=
  {| e_position := e_position e; e_scale := e_scale e; e_rotation_y := x;
     e_visible := e_visible e; e_layer_anim := e_layer_anim e; e_baseY := e_baseY e;
     e_always_on_top := e_always_on_top e; e_material := e_material e;
     e_children := e_children e |}.

Definition set_e_visible (x : bool) (e : Entity) : Entity :=
  {| e_position := e_position e; e_scale := e_scale e; e_rotation_y := e_rotation_y e;
     e_visible := x; e_layer_anim := e_layer_anim e; e_baseY := e_baseY e;
     e_always_on_top := e_always_on_top e; e_material := e_material e;
     e_children := e_children e |}.

Definition set_e_baseY (x : option float) (e : Entity) : Entity :=
  {| e_position := e_position e; e_scale := e_scale e; e_rotation_y := e_rotation_y e;
     e_visible := e_visible e; e_layer_anim := e_layer_anim e; e_baseY := x;
     e_always_on_top := e_always_on_top e; e_material := e_material e;
     e_children := e_children e |}.

Definition set_e_children (x : list Primitive) (e : Entity) : Entity :=
  {| e_position := e_position e; e_scale := e_scale e; e_rotation_y := e_rotation_y e;
     e_visible := e_visible e; e_layer_anim := e_layer_anim e; e_baseY := e_baseY e;
     e_always_on_top := e_always_on_top e; e_material := e_material e;
     e_children := x |}.

Definition set_v_playback (paused : bool) (time : float) (muted : bool) (v : Video) : Video :=
  {| v_id := v_id v; v_src := v_src v; v_crossOrigin := v_crossOrigin v;
     v_loop := v_loop v; v_playsInline := v_playsInline v; v_muted := muted;
     v_preload := v_preload v; v_paused := paused; v_currentTime := time |}.

(** ** The monad of the script: a world threaded through, and exceptions *)

Inductive Result (A : Type) :=
| Ok (a : A)
| Throw (e : JsError).

Arguments Ok {A} a.
Arguments Throw {A} e.

Definition M (A : Type) : Type := World → Result A * World.

Global Instance M_ret : MRet M := λ A a w, (Ok a, w).

Global Instance M_bind : MBind M := λ A B f m w,
  match m w with
  | (Ok a, w') => f a w'
  | (Throw e, w') => (Throw e, w')
  end.

Definition throw {A : Type} (e : JsError) : M A := λ w, (Throw e, w).

(** Reading and changing the world. *)
Definition gets {A : Type} (f : World → A) : M A := λ w, (Ok (f w), w).

Definition modify (f : World → World) : M unit := λ w, (Ok tt, f w).

(** [try { body } catch { handler }]. *)
Definition try_catch {A : Type} (body : M A) (handler : JsError → M A) : M A := λ w,
  match body w with
  | (Ok a, w') => (Ok a, w')
  | (Throw e, w') => handler e w'
  end.

(** [for (const x of xs) body]. *)
Fixpoint for_of {A : Type} (xs : list A) (body : A → M unit) : M unit :=
  match xs with
  | [] => mret tt
  | x :: rest => body x ;; for_of rest body
  end.

(** The world a computation leaves. *)
Definition exec {A : Type} (m : M A) (w : World) : World := snd (m w).

(** An awaited promise of the tracking engine either resolves or rejects;
    which of the two is the environment's choice. *)
Inductive Outcome := Resolves | Rejects.

(** ** Functions shared by the two builds *)

Definition DEFAULT_CARD_ID : string := "card_001".

Definition MAX_LAYERS : nat := 5.

(** The ids the script looks up with [$]; the page declares them. *)
Definition page_ids : list string :=
  [ "status"; "assets"; "anchor"; "startBtn"; "stopBtn"; "videoBtn"; "igBtn" ].

(** [$(id)] as a test: is there an element with this id in the document?
    The elements with an id are those of the page and the video assets. *)
Definition hasElementById (i : string) : M bool :=
  gets (λ w, bool_decide (i ∈ page_ids) || bool_decide (i ∈ v_id <$> assets w)).

(** [id && id.trim() ? id.trim() : DEFAULT_CARD_ID], where [id] is
    [url.searchParams.get("id")]: [null] when the parameter is missing. *)
Definition card_id_of (i : option string) : string :=
  match i with
  | Some s =>
      if truthy_string s && truthy_string (trim s) then trim s else DEFAULT_CARD_ID
  | None => DEFAULT_CARD_ID
  end.

Definition getCardIdFromUrl : M string :=
  gets (λ w, card_id_of (location_id w)).

Definition loadJSON : M (gmap string CardDefinition) := λ w,
  match cardsJson w with
  | Some config => (Ok config, w)
  | None => (Throw LoadFailed, w)
  end.

Definition setStatus (msg : Status) : M unit :=
  modify (λ w, set_statusLog (msg :: statusLog w) w).

(** [chosen.layers || []]: a missing or falsy value gives the empty array. *)
Definition layers_or_empty (v : LayersValue) : LayersValue :=
  match v with
  | LayersMissing => LayersArray []
  | LayersNotArray false => LayersArray []
  | LayersNotArray true => LayersNotArray true
  | LayersArray l => LayersArray l
  end.

Definition clampLayers (v : LayersValue) : list (option LayerSpec) :=
  match v with
  | LayersArray l => take MAX_LAYERS l
  | _ => []
  end.

(** *** The [layer-anim] component *)

Definition Math_PI : float := 0x1.921fb54442d18p+1%float.

(** [init]: [this.baseY = this.el.object3D.position.y].  It runs when the
    entity that carries the component is attached to the scene. *)
Definition layer_anim_init (e : Entity) : Entity :=
  match e_layer_anim e with
  | Some _ =>
      let '(_, y, _) := e_position e in set_e_baseY (Some y) e
  | None => e
  end.

(** [tick(t, dt)], with [t] and [dt] in milliseconds. *)
Definition layer_anim_tick (Math_sin : float → float) (t dt : float) (e : Entity)
  : Entity :=
  match e_layer_anim e, e_baseY e with
  | Some data, Some baseY =>
      let time := (t / 1000)%float in
      let dts := (dt / 1000)%float in
      let e1 :=
        if (0 <? la_float data)%float
        then
          let '(x, _, z) := e_position e in
          set_e_position (x, (baseY + Math_sin (time * 2)%float * la_float data)%float, z) e
        else e in
      if negb (la_spinY data =? 0)%float
      then
        let radPerSec := (la_spinY data * Math_PI / 180)%float in
        set_e_rotation_y (e_rotation_y e1 + radPerSec * dts)%float e1
      else e1
  | _, _ => e
  end.

(** *** The asset registry *)

(** The [<video>] that [ensureVideoAsset] creates; a media element starts
    paused at position 0. *)
Definition new_video (vidId src : string) : Video :=
  {| v_id := vidId; v_src := src; v_crossOrigin := "anonymous"; v_loop := true;
     v_playsInline := true; v_muted := true; v_preload := "auto";
     v_paused := true; v_currentTime := 0%float |}.

Definition ensureVideoAsset (layer : LayerSpec) : M string :=
  let vidId := video_id (field_text (layer_src layer)) in
  found ← hasElementById vidId;
  if found : bool then mret vidId
  else
    modify (λ w, set_assets (assets w ++ [new_video vidId (field_text (layer_src layer))]) w) ;;
    mret vidId.

(** *** The anchor and the video control *)

(** [anchor.appendChild(e)]: the entity enters the scene, its components are
    initialised, and the anchor holds its address. *)
Definition anchor_appendChild (e : Entity) : M nat := λ w,
  let r := length (store w) in
  (Ok r, set_anchorChildren (anchorChildren w ++ [r])
           (set_store (store w ++ [layer_anim_init e]) w)).

Definition clearAnchor : M unit :=
  modify (set_anchorChildren []).

(** [layers.some(l => l.type === "video")]; reading [l.type] of a [null]
    entry throws. *)
Fixpoint some_type_video (layers : list (option LayerSpec)) : Result bool :=
  match layers with
  | [] => Ok false
  | None :: _ => Throw NullProperty
  | Some l :: rest =>
      if field_is (layer_type l) "video" then Ok true else some_type_video rest
  end.

Definition showVideoButtonIfNeeded (layers : list (option LayerSpec)) : M unit :=
  match some_type_video layers with
  | Ok needsVideo =>
      modify (set_videoBtnDisplay (Some (if needsVideo then InlineBlock else DisplayNone)))
  | Throw e => throw e
  end.

(** The start of [main], the same in both builds: the card is resolved and
    the Instagram link and the video control are set.  It returns the
    clamped layers. *)
Definition resolve_card : M (list (option LayerSpec)) :=
  cardId ← getCardIdFromUrl;
  setStatus (StLoading cardId) ;;
  config ← loadJSON;
  let card := get_property config cardId in
  (if card is None then setStatus (StUnknownCard cardId) else mret tt) ;;
  let chosen := if card is Some _ then card else get_property config DEFAULT_CARD_ID in
  match chosen with
  | None => throw MissingDefaultCard
  | Some chosen =>
      modify (set_igHref
                (Some (if truthy_field (get_instagramUrl chosen)
                       then field_text (get_instagramUrl chosen)
                       else "https://instagram.com/"))) ;;
      let layers := clampLayers (layers_or_empty (get_layers chosen)) in
      showVideoButtonIfNeeded layers ;;
      mret layers
  end.

(** The handler of the video control, the same in both builds: every video
    asset is unmuted, then played; a rejected [play()] is caught. *)
Definition play_video (plays : string → Outcome) (v : Video) : Video :=
  match plays (v_id v) with
  | Resolves => set_v_playback false (v_currentTime v) false v
  | Rejects => set_v_playback (v_paused v) (v_currentTime v) false v
  end.

Definition videoBtn_click (plays : string → Outcome) : M unit :=
  modify (λ w, set_assets (play_video plays <$> assets w) w) ;;
  setStatus StVideoStarted.

(** [Number(anim.float || 0)] and [Number(anim.spinY || 0)]. *)
Definition number_or_zero (x : option float) : float :=
  match x with
  | Some a => if truthy_number a then a else 0%float
  | None => 0%float
  end.

(** [layer.anim || {}] followed by the read of one of its members. *)
Definition anim_member (member : Anim → option float) (layer : LayerSpec) : option float :=
  match layer_anim layer with
  | Some a => member a
  | None => None
  end.

(** ** [src/unnamed/part_000]: the build with the overlay lifecycle *)

Module Part000.

(** [makeEntityCommon]: position, scale, the float animation and the
    always-on-top tag.  [spinY] is the constant 0 whatever the layer
    says; a new entity is visible and not rotated. *)
Definition makeEntityCommon (layer : LayerSpec) : Entity :=
  let floatAmp := number_or_zero (anim_member anim_float layer) in
  let spinY := 0%float in
  {| e_position := default (0, 0, -0.12)%float (layer_pos layer);
     e_scale := default (0.2, 0.2, 0.2)%float (layer_scale layer);
     e_rotation_y := 0%float;
     e_visible := true;
     e_layer_anim :=
       if truthy_number floatAmp
       then Some {| la_float := floatAmp; la_spinY := spinY |}
       else None;
     e_baseY := None;
     e_always_on_top := true;
     e_material := None;
     e_children := [] |}.

(** [e.appendChild(child)]. *)
Definition appendChild (child : Primitive) (e : Entity) : Entity :=
  set_e_children (e_children e ++ [child]) e.

Definition spawnedEntities_push (r : nat) : M unit :=
  modify (λ w, set_spawnedEntities (spawnedEntities w ++ [r]) w).

Definition addImageLayer (layer : LayerSpec) : M unit :=
  let e := makeEntityCommon layer in
  bust ← gets dateNow;
  let plane := APlane (MaterialUrl (field_text (layer_src layer)) (Some bust)) in
  r ← anchor_appendChild (appendChild plane e);
  spawnedEntities_push r.

Definition addModelLayer (layer : LayerSpec) : M unit :=
  let e := makeEntityCommon layer in
  let model := AGltfModel (field_text (layer_src layer)) true in
  r ← anchor_appendChild (appendChild model e);
  spawnedEntities_push r.

Definition addVideoLayer (layer : LayerSpec) : M unit :=
  let e := makeEntityCommon layer in
  vidId ← ensureVideoAsset layer;
  let plane := APlane (MaterialSelector ("#" +:+ vidId)) in
  r ← anchor_appendChild (appendChild plane e);
  spawnedEntities_push r.

Definition setAnchorVisible (isVisible : bool) : M unit :=
  modify (set_anchorVisible isVisible).

(** [vid.pause(); vid.currentTime = 0; vid.muted = true]. *)
Definition reset_video (v : Video) : Video :=
  set_v_playback true 0%float true v.

(** [document.querySelector(sel)] narrowed to what the caller tests: the
    first [<video>] asset whose id the selector [#id] names, reset; an id
    of the page names an element that is no video. *)
Fixpoint reset_first (i : string) (vs : list Video) : list Video :=
  match vs with
  | [] => []
  | v :: rest =>
      if strict_eq (v_id v) i then reset_video v :: rest else v :: reset_first i rest
  end.

Definition reset_selected (sel : string) : M unit :=
  match sel with
  | String "#" i =>
      if bool_decide (i ∈ page_ids) then mret tt
      else modify (λ w, set_assets (reset_first i (assets w)) w)
  | _ => mret tt
  end.

(** The body of the first loop of [hideAllOverlaysAndReset].  An address
    with nothing behind it stands for the entries the loop skips. *)
Definition hide_entity (r : nat) : M unit :=
  el ← gets (λ w, store w !! r);
  match el with
  | None => mret tt
  | Some el =>
      modify (λ w, set_store (<[r := set_e_visible false el]> (store w)) w) ;;
      match e_material el with
      | Some (MaterialSelector sel) => reset_selected sel
      | _ => mret tt
      end
  end.

Definition hideAllOverlaysAndReset : M unit :=
  setAnchorVisible false ;;
  els ← gets spawnedEntities;
  for_of els hide_entity ;;
  modify (λ w, set_assets (reset_video <$> assets w) w).

(** [showScene]: the canvases and the scene element are shown or hidden
    together; clearing and rendering a blank frame leave the world as it
    is. *)
Definition showScene (show : bool) : M unit :=
  modify (set_sceneShown show).

(** The body of the loop of [main]. *)
Definition build_layer (layer : option LayerSpec) : M unit :=
  match layer with
  | None => mret tt
  | Some l =>
      if negb (truthy_field (layer_type l)) || negb (truthy_field (layer_src l))
      then mret tt
      else if field_is (layer_type l) "image" then addImageLayer l
      else if field_is (layer_type l) "gif" then addImageLayer l
      else if field_is (layer_type l) "model" then addModelLayer l
      else if field_is (layer_type l) "video" then addVideoLayer l
      else mret tt
  end.

Definition main : M unit :=
  layers ← resolve_card;
  modify (set_targetListeners true) ;;
  clearAnchor ;;
  modify (set_spawnedEntities []) ;;
  for_of layers build_layer ;;
  setStatus StReady ;;
  showScene false ;;
  hideAllOverlaysAndReset ;;
  setAnchorVisible false ;;
  modify (set_clickListeners true).

(** [main().catch(err => setStatus(`Error: ${err.message}`))]. *)
Definition onDOMContentLoaded : M unit :=
  try_catch main (λ e, setStatus (StError e)).

(** The [targetFound] listeners: the first one shows the anchor and every
    spawned overlay; the second one only restacks the canvas. *)
Definition show_entity (r : nat) : M unit :=
  modify (λ w, set_store (alter (set_e_visible true) r (store w)) w).

Definition onTargetFound : M unit :=
  setStatus StTargetFound ;;
  setAnchorVisible true ;;
  els ← gets spawnedEntities;
  for_of els show_entity.

Definition onTargetLost : M unit :=
  setStatus StTargetLost ;;
  hideAllOverlaysAndReset.

(** [await mindarSystem.start()] and [await mindarSystem.stop()]. *)
Definition mindar_start (o : Outcome) : M unit :=
  match o with
  | Resolves => modify (set_mindarSystem (Some {| running := true |}))
  | Rejects => throw TrackerRejected
  end.

Definition mindar_stop (o : Outcome) : M unit :=
  match o with
  | Resolves => modify (set_mindarSystem (Some {| running := false |}))
  | Rejects => throw TrackerRejected
  end.

Definition startBtn_click (o : Outcome) : M unit :=
  setStatus StStarting ;;
  system ← gets mindarSystem;
  match system with
  | None => setStatus StNotReady
  | Some _ =>
      try_catch
        (showScene true ;;
         hideAllOverlaysAndReset ;;
         mindar_start o ;;
         modify (set_startBtnDisabled true) ;;
         modify (set_stopBtnDisabled false) ;;
         setStatus StStarted)
        (λ _, setStatus StStartFailed)
  end.

Definition stopBtn_click (o : Outcome) : M unit :=
  system ← gets mindarSystem;
  match system with
  | None => mret tt
  | Some _ =>
      hideAllOverlaysAndReset ;;
      setAnchorVisible false ;;
      mindar_stop o ;;
      showScene false ;;
      modify (set_startBtnDisabled false) ;;
      modify (set_stopBtnDisabled true) ;;
      setStatus StStopped
  end.

End Part000.

(** ** [src/main.js]: the first build *)

Module MainJs.

(** [makeEntityCommon]: here [spinY] is read from the layer, and the
    component is attached when either number is truthy. *)
Definition makeEntityCommon (layer : LayerSpec) : Entity :=
  let floatAmp := number_or_zero (anim_member anim_float layer) in
  let spinY := number_or_zero (anim_member anim_spinY layer) in
  {| e_position := default (0, 0, 0.12)%float (layer_pos layer);
     e_scale := default (0.2, 0.2, 0.2)%float (layer_scale layer);
     e_rotation_y := 0%float;
     e_visible := true;
     e_layer_anim :=
       if truthy_number floatAmp || truthy_number spinY
       then Some {| la_float := floatAmp; la_spinY := spinY |}
       else None;
     e_baseY := None;
     e_always_on_top := false;
     e_material := None;
     e_children := [] |}.

Definition appendChild (child : Primitive) (e : Entity) : Entity :=
  set_e_children (e_children e ++ [child]) e.

Definition addImageLayer (layer : LayerSpec) : M unit :=
  let e := makeEntityCommon layer in
  let plane := APlane (MaterialUrl (field_text (layer_src layer)) None) in
  anchor_appendChild (appendChild plane e) ;;
  mret tt.

Definition addModelLayer (layer : LayerSpec) : M unit :=
  let e := makeEntityCommon layer in
  let model := AGltfModel (field_text (layer_src layer)) false in
  anchor_appendChild (appendChild model e) ;;
  mret tt.

Definition addVideoLayer (layer : LayerSpec) : M unit :=
  let e := makeEntityCommon layer in
  vidId ← ensureVideoAsset layer;
  let plane := APlane (MaterialSelector ("#" +:+ vidId)) in
  anchor_appendChild (appendChild plane e) ;;
  mret tt.

(** The body of the loop of [main]: there is no branch for [gif]. *)
Definition build_layer (layer : option LayerSpec) : M unit :=
  match layer with
  | None => mret tt
  | Some l =>
      if negb (truthy_field (layer_type l)) || negb (truthy_field (layer_src l))
      then mret tt
      else if field_is (layer_type l) "image" then addImageLayer l
      else if field_is (layer_type l) "model" then addModelLayer l
      else if field_is (layer_type l) "video" then addVideoLayer l
      else mret tt
  end.

Definition main : M unit :=
  layers ← resolve_card;
  clearAnchor ;;
  for_of layers build_layer ;;
  setStatus StReady ;;
  modify (set_clickListeners true).

Definition onDOMContentLoaded : M unit :=
  try_catch main (λ e, setStatus (StError e)).

Definition mindar_start (o : Outcome) : M unit :=
  match o with
  | Resolves => modify (set_mindarSystem (Some {| running := true |}))
  | Rejects => throw TrackerRejected
  end.

Definition mindar_stop (o : Outcome) : M unit :=
  match o with
  | Resolves => modify (set_mindarSystem (Some {| running := false |}))
  | Rejects => throw TrackerRejected
  end.

Definition startBtn_click (o : Outcome) : M unit :=
  setStatus StStarting ;;
  system ← gets mindarSystem;
  match system with
  | None => setStatus StNotReady
  | Some _ =>
      try_catch
        (mindar_start o ;;
         modify (set_startBtnDisabled true) ;;
         modify (set_stopBtnDisabled false) ;;
         setStatus StStarted)
        (λ _, setStatus StStartFailed)
  end.

Definition stopBtn_click (o : Outcome) : M unit :=
  system ← gets mindarSystem;
  match system with
  | None => mret tt
  | Some _ =>
      mindar_stop o ;;
      modify (set_startBtnDisabled false) ;;
      modify (set_stopBtnDisabled true) ;;
      setStatus StStopped
  end.

End MainJs.

(** ** The session: events after the page has loaded *)

Inductive Event :=
| EngineReady                          (* the scene registers the tracking system *)
| StartClick (o : Outcome)
| StopClick (o : Outcome)
| VideoClick (plays : string → Outcome)
| TargetFound
| TargetLost.

(** The scene creating its systems: from then on
    [sceneEl.systems["mindar-image-system"]] is defined. *)
Definition engine_ready : M unit :=
  modify (λ w,
    match mindarSystem w with
    | None => set_mindarSystem (Some {| running := false |}) w
    | Some _ => w
    end).

Definition when_listening (flag : World → bool) (handler : M unit) : M unit :=
  listening ← gets flag;
  if listening : bool then handler else mret tt.

(** An event of the later build reaches the listener [main] has installed
    for it, if [main] got that far. *)
Definition dispatch (ev : Event) : M unit :=
  match ev with
  | EngineReady => engine_ready
  | StartClick o => when_listening clickListeners (Part000.startBtn_click o)
  | StopClick o => when_listening clickListeners (Part000.stopBtn_click o)
  | VideoClick plays => when_listening clickListeners (videoBtn_click plays)
  | TargetFound => when_listening targetListeners Part000.onTargetFound
  | TargetLost => when_listening targetListeners Part000.onTargetLost
  end.

(** The world after a sequence of events; an exception that leaves a
    handler is an unhandled rejection and the session goes on. *)
Definition run (evs : list Event) (w : World) : World :=
  foldl (λ w ev, exec (dispatch ev) w) w evs.

(** The tracking state the controls and the anchor encode. *)
Inductive TrackingState := Idle | Scanning | Tracking.

Definition trackingState (w : World) : TrackingState :=
  match mindarSystem w with
  | Some {| running := true |} => if anchorVisible w then Tracking else Scanning
  | _ => Idle
  end.

(** A page that has just loaded the script of the later build: the global
    [spawnedEntities] is the empty array of line 3, no listener is installed,
    and [DOMContentLoaded] runs [main]. *)
Definition script_loaded (w : World) : World :=
  set_spawnedEntities [] (set_targetListeners false (set_clickListeners false w)).

Definition page_load : M unit :=
  modify script_loaded ;; Part000.onDOMContentLoaded.

(** ** Vocabulary of the properties *)

(** The card [main] works with: the requested one, else the default one. *)
Definition chosen_card (w : World) : option PropertyValue :=
  match cardsJson w with
  | None => None
  | Some config =>
      match get_property config (card_id_of (location_id w)) with
      | Some c => Some c
      | None => get_property config DEFAULT_CARD_ID
      end
  end.

(** The raw entries of its [layers] array, before any clamp. *)
Definition raw_layers (c : PropertyValue) : list (option LayerSpec) :=
  match get_layers c with
  | LayersArray l => l
  | _ => []
  end.

(** Both [type] and [src] are present in the entry. *)
Definition has_type_and_src (l : option LayerSpec) : bool :=
  match l with
  | Some l => bool_decide (is_Some (layer_type l)) && bool_decide (is_Some (layer_src l))
  | None => false
  end.

(** The four layer types of the data model. *)
Definition layer_types : list string := [ "image"; "gif"; "model"; "video" ].

(** A valid LayerSpec: an object whose [type] is one of the four types and
    whose [src] is a non-empty string. *)
Definition valid_spec (l : option LayerSpec) : bool :=
  match l with
  | Some l =>
      bool_decide (layer_type l ∈ Some <$> layer_types) && truthy_field (layer_src l)
  | None => false
  end.

(** The three variants of an overlay. *)
Inductive Variant :=
| TexturedPlane       (* image and gif: a flat plane textured from a url *)
| ModelNode           (* model: a loaded 3-D asset *)
| VideoPlane.         (* video: a plane bound to a shared video asset *)

Definition variant_for (type : string) : option Variant :=
  if strict_eq type "image" then Some TexturedPlane
  else if strict_eq type "gif" then Some TexturedPlane
  else if strict_eq type "model" then Some ModelNode
  else if strict_eq type "video" then Some VideoPlane
  else None.

Definition variant_of (e : Entity) : option Variant :=
  match e_children e with
  | [APlane (MaterialUrl _ _)] => Some TexturedPlane
  | [AGltfModel _ _] => Some ModelNode
  | [APlane (MaterialSelector _)] => Some VideoPlane
  | _ => None
  end.


(** The overlays behind a list of addresses. *)
Definition overlays_at (rs : list nat) (w : World) : list (option Entity) :=
  (λ r, store w !! r) <$> rs.

Definition spawned_overlays (w : World) : list (option Entity) :=
  overlays_at (spawnedEntities w) w.

(** Every address holds an entity that satisfies [P]. *)
Definition all_overlays (P : Entity → Prop) (rs : list nat) (w : World) : Prop :=
  Forall (λ r, ∃ e, store w !! r = Some e ∧ P e) rs.

(** A video is paused, at position 0 and muted. *)
Definition video_reset (v : Video) : Prop :=
  v_paused v = true ∧ v_currentTime v = 0%float ∧ v_muted v = true.

(** Everything hidden and every video reset: the state the hide-and-reset
    policy aims at. *)
Definition all_hidden_and_reset (w : World) : Prop :=
  anchorVisible w = false
  ∧ all_overlays (λ e, e_visible e = false) (spawnedEntities w) w
  ∧ Forall video_reset (assets w).

(** Ticks of the render loop, each [(t, dt)], applied to one entity. *)
Definition ticks (Math_sin : float → float) (frames : list (float * float)) (e : Entity)
  : Entity :=
  foldl (λ e '(t, dt), layer_anim_tick Math_sin t dt e) e frames.

(** The overlay of the later build for a layer, as it enters the scene. *)
Definition overlay_child (bust : Z) (l : LayerSpec) : Primitive :=
  if field_is (layer_type l) "model"
  then AGltfModel (field_text (layer_src l)) true
  else if field_is (layer_type l) "video"
  then APlane (MaterialSelector ("#" +:+ video_id (field_text (layer_src l))))
  else APlane (MaterialUrl (field_text (layer_src l)) (Some bust)).

Definition overlay_of (bust : Z) (l : LayerSpec) : Entity :=
  layer_anim_init (Part000.appendChild (overlay_child bust l) (Part000.makeEntityCommon l)).

(** Spin is disabled in a build: no frame changes the rotation of the
    entity [makeEntityCommon] makes, whatever the layer configures. *)
Definition spin_disabled (makeEntityCommon : LayerSpec → Entity) : Prop :=
  ∀ (layer : LayerSpec) (Math_sin : float → float) (frames : list (float * float)),
    e_rotation_y (ticks Math_sin frames (layer_anim_init (makeEntityCommon layer)))
    = e_rotation_y (layer_anim_init (makeEntityCommon layer)).

(** A positive [anim.float] makes every frame put the entity at
    [baseY + sin(2.0 * t / 1000) * float], where [baseY] is the [y] of the
    layer's position. *)
Definition floats (makeEntityCommon : LayerSpec → Entity) : Prop :=
  ∀ (layer : LayerSpec) (a : Anim) (amp : float) (Math_sin : float → float)
    (frames : list (float * float)) (t dt : float),
    layer_anim layer = Some a →
    anim_float a = Some amp →
    (0 <? amp)%float = true →
    let e0 := layer_anim_init (makeEntityCommon layer) in
    let e := ticks Math_sin (frames ++ [(t, dt)]) e0 in
    e_position e
    = ((e_position e0).1.1,
       ((e_position e0).1.2 + Math_sin (t / 1000 * 2) * amp)%float,
       (e_position e0).2).


(** ** The loops as functions on worlds *)

(** One turn of the loop of [main] in the later build. *)
Definition build_world (w : World) (l : option LayerSpec) : World :=
  exec (Part000.build_layer l) w.

(** The world after [anchor.appendChild(e)] and [spawnedEntities.push(e)]. *)
Definition spawn_world (e : Entity) (w : World) : World :=
  set_spawnedEntities (spawnedEntities w ++ [length (store w)])
    (set_anchorChildren (anchorChildren w ++ [length (store w)])
       (set_store (store w ++ [layer_anim_init e]) w)).

(** The registry after [ensureVideoAsset] for one source. *)
Definition ensure_assets (vs : list Video) (src : string) : list Video :=
  if bool_decide (video_id src ∈ v_id <$> vs)
  then vs
  else vs ++ [new_video (video_id src) src].

(** The valid entries of a list of layers, in order. *)
Definition as_valid (l : option LayerSpec) : option LayerSpec :=
  if valid_spec l then l else None.

Definition valid_layers (ls : list (option LayerSpec)) : list LayerSpec :=
  omap as_valid ls.

(** The sources of the video layers among them. *)
Definition video_source (l : LayerSpec) : option string :=
  if field_is (layer_type l) "video" then Some (field_text (layer_src l)) else None.

Definition video_sources (ls : list LayerSpec) : list string :=
  omap video_source ls.

(** One turn of the first loop of [hideAllOverlaysAndReset], and the whole
    function. *)
Definition hide_step (w : World) (r : nat) : World :=
  exec (Part000.hide_entity r) w.

Definition hide_world (w : World) : World :=
  exec Part000.hideAllOverlaysAndReset w.

Definition hide_store (rs : list nat) (s : list Entity) : list Entity :=
  foldl (λ s r, alter (set_e_visible false) r s) s rs.

Definition show_store (rs : list nat) (s : list Entity) : list Entity :=
  foldl (λ s r, alter (set_e_visible true) r s) s rs.

(** The status texts [main] writes before the loop. *)
Definition requested_found (w : World) : bool :=
  match cardsJson w with
  | Some config => bool_decide (is_Some (get_property config (card_id_of (location_id w))))
  | None => false
  end.

Definition resolve_log (w : World) : list Status :=
  (if requested_found w then [] else [StUnknownCard (card_id_of (location_id w))])
  ++ StLoading (card_id_of (location_id w)) :: statusLog w.

(** The world [resolve_card] leaves when it returns. *)
Definition resolved_world (c : PropertyValue) (needsVideo : bool) (w : World) : World :=
  set_videoBtnDisplay (Some (if needsVideo then InlineBlock else DisplayNone))
    (set_igHref
       (Some (if truthy_field (get_instagramUrl c)
              then field_text (get_instagramUrl c)
              else "https://instagram.com/"))
       (set_statusLog (resolve_log w) w)).

(** The world [main] of the later build leaves when it returns. *)
Definition built_world (c : PropertyValue) (needsVideo : bool) (w : World) : World :=
  foldl build_world
    (set_spawnedEntities []
       (set_anchorChildren []
          (set_targetListeners true (resolved_world c needsVideo w))))
    (take MAX_LAYERS (raw_layers c)).

Definition main_world (c : PropertyValue) (needsVideo : bool) (w : World) : World :=
  let w1 := built_world c needsVideo w in
  set_clickListeners true
    (set_anchorVisible false
       (hide_world
          (set_sceneShown false (set_statusLog (StReady :: statusLog w1) w1)))).

(** The raw layer entries of the card the page loads; none when no card can
    be chosen. *)
Definition raw_entries (w : World) : list (option LayerSpec) :=
  match chosen_card w with
  | Some c => raw_layers c
  | None => []
  end.

(** Every spawned address points into the store. *)
Definition spawned_valid (w : World) : Prop :=
  Forall (λ r, r < length (store w)) (spawnedEntities w).

(** *** Sample pages *)

(** A page as the browser hands it to the script: nothing written yet, the
    tracking system not yet registered, the start control enabled and the
    stop control disabled. *)
Definition blank_page (i : option string) (config : option (gmap string CardDefinition))
  : World :=
  {| location_id := i; cardsJson := config; dateNow := 1700000000000;
     statusLog := []; igHref := None; videoBtnDisplay := None;
     startBtnDisabled := false; stopBtnDisabled := true; sceneShown := true;
     mindarSystem := None; assets := []; anchorVisible := true;
     anchorChildren := []; store := []; spawnedEntities := [];
     targetListeners := false; clickListeners := false |}.

Definition layer (type src : option string) : LayerSpec :=
  {| layer_type := type; layer_src := src; layer_pos := None; layer_scale := None;
     layer_anim := None |}.

Definition card (ls : list (option LayerSpec)) : CardDefinition :=
  {| instagramUrl := None; layers := LayersArray ls |}.

(** The configuration of the first scenario: one image layer. *)
Definition one_image_config : gmap string CardDefinition :=
  {[ "card_001" := card [Some (layer (Some "image") (Some "a.png"))] ]}.

(** Two video layers with one source. *)
Definition two_videos_config : gmap string CardDefinition :=
  {[ "card_001" := card [Some (layer (Some "video") (Some "clip.mp4"));
                         Some (layer (Some "video") (Some "clip.mp4"))] ]}.

(** Four entries that are skipped, a valid fifth and a valid sixth. *)
Definition six_layers_config : gmap string CardDefinition :=
  {[ "card_001" := card [Some (layer None (Some "a.png"));
                         Some (layer (Some "image") None);
                         Some (layer (Some "video") None);
                         Some (layer (Some "") (Some "b.png"));
                         Some (layer (Some "model") (Some "m.glb"));
                         Some (layer (Some "image") (Some "late.png"))] ]}.

(** Two worlds of one session: the same spawned list, the same entities in
    the store up to their own state (each with the children it had), the
    same video assets up to their playback state, and the same listeners. *)
Definition same_session (w w' : World) : Prop :=
  spawnedEntities w' = spawnedEntities w
  ∧ e_children <$> store w' = e_children <$> store w
  ∧ v_id <$> assets w' = v_id <$> assets w
  ∧ targetListeners w' = targetListeners w
  ∧ clickListeners w' = clickListeners w.



(** A video layer with no [src]. *)
Definition srcless_video_config : gmap string CardDefinition :=
  {[ "card_001" := card [Some (layer (Some "video") None)] ]}.

(** ** Vocabulary of the further properties *)

(** *** Reading an asset id back

    The script never decodes an id; the decoder below is the left inverse
    that shows [video_id] keeps every source apart. *)

(** The value of a base64 digit: its place in the alphabet. *)
Fixpoint index_of (c : ascii) (s : string) : option N :=
  match s with
  | EmptyString => None
  | String d s' => if Ascii.eqb c d then Some 0%N else N.succ <$> index_of c s'
  end.

Definition base64_value (c : ascii) : N :=
  default 0%N (index_of c base64_alphabet).

(** Four digits to three bytes; two or three trailing digits stand for one
    or two bytes, the padding being gone. *)
Fixpoint unbase64 (digits : list N) : list N :=
  match digits with
  | d1 :: d2 :: d3 :: d4 :: rest =>
      N.lor (N.shiftl d1 2) (N.shiftr d2 4)
      :: N.lor (N.shiftl (N.land d2 15) 4) (N.shiftr d3 2)
      :: N.lor (N.shiftl (N.land d3 3) 6) d4
      :: unbase64 rest
  | [d1; d2; d3] =>
      [N.lor (N.shiftl d1 2) (N.shiftr d2 4);
       N.lor (N.shiftl (N.land d2 15) 4) (N.shiftr d3 2)]
  | [d1; d2] => [N.lor (N.shiftl d1 2) (N.shiftr d2 4)]
  | _ => []
  end.

Definition atob_unpadded (s : string) : string :=
  string_of_list_ascii
    (ascii_of_N <$> unbase64 (base64_value <$> list_ascii_of_string s)).

(** The source behind an id [vid_...]. *)
Definition source_of_id (i : string) : string :=
  match i with
  | String _ (String _ (String _ (String _ digits))) => atob_unpadded digits
  | _ => EmptyString
  end.

(** *** White space at the ends of a string *)

Fixpoint all_white_space (s : string) : bool :=
  match s with
  | EmptyString => true
  | String c s' => is_white_space c && all_white_space s'
  end.

Definition starts_with_white_space (s : string) : bool :=
  match s with
  | EmptyString => false
  | String c _ => is_white_space c
  end.

Fixpoint ends_with_white_space (s : string) : bool :=
  match s with
  | EmptyString => false
  | String c EmptyString => is_white_space c
  | String _ s' => ends_with_white_space s'
  end.

(** *** Loading, the registry and the session *)

(** A [null] entry ahead of a valid layer. *)
Definition null_first_config : gmap string CardDefinition :=
  {[ "card_001" := card [None; Some (layer (Some "image") (Some "a.png"))] ]}.

(** A [null] entry behind a video layer. *)
Definition null_later_config : gmap string CardDefinition :=
  {[ "card_001" := card [Some (layer (Some "video") (Some "clip.mp4")); None] ]}.

(** What identifies a video asset: its id and its source. *)
Definition media (vs : list Video) : list (string * string) :=
  (λ v, (v_id v, v_src v)) <$> vs.

(** A registry that only [ensureVideoAsset] has filled: no id twice, and
    every id is the one of the video's own source. *)
Definition registry_ok (vs : list Video) : Prop :=
  NoDup (v_id <$> vs) ∧ Forall (λ v, v_id v = video_id (v_src v)) vs.

(** Is the tracking engine running? *)
Definition tracker_running (w : World) : bool :=
  match mindarSystem w with
  | Some t => running t
  | None => false
  end.

(** The two controls follow the engine: start is disabled exactly while it
    runs, stop exactly while it does not. *)
Definition controls_agree (w : World) : Prop :=
  startBtnDisabled w = tracker_running w
  ∧ stopBtnDisabled w = negb (tracker_running w).


(** The spawned overlays are shown and hidden together with the anchor. *)
Definition overlays_follow_anchor (w : World) : Prop :=
  all_overlays (λ e, e_visible e = anchorVisible w) (spawnedEntities w) w.

(** Two worlds with the same scene: the same overlays in the same places,
    up to their visibility, and the same video assets, up to their playback
    state; the same link and the same video control. *)
Definition same_scene (w w' : World) : Prop :=
  spawnedEntities w' = spawnedEntities w
  ∧ anchorChildren w' = anchorChildren w
  ∧ set_e_visible true <$> store w' = set_e_visible true <$> store w
  ∧ Part000.reset_video <$> assets w' = Part000.reset_video <$> assets w
  ∧ igHref w' = igHref w
  ∧ videoBtnDisplay w' = videoBtnDisplay w
  ∧ targetListeners w' = targetListeners w
  ∧ clickListeners w' = clickListeners w.

(** The layers the first build makes overlays of: the valid ones but those
    of type [gif], for which its loop has no branch. *)
Definition not_gif (l : LayerSpec) : bool :=
  negb (field_is (layer_type l) "gif").

Definition mainjs_layers (ls : list (option LayerSpec)) : list LayerSpec :=
  List.filter not_gif (valid_layers ls).

(** The overlay of the first build for a layer, as it enters the scene. *)
Definition mainjs_overlay_child (l : LayerSpec) : Primitive :=
  if field_is (layer_type l) "model"
  then AGltfModel (field_text (layer_src l)) false
  else if field_is (layer_type l) "video"
  then APlane (MaterialSelector ("#" +:+ video_id (field_text (layer_src l))))
  else APlane (MaterialUrl (field_text (layer_src l)) None).

Definition mainjs_overlay_of (l : LayerSpec) : Entity :=
  layer_anim_init (MainJs.appendChild (mainjs_overlay_child l) (MainJs.makeEntityCommon l)).

(** One turn of the loop of [main] in the first build. *)
Definition mainjs_build_world (w : World) (l : option LayerSpec) : World :=
  exec (MainJs.build_layer l) w.

(** The world after [anchor.appendChild(e)] in the first build, which keeps
    no list of its own. *)
Definition attach_world (e : Entity) (w : World) : World :=
  set_anchorChildren (anchorChildren w ++ [length (store w)])
    (set_store (store w ++ [layer_anim_init e]) w).

(** The world [main] of the first build leaves when it returns. *)
Definition mainjs_world (c : PropertyValue) (needsVideo : bool) (w : World) : World :=
  let w1 :=
    foldl mainjs_build_world (set_anchorChildren [] (resolved_world c needsVideo w))
      (take MAX_LAYERS (raw_layers c)) in
  set_clickListeners true (set_statusLog (StReady :: statusLog w1) w1).

(** An image, a gif and a video layer. *)
Definition mixed_config : gmap string CardDefinition :=
  {[ "card_001" := card [Some (layer (Some "image") (Some "a.png"));
                         Some (layer (Some "gif") (Some "b.gif"));
                         Some (layer (Some "video") (Some "clip.mp4"))] ]}.

(** A page on which the engine has registered itself. *)
Definition engine_page (config : gmap string CardDefinition) : World :=
  exec engine_ready (blank_page None (Some config)).


(** ** The [always-on-top] component

    [apply] works on the [object3D] of its entity: a tree of nodes, some of
    them meshes.  A mesh refers to its material, or to an array of
    materials; two meshes may refer to the same material object, so the
    materials live in a heap and the nodes hold addresses.  [init] runs
    [apply] once the entity is set up and again at every [model-loaded];
    what the loader has put under the entity by then is the tree [apply]
    finds. *)

Module AlwaysOnTop.

Record MeshMaterial := {
  depthTest : bool;
  depthWrite : bool;
  transparent : bool;
  needsUpdate : bool;
  m_name : string
}.

(** [node.material]: one material or an array; an entry may be
    [undefined] or [null]. *)
Inductive MaterialRef :=
| OneMaterial (m : option nat)
| MaterialArray (ms : list (option nat)).

Local Unset Elimination Schemes.

Inductive Object3D :=
| Node (isMesh : bool) (renderOrder : Z) (material : MaterialRef)
       (children : list Object3D).

Local Set Elimination Schemes.

Definition isMesh_of (o : Object3D) : bool :=
  match o with Node m _ _ _ => m end.

Definition renderOrder_of (o : Object3D) : Z :=
  match o with Node _ r _ _ => r end.

Definition material_of (o : Object3D) : MaterialRef :=
  match o with Node _ _ mat _ => mat end.

(** The four assignments of the loop body. *)
Definition on_top (m : MeshMaterial) : MeshMaterial :=
  {| depthTest := false; depthWrite := false; transparent := true;
     needsUpdate := true; m_name := m_name m |}.

(** [Array.isArray(mat) ? mat : [mat]]. *)
Definition mats (mat : MaterialRef) : list (option nat) :=
  match mat with
  | OneMaterial m => [m]
  | MaterialArray ms => ms
  end.

(** [for (const m of mats) { if (!m) continue; ... }]. *)
Definition mark_all (ms : list (option nat)) (h : gmap nat MeshMaterial)
  : gmap nat MeshMaterial :=
  foldl (λ h m, match m with
                | Some a => alter on_top a h
                | None => h
                end) h ms.

(** The callback of [traverse] at one node. *)
Definition visit (isMesh : bool) (renderOrder : Z) (mat : MaterialRef)
    (h : gmap nat MeshMaterial) : Z * gmap nat MeshMaterial :=
  if isMesh then (999%Z, mark_all (mats mat) h) else (renderOrder, h).

(** [Object3D.traverse]: the callback at the node, then at every child,
    in order. *)
Definition traverse_all
    (traverse : Object3D → gmap nat MeshMaterial → Object3D * gmap nat MeshMaterial)
  : list Object3D → gmap nat MeshMaterial → list Object3D * gmap nat MeshMaterial :=
  fix go (cs : list Object3D) (h : gmap nat MeshMaterial)
    : list Object3D * gmap nat MeshMaterial :=
    match cs with
    | [] => ([], h)
    | c :: cs' =>
        let '(c', h1) := traverse c h in
        let '(cs'', h2) := go cs' h1 in
        (c' :: cs'', h2)
    end.

Fixpoint traverse (o : Object3D) (h : gmap nat MeshMaterial)
  : Object3D * gmap nat MeshMaterial :=
  match o with
  | Node m r mat cs =>
      let '(r', h1) := visit m r mat h in
      let '(cs', h2) := traverse_all traverse cs h1 in
      (Node m r' mat cs', h2)
  end.

(** [apply]: [obj.renderOrder = 999], then the traversal. *)
Definition apply (obj : Object3D) (h : gmap nat MeshMaterial)
  : Object3D * gmap nat MeshMaterial :=
  match obj with
  | Node m _ mat cs => traverse (Node m 999%Z mat cs) h
  end.

(** The nodes of a tree, the root first. *)
Fixpoint nodes (o : Object3D) : list Object3D :=
  match o with
  | Node _ _ _ cs => o :: concat (map nodes cs)
  end.

(** The materials the meshes of a tree refer to. *)
Fixpoint mesh_materials (o : Object3D) : list nat :=
  match o with
  | Node m _ mat cs =>
      (if m then omap id (mats mat) else []) ++ concat (map mesh_materials cs)
  end.

(** The tree with every mesh at render order 999. *)
Fixpoint retag (o : Object3D) : Object3D :=
  match o with
  | Node m r mat cs => Node m (if m then 999%Z else r) mat (map retag cs)
  end.

(** The loop body at one material of the heap. *)
Definition mark (h : gmap nat MeshMaterial) (a : nat) : gmap nat MeshMaterial :=
  alter on_top a h.

(** What [apply] never changes of a node: whether it is a mesh, and the
    materials it refers to. *)
Definition kind (o : Object3D) : bool * MaterialRef :=
  (isMesh_of o, material_of o).

(** A material that is drawn on top. *)
Definition drawn_on_top (m : MeshMaterial) : Prop :=
  depthTest m = false ∧ depthWrite m = false ∧ transparent m = true.

(** A model of two meshes that share one material, under a group. *)
Definition shared_model : Object3D :=
  Node false 0 (OneMaterial None)
    [Node true 0 (OneMaterial (Some 0)) [];
     Node false 3 (OneMaterial (Some 1))
       [Node true 0 (MaterialArray [Some 0; None; Some 2]) []]].

Definition fresh_material (name : string) : MeshMaterial :=
  {| depthTest := true; depthWrite := true; transparent := false;
     needsUpdate := false; m_name := name |}.

Definition shared_heap : gmap nat MeshMaterial :=
  {[ 0 := fresh_material "body"; 1 := fresh_material "helper";
     2 := fresh_material "glass"; 3 := fresh_material "other" ]}.

End AlwaysOnTop.

(** ** The canvas, the camera video and their styles

    The helpers that stack the canvas above the camera video and that show
    or hide the scene output only read the document and write inline
    styles.  The page is the list of its elements in document order, an
    element being named by its place; [sceneEl] and the canvas of its
    renderer are two such names, present once the scene and the renderer
    exist.  What the WebGL calls of [clearWebGLCanvas] and the extra
    [render] of [showScene] draw is not part of the page. *)

Module Compositor.

Inductive Tag := VideoTag | CanvasTag | SceneTag | OtherTag.

Record Element := {
  tagName : Tag;
  a_canvas : bool;             (* the class list holds [a-canvas] *)
  srcObject : bool;            (* a media stream is attached *)
  style : gmap string string   (* the inline style, by property *)
}.

Record Page := {
  elements : list Element;
  scene : option nat;          (* [sceneEl] *)
  renderer : option nat        (* [sceneEl.renderer.domElement] *)
}.

(** [el.style[prop] = value]. *)
Definition set_style (kv : string * string) (e : Element) : Element :=
  {| tagName := tagName e; a_canvas := a_canvas e; srcObject := srcObject e;
     style := <[kv.1 := kv.2]> (style e) |}.

(** A run of assignments to the style of one element. *)
Definition set_styles (kvs : list (string * string)) (e : Element) : Element :=
  foldl (λ e kv, set_style kv e) e kvs.

Definition assign_styles (el : nat) (kvs : list (string * string)) (page : Page) : Page :=
  {| elements := alter (set_styles kvs) el (elements page);
     scene := scene page; renderer := renderer page |}.

(** The selectors the helpers use. *)
Definition is_video (e : Element) : bool :=
  match tagName e with
  | VideoTag => true
  | _ => false
  end.

Definition is_canvas (e : Element) : bool :=
  match tagName e with
  | CanvasTag => true
  | _ => false
  end.

Definition is_camera (e : Element) : bool := is_video e && srcObject e.

Definition is_a_canvas (e : Element) : bool := a_canvas e.

Definition is_canvas_a_canvas (e : Element) : bool := is_canvas e && a_canvas e.

(** [document.querySelector]: the first match in document order. *)
Definition querySelector (sel : Element → bool) (page : Page) : option nat :=
  fst <$> list_find (λ e, sel e = true) (elements page).

(** [document.querySelectorAll]: every match, in document order. *)
Definition querySelectorAll (sel : Element → bool) (page : Page) : list nat :=
  List.filter (λ i, match elements page !! i with
                    | Some e => sel e
                    | None => false
                    end) (seq 0 (length (elements page))).

(** [videos.find(v => v.srcObject) || null] over the videos of the
    document. *)
Definition getMindarCameraVideo (page : Page) : option nat :=
  querySelector is_camera page.

(** [sceneEl?.renderer?.domElement]: nothing when [sceneEl] is [null]. *)
Definition renderer_domElement (page : Page) : option nat :=
  match scene page with
  | Some _ => renderer page
  | None => None
  end.

(** [sceneEl?.renderer?.domElement || document.querySelector("canvas.a-canvas")]. *)
Definition ios_canvas (page : Page) : option nat :=
  match renderer_domElement page with
  | Some c => Some c
  | None => querySelector is_canvas_a_canvas page
  end.

Definition camera_styles : list (string * string) :=
  [ ("position", "fixed"); ("inset", "0"); ("width", "100%"); ("height", "100%");
    ("objectFit", "cover"); ("zIndex", "0"); ("opacity", "0.999");
    ("webkitTransform", "translateZ(0)"); ("transform", "translateZ(0)") ].

Definition canvas_styles : list (string * string) :=
  [ ("position", "fixed"); ("inset", "0"); ("width", "100%"); ("height", "100%");
    ("zIndex", "2"); ("webkitTransform", "translateZ(1px)");
    ("transform", "translateZ(1px)") ].

(** *** [iosForceCanvasAboveCamera] *)

(** The state of one [setInterval]: the counter of the closure, and whether
    [clearInterval] has been called. *)
Record Poll := {
  tries : nat;
  cleared : bool
}.

Definition new_poll : Poll := {| tries := 0; cleared := false |}.

(** The callback of the interval. *)
Definition ios_callback (st : Poll) (page : Page) : Poll * Page :=
  let tries := S (tries st) in
  match getMindarCameraVideo page, ios_canvas page with
  | Some camVideo, Some canvas =>
      ({| tries := tries; cleared := true |},
       assign_styles canvas canvas_styles (assign_styles camVideo camera_styles page))
  | _, _ =>
      ({| tries := tries; cleared := bool_decide (40 < tries) || cleared st |}, page)
  end.

(** The timer fires the callback until it is cleared. *)
Definition fire (callback : Poll → Page → Poll * Page) (sp : Poll * Page) : Poll * Page :=
  if cleared sp.1 then sp else callback sp.1 sp.2.

(** Between two firings the browser, the scene and the tracking engine do
    to the page what they like: [envs] holds what happens before each
    firing. *)
Definition poll (callback : Poll → Page → Poll * Page) (envs : list (Page → Page))
    (sp : Poll * Page) : Poll * Page :=
  foldl (λ sp env, fire callback (sp.1, env sp.2)) sp envs.

(** The page under the environment alone. *)
Definition drift (envs : list (Page → Page)) (page : Page) : Page :=
  foldl (λ page env, env page) page envs.

(** The page after the assignments of the callback, when camera video and
    canvas are both there. *)
Definition ios_styled (page : Page) : Page :=
  match getMindarCameraVideo page, ios_canvas page with
  | Some camVideo, Some canvas =>
      assign_styles canvas canvas_styles (assign_styles camVideo camera_styles page)
  | _, _ => page
  end.

(** Camera video and canvas are both there. *)
Definition ios_ready (page : Page) : bool :=
  bool_decide (is_Some (getMindarCameraVideo page))
  && bool_decide (is_Some (ios_canvas page)).

(** The value a run of assignments leaves in one property. *)
Fixpoint assigned (prop : string) (kvs : list (string * string)) (old : option string)
  : option string :=
  match kvs with
  | [] => old
  | kv :: rest => assigned prop rest (if String.eqb kv.1 prop then Some kv.2 else old)
  end.

(** *** [showScene] *)

(** [Array.from(new Set(list))]: the first occurrence of each element, in
    order. *)
Fixpoint dedup_from (seen : list nat) (l : list nat) : list nat :=
  match l with
  | [] => []
  | x :: rest =>
      if bool_decide (x ∈ seen) then dedup_from seen rest
      else x :: dedup_from (x :: seen) rest
  end.

Definition Array_from_Set (l : list nat) : list nat := dedup_from [] l.

Definition getAllAFrameCanvasEls (page : Page) : list nat :=
  let aCanvas := querySelector is_a_canvas page in
  let rendererCanvas := renderer_domElement page in
  Array_from_Set
    (option_list aCanvas ++ option_list rendererCanvas ++ querySelectorAll is_canvas page).

Definition hidden_styles : list (string * string) :=
  [ ("visibility", "hidden"); ("opacity", "0"); ("pointerEvents", "none") ].

Definition shown_styles : list (string * string) :=
  [ ("visibility", "visible"); ("opacity", "1"); ("pointerEvents", "auto") ].

Definition forceHideElement (el : option nat) (hide : bool) (page : Page) : Page :=
  match el with
  | None => page
  | Some i => assign_styles i (if hide then hidden_styles else shown_styles) page
  end.

(** [showScene]: every canvas element, then the scene root. *)
Definition showScene (show : bool) (page : Page) : Page :=
  let canvases := getAllAFrameCanvasEls page in
  let page1 := foldl (λ page el, forceHideElement (Some el) (negb show) page) page canvases in
  forceHideElement (scene page1) (negb show) page1.

(** What a selector can see of an element: everything but the style. *)
Definition attrs (e : Element) : Tag * bool * bool :=
  (tagName e, a_canvas e, srcObject e).

(** The three assignments of [forceHideElement] for one call of
    [showScene]. *)
Definition scene_styles (show : bool) : list (string * string) :=
  if negb show then hidden_styles else shown_styles.

(** The elements [showScene] writes to. *)
Definition scene_targets (page : Page) : list nat :=
  getAllAFrameCanvasEls page ++ option_list (scene page).

(** A page as A-Frame and the engine set it up: the scene, the canvas of its
    renderer, which carries the class [a-canvas], a video asset, and the
    camera video the engine has added. *)
Definition tracking_page : Page :=
  {| elements :=
       [ {| tagName := SceneTag; a_canvas := false; srcObject := false; style := ∅ |};
         {| tagName := VideoTag; a_canvas := false; srcObject := false; style := ∅ |};
         {| tagName := CanvasTag; a_canvas := true; srcObject := false; style := ∅ |};
         {| tagName := VideoTag; a_canvas := false; srcObject := true; style := ∅ |} ];
     scene := Some 0; renderer := Some 2 |}.

(** The same page before the engine has added the camera video. *)
Definition starting_page : Page :=
  {| elements := take 3 (elements tracking_page); scene := Some 0; renderer := Some 2 |}.

(** The engine adds the camera video at the end of the document. *)
Definition add_camera (page : Page) : Page :=
  {| elements :=
       elements page
       ++ [ {| tagName := VideoTag; a_canvas := false; srcObject := true; style := ∅ |} ];
     scene := scene page; renderer := renderer page |}.

End Compositor.

(** * Proofs *)

(** ** The monad *)

Ltac unfold_m :=
  unfold mbind, M_bind, mret, M_ret, gets, modify, throw, try_catch in *.

(** Reads of a field through the setters, and nothing else. *)
Ltac world_simpl :=
  cbn [location_id cardsJson dateNow statusLog igHref videoBtnDisplay
       startBtnDisabled stopBtnDisabled sceneShown mindarSystem assets
       anchorVisible anchorChildren store spawnedEntities targetListeners
       clickListeners
       set_statusLog set_igHref set_videoBtnDisplay set_startBtnDisabled
       set_stopBtnDisabled set_sceneShown set_mindarSystem set_assets
       set_anchorVisible set_anchorChildren set_store set_spawnedEntities
       set_targetListeners set_clickListeners fst snd] in *.

Lemma exec_of {A : Type} (m : M A) (w : World) (r : Result A) (w' : World) :
  m w = (r, w') → exec m w = w'.
Proof. intros H. unfold exec. rewrite H. reflexivity. Qed.

Lemma for_of_total {A : Type} (body : A → M unit) (step : World → A → World) :
  (∀ x w, body x w = (Ok tt, step w x)) →
  ∀ xs w, for_of xs body w = (Ok tt, foldl step w xs).
Proof.
  intros Hbody xs. induction xs as [|x xs IH]; intros w; simpl.
  - reflexivity.
  - unfold_m. rewrite Hbody. apply IH.
Qed.

(** ** Strings and layer types *)

Lemma strict_eq_true a b : strict_eq a b = true ↔ a = b.
Proof. apply String.eqb_eq. Qed.

Lemma strict_eq_false a b : strict_eq a b = false ↔ a ≠ b.
Proof. apply String.eqb_neq. Qed.

Lemma variant_for_types t : is_Some (variant_for t) ↔ t ∈ layer_types.
Proof.
  unfold variant_for, layer_types.
  destruct (strict_eq t "image") eqn:E1;
    [apply strict_eq_true in E1; subst; split; [set_solver|eauto]|].
  destruct (strict_eq t "gif") eqn:E2;
    [apply strict_eq_true in E2; subst; split; [set_solver|eauto]|].
  destruct (strict_eq t "model") eqn:E3;
    [apply strict_eq_true in E3; subst; split; [set_solver|eauto]|].
  destruct (strict_eq t "video") eqn:E4;
    [apply strict_eq_true in E4; subst; split; [set_solver|eauto]|].
  apply strict_eq_false in E1, E2, E3, E4.
  split; [intros [? ?]; discriminate|].
  rewrite !elem_of_cons, elem_of_nil. tauto.
Qed.

Lemma type_truthy t : t ∈ layer_types → truthy_string t = true.
Proof.
  unfold layer_types. rewrite !elem_of_cons, elem_of_nil.
  intros [->|[->|[->|[->|[]]]]]; reflexivity.
Qed.

(** [valid_spec] is the test the loop body makes before it builds. *)
Lemma valid_spec_Some l :
  valid_spec (Some l) = true ↔
  ∃ t, layer_type l = Some t ∧ t ∈ layer_types ∧ truthy_field (layer_src l) = true.
Proof.
  unfold valid_spec. rewrite andb_true_iff, bool_decide_eq_true.
  rewrite list_elem_of_fmap. split.
  - intros [(t & Ht & Hin) Hsrc]. eauto.
  - intros (t & Ht & Hin & Hsrc). eauto.
Qed.

Lemma valid_spec_false l :
  valid_spec (Some l) = false →
  truthy_field (layer_type l) = false ∨ truthy_field (layer_src l) = false
  ∨ ∃ t, layer_type l = Some t ∧ variant_for t = None.
Proof.
  intros H. destruct (truthy_field (layer_src l)) eqn:Hsrc; [|auto].
  destruct (layer_type l) as [t|] eqn:Ht; [|auto].
  right; right. exists t. split; [reflexivity|].
  destruct (variant_for t) eqn:Hv; [|reflexivity].
  assert (valid_spec (Some l) = true) as Hval; [|congruence].
  apply valid_spec_Some. exists t. split; [assumption|]. split; [|assumption].
  apply variant_for_types. rewrite Hv. eauto.
Qed.

(** ** The card resolution *)

Lemma clamp_raw c :
  clampLayers (layers_or_empty (get_layers c)) = take MAX_LAYERS (raw_layers c).
Proof.
  unfold raw_layers. destruct (get_layers c) as [|[]|l]; reflexivity.
Qed.

Lemma resolve_card_returns w c b :
  chosen_card w = Some c →
  some_type_video (take MAX_LAYERS (raw_layers c)) = Ok b →
  resolve_card w = (Ok (take MAX_LAYERS (raw_layers c)), resolved_world c b w).
Proof.
  unfold chosen_card, resolve_card, resolved_world, resolve_log, requested_found,
    getCardIdFromUrl, setStatus, loadJSON, showVideoButtonIfNeeded.
  intros Hc Hb. unfold_m. world_simpl.
  destruct (cardsJson w) as [config|]; [|discriminate].
  destruct (get_property config (card_id_of (location_id w))) as [c1|] eqn:Hreq.
  - injection Hc as ->. cbv beta iota zeta. rewrite clamp_raw, Hb. reflexivity.
  - cbv beta iota zeta. rewrite Hc. rewrite clamp_raw, Hb. reflexivity.
Qed.

(** When [resolve_card] returns, it returns the clamped layers of the chosen
    card, and the video test on them has not thrown. *)
Lemma resolve_card_inv w ls w' :
  resolve_card w = (Ok ls, w') →
  ∃ c b, chosen_card w = Some c
         ∧ some_type_video (take MAX_LAYERS (raw_layers c)) = Ok b
         ∧ ls = take MAX_LAYERS (raw_layers c).
Proof.
  unfold chosen_card, resolve_card, getCardIdFromUrl, setStatus, loadJSON,
    showVideoButtonIfNeeded.
  unfold_m. world_simpl. intros H.
  destruct (cardsJson w) as [config|]; [|discriminate].
  destruct (get_property config (card_id_of (location_id w))) as [c1|] eqn:Hreq;
    cbv beta iota zeta in H.
  - rewrite clamp_raw in H.
    destruct (some_type_video _) as [b|] eqn:Hb; [|discriminate].
    injection H as <- _. eauto.
  - destruct (get_property config DEFAULT_CARD_ID) as [c|]; [|discriminate].
    cbv beta iota zeta in H. rewrite clamp_raw in H.
    destruct (some_type_video _) as [b|] eqn:Hb; [|discriminate].
    injection H as <- _. eauto.
Qed.

(** Whatever [resolve_card] does, it touches neither the overlays nor the
    assets, the tracker or the controls. *)
Lemma resolve_card_frame w :
  let w' := exec resolve_card w in
  spawnedEntities w' = spawnedEntities w ∧ store w' = store w
  ∧ anchorChildren w' = anchorChildren w ∧ assets w' = assets w
  ∧ targetListeners w' = targetListeners w ∧ clickListeners w' = clickListeners w.
Proof.
  unfold exec, resolve_card, getCardIdFromUrl, setStatus, loadJSON,
    showVideoButtonIfNeeded.
  unfold_m. world_simpl.
  destruct (cardsJson w) as [config|]; [|simpl; tauto].
  destruct (get_property config (card_id_of (location_id w))) as [c1|]; simpl.
  - destruct (some_type_video _); simpl; tauto.
  - destruct (get_property config DEFAULT_CARD_ID) as [c|]; simpl; [|tauto].
    destruct (some_type_video _); simpl; tauto.
Qed.

(** ** The loop of [main] in the later build *)

Lemma video_id_not_page src : bool_decide (video_id src ∈ page_ids) = false.
Proof.
  apply bool_decide_eq_false. unfold video_id, page_ids. simpl.
  rewrite !elem_of_cons, elem_of_nil.
  intros H. repeat destruct H as [H|H]; discriminate || assumption.
Qed.

Lemma ensureVideoAsset_eq l w :
  ensureVideoAsset l w
  = (Ok (video_id (field_text (layer_src l))),
     set_assets (ensure_assets (assets w) (field_text (layer_src l))) w).
Proof.
  destruct w. unfold ensureVideoAsset, hasElementById, ensure_assets. unfold_m.
  world_simpl. rewrite video_id_not_page. cbn [orb].
  destruct (bool_decide _); reflexivity.
Qed.

Lemma build_layer_total l w : Part000.build_layer l w = (Ok tt, build_world w l).
Proof.
  unfold build_world, exec. destruct l as [l|]; [|reflexivity].
  unfold Part000.build_layer.
  destruct (_ || _); [reflexivity|].
  repeat (destruct (field_is _ _); [ try reflexivity | ]); try reflexivity.
  unfold Part000.addVideoLayer. unfold_m. rewrite ensureVideoAsset_eq. reflexivity.
Qed.

Lemma build_world_invalid l w : valid_spec l = false → build_world w l = w.
Proof.
  unfold build_world, exec. destruct l as [l|]; [|reflexivity].
  intros H. unfold Part000.build_layer.
  destruct (valid_spec_false l H) as [Ht|[Hs|(t & Ht & Hv)]].
  - rewrite Ht. reflexivity.
  - rewrite Hs, orb_true_r. reflexivity.
  - destruct (_ || _); [reflexivity|].
    rewrite Ht. unfold variant_for in Hv. unfold field_is.
    destruct (strict_eq t "image"); [discriminate|].
    destruct (strict_eq t "gif"); [discriminate|].
    destruct (strict_eq t "model"); [discriminate|].
    destruct (strict_eq t "video"); [discriminate|].
    reflexivity.
Qed.

Lemma build_world_valid l w :
  valid_spec (Some l) = true →
  build_world w (Some l)
  = spawn_world
      (Part000.appendChild (overlay_child (dateNow w) l) (Part000.makeEntityCommon l))
      (set_assets
         (match video_source l with
          | Some src => ensure_assets (assets w) src
          | None => assets w
          end) w).
Proof.
  intros H. apply valid_spec_Some in H as (t & Ht & Hin & Hsrc).
  unfold build_world, exec, Part000.build_layer, overlay_child, video_source.
  rewrite Ht, Hsrc. cbn [truthy_field]. rewrite (type_truthy t Hin). cbn [negb orb].
  destruct w. unfold layer_types in Hin.
  rewrite !elem_of_cons, elem_of_nil in Hin.
  destruct Hin as [->|[->|[->|[->|[]]]]]; cbn [field_is strict_eq String.eqb Ascii.eqb Bool.eqb];
    try reflexivity.
  unfold Part000.addVideoLayer. unfold_m. rewrite ensureVideoAsset_eq. reflexivity.
Qed.

Lemma valid_layers_cons_valid l ls :
  valid_spec (Some l) = true → valid_layers (Some l :: ls) = l :: valid_layers ls.
Proof. intros H. unfold valid_layers. cbn [omap list_omap as_valid]. unfold as_valid. rewrite H. reflexivity. Qed.

Lemma valid_layers_cons_invalid l ls :
  valid_spec l = false → valid_layers (l :: ls) = valid_layers ls.
Proof. intros H. unfold valid_layers. cbn [omap list_omap]. unfold as_valid. rewrite H. reflexivity. Qed.

(** The loop adds the overlays of the valid layers, in order, to the store,
    to the anchor and to [spawnedEntities]; it registers the video sources;
    it leaves everything else as it is. *)
Lemma build_loop ls : ∀ w,
  let w' := foldl build_world w ls in
  store w' = store w ++ (overlay_of (dateNow w) <$> valid_layers ls)
  ∧ spawnedEntities w'
    = spawnedEntities w ++ seq (length (store w)) (length (valid_layers ls))
  ∧ anchorChildren w'
    = anchorChildren w ++ seq (length (store w)) (length (valid_layers ls))
  ∧ assets w' = foldl ensure_assets (assets w) (video_sources (valid_layers ls))
  ∧ statusLog w' = statusLog w
  ∧ igHref w' = igHref w
  ∧ videoBtnDisplay w' = videoBtnDisplay w
  ∧ startBtnDisabled w' = startBtnDisabled w
  ∧ stopBtnDisabled w' = stopBtnDisabled w
  ∧ sceneShown w' = sceneShown w
  ∧ mindarSystem w' = mindarSystem w
  ∧ anchorVisible w' = anchorVisible w
  ∧ targetListeners w' = targetListeners w
  ∧ clickListeners w' = clickListeners w.
Proof.
  induction ls as [|x ls IH]; intros w; cbn [foldl].
  - cbn zeta. rewrite !app_nil_r. repeat split; reflexivity.
  - destruct (valid_spec x) eqn:Hx.
    + destruct x as [l|]; [|discriminate].
      rewrite (valid_layers_cons_valid l ls Hx), (build_world_valid l w Hx).
      set (w1 := spawn_world _ _).
      assert (store w1 = store w ++ [overlay_of (dateNow w) l]) as Hs1 by reflexivity.
      assert (spawnedEntities w1 = spawnedEntities w ++ [length (store w)]) as Hsp1
        by reflexivity.
      assert (anchorChildren w1 = anchorChildren w ++ [length (store w)]) as Han1
        by reflexivity.
      assert (assets w1 = match video_source l with
                          | Some src => ensure_assets (assets w) src
                          | None => assets w
                          end) as Has1 by reflexivity.
      assert (dateNow w1 = dateNow w) as Hd1 by reflexivity.
      destruct (IH w1) as (Hs & Hsp & Han & Has & Hrest).
      rewrite Hs, Hsp, Han, Has, Hs1, Hsp1, Han1, Has1, Hd1.
      rewrite length_app. cbn [length]. rewrite Nat.add_1_r.
      rewrite <- !app_assoc. cbn [fmap list_fmap length seq app].
      repeat split; try reflexivity; try apply Hrest.
      unfold video_sources. cbn [omap list_omap].
      destruct (video_source l); reflexivity.
    + rewrite (valid_layers_cons_invalid x ls Hx), (build_world_invalid x w Hx).
      apply IH.
Qed.

(** ** Hiding and resetting *)

Lemma reset_first_absorbed i vs :
  Part000.reset_video <$> Part000.reset_first i vs = Part000.reset_video <$> vs.
Proof.
  induction vs as [|v vs IH]; [reflexivity|].
  cbn [Part000.reset_first]. destruct (strict_eq (v_id v) i); cbn [fmap list_fmap].
  - reflexivity.
  - f_equal. apply IH.
Qed.

Lemma alter_insert_lookup {A : Type} (f : A → A) (l : list A) (i : nat) (x : A) :
  l !! i = Some x → <[i := f x]> l = alter f i l.
Proof.
  revert i. induction l as [|y l IH]; intros [|i] H; try discriminate.
  - injection H as ->. reflexivity.
  - cbn. f_equal. apply IH. exact H.
Qed.

Lemma alter_lookup_None {A : Type} (f : A → A) (l : list A) (i : nat) :
  l !! i = None → alter f i l = l.
Proof.
  revert i. induction l as [|y l IH]; intros [|i] H; try discriminate; try reflexivity.
  cbn. f_equal. apply IH. exact H.
Qed.

(** One turn of the first loop: the entity at [r] is hidden, and an asset is
    changed at most by a reset. *)
Lemma hide_entity_eq r w :
  ∃ vs, Part000.hide_entity r w
        = (Ok tt, set_assets vs (set_store (alter (set_e_visible false) r (store w)) w))
        ∧ Part000.reset_video <$> vs = Part000.reset_video <$> assets w.
Proof.
  destruct w. unfold Part000.hide_entity. unfold_m. world_simpl.
  destruct (_ !! r) as [el|] eqn:Hel.
  - rewrite (alter_insert_lookup _ _ _ _ Hel).
    destruct (e_material el) as [[url bust|sel]|].
    + eexists. split; reflexivity.
    + unfold Part000.reset_selected.
      destruct sel as [|c i]; [eexists; split; reflexivity|].
      destruct (Ascii.eqb_spec c "#"%char) as [->|Hc].
      * destruct (bool_decide (i ∈ page_ids)).
        -- eexists. split; reflexivity.
        -- unfold_m. world_simpl. eexists. split; [reflexivity|].
           apply reset_first_absorbed.
      * eexists. split; [|reflexivity].
        destruct c as [[] [] [] [] [] [] [] []]; try reflexivity. contradiction Hc. reflexivity.
    + eexists. split; reflexivity.
  - rewrite (alter_lookup_None _ _ _ Hel). eexists. split; reflexivity.
Qed.

Lemma hide_entity_total r w : Part000.hide_entity r w = (Ok tt, hide_step w r).
Proof.
  unfold hide_step, exec. destruct (hide_entity_eq r w) as (vs & -> & _). reflexivity.
Qed.

Lemma hide_loop rs : ∀ w,
  let w' := foldl hide_step w rs in
  store w' = hide_store rs (store w)
  ∧ Part000.reset_video <$> assets w' = Part000.reset_video <$> assets w
  ∧ spawnedEntities w' = spawnedEntities w
  ∧ anchorChildren w' = anchorChildren w
  ∧ statusLog w' = statusLog w
  ∧ igHref w' = igHref w
  ∧ videoBtnDisplay w' = videoBtnDisplay w
  ∧ startBtnDisabled w' = startBtnDisabled w
  ∧ stopBtnDisabled w' = stopBtnDisabled w
  ∧ sceneShown w' = sceneShown w
  ∧ mindarSystem w' = mindarSystem w
  ∧ anchorVisible w' = anchorVisible w
  ∧ targetListeners w' = targetListeners w
  ∧ clickListeners w' = clickListeners w.
Proof.
  induction rs as [|r rs IH]; intros w; cbn [foldl].
  - cbn zeta. repeat split; reflexivity.
  - cbn zeta. unfold hide_store. cbn [foldl]. fold (hide_store rs).
    destruct (hide_entity_eq r w) as (vs & Heq & Hvs).
    assert (hide_step w r
            = set_assets vs (set_store (alter (set_e_visible false) r (store w)) w)) as ->.
    { unfold hide_step, exec. rewrite Heq. reflexivity. }
    set (w1 := set_assets _ _).
    destruct (IH w1) as (Hs & Has & Hrest).
    rewrite Hs, Has. subst w1. world_simpl.
    repeat split; try reflexivity; try assumption; try apply Hrest.
Qed.

(** [hideAllOverlaysAndReset] returns; it hides the anchor and every spawned
    overlay, resets every video asset, and touches nothing else. *)
Lemma hideAll_total w : Part000.hideAllOverlaysAndReset w = (Ok tt, hide_world w).
Proof.
  unfold hide_world, exec, Part000.hideAllOverlaysAndReset, Part000.setAnchorVisible.
  unfold_m. world_simpl.
  rewrite (for_of_total _ hide_step hide_entity_total). reflexivity.
Qed.

Lemma hide_world_fields w :
  let w' := hide_world w in
  anchorVisible w' = false
  ∧ store w' = hide_store (spawnedEntities w) (store w)
  ∧ assets w' = Part000.reset_video <$> assets w
  ∧ spawnedEntities w' = spawnedEntities w
  ∧ anchorChildren w' = anchorChildren w
  ∧ statusLog w' = statusLog w
  ∧ igHref w' = igHref w
  ∧ videoBtnDisplay w' = videoBtnDisplay w
  ∧ startBtnDisabled w' = startBtnDisabled w
  ∧ stopBtnDisabled w' = stopBtnDisabled w
  ∧ sceneShown w' = sceneShown w
  ∧ mindarSystem w' = mindarSystem w
  ∧ targetListeners w' = targetListeners w
  ∧ clickListeners w' = clickListeners w.
Proof.
  unfold hide_world, exec, Part000.hideAllOverlaysAndReset, Part000.setAnchorVisible.
  unfold_m. world_simpl.
  rewrite (for_of_total _ hide_step hide_entity_total). world_simpl.
  destruct (hide_loop (spawnedEntities w) (set_anchorVisible false w))
    as (Hs & Has & Hsp & Han & Hst & Hig & Hvb & Hsb & Hpb & Hsc & Hm & Hav & Htl & Hcl).
  world_simpl. cbn zeta. repeat split; assumption.
Qed.

(** Altering every address of a fresh block alters the block. *)
Lemma foldl_alter_seq {A : Type} (f : A → A) (new : list A) : ∀ old,
  foldl (λ s r, alter f r s) (old ++ new) (seq (length old) (length new))
  = old ++ (f <$> new).
Proof.
  induction new as [|x new IH]; intros old; cbn [length seq foldl fmap list_fmap].
  - reflexivity.
  - replace (alter f (length old) (old ++ x :: new)) with ((old ++ [f x]) ++ new).
    + replace (S (length old)) with (length (old ++ [f x])).
      * rewrite IH, <- app_assoc. reflexivity.
      * rewrite length_app. cbn [length]. lia.
    + rewrite <- app_assoc. cbn [app].
      rewrite <- (Nat.add_0_r (length old)).
      rewrite alter_app_r. reflexivity.
Qed.

(** ** [main] of the later build *)

Lemma main_returns w c b :
  chosen_card w = Some c →
  some_type_video (take MAX_LAYERS (raw_layers c)) = Ok b →
  Part000.main w = (Ok tt, main_world c b w).
Proof.
  intros Hc Hb. unfold Part000.main. unfold_m.
  rewrite (resolve_card_returns w c b Hc Hb).
  unfold clearAnchor, setStatus, Part000.showScene, Part000.setAnchorVisible. unfold_m.
  rewrite (for_of_total _ build_world build_layer_total).
  rewrite hideAll_total. reflexivity.
Qed.

(** When the card cannot be resolved, [main] throws what [resolve_card]
    throws and stops there. *)
Lemma main_throws w e w' :
  resolve_card w = (Throw e, w') → Part000.main w = (Throw e, w').
Proof. intros H. unfold Part000.main. unfold_m. rewrite H. reflexivity. Qed.

Lemma main_world_fields c b w :
  let w1 := main_world c b w in
  let vl := valid_layers (take MAX_LAYERS (raw_layers c)) in
  spawnedEntities w1 = seq (length (store w)) (length vl)
  ∧ anchorChildren w1 = seq (length (store w)) (length vl)
  ∧ store w1 = store w ++ (set_e_visible false <$> (overlay_of (dateNow w) <$> vl))
  ∧ assets w1
    = Part000.reset_video <$> foldl ensure_assets (assets w) (video_sources vl)
  ∧ statusLog w1 = StReady :: resolve_log w
  ∧ videoBtnDisplay w1 = Some (if b then InlineBlock else DisplayNone)
  ∧ anchorVisible w1 = false
  ∧ sceneShown w1 = false
  ∧ targetListeners w1 = true
  ∧ clickListeners w1 = true
  ∧ mindarSystem w1 = mindarSystem w
  ∧ startBtnDisabled w1 = startBtnDisabled w
  ∧ stopBtnDisabled w1 = stopBtnDisabled w.
Proof.
  cbn zeta. unfold main_world. cbn zeta. world_simpl.
  set (w1 := built_world c b w).
  set (w2 := set_sceneShown false _).
  destruct (hide_world_fields w2)
    as (Hav & Hs & Has & Hsp & Han & Hst & Hig & Hvb & Hsb & Hpb & Hsc & Hm & Htl & Hcl).
  cbn zeta in *. rewrite Hs, Has, Hsp, Han, Hst, Hvb, Hm, Htl, Hsb, Hpb, Hsc.
  subst w2. world_simpl.
  unfold built_world in w1.
  destruct (build_loop (take MAX_LAYERS (raw_layers c))
              (set_spawnedEntities []
                 (set_anchorChildren []
                    (set_targetListeners true (resolved_world c b w)))))
    as (Bs & Bsp & Ban & Bas & Bst & Big & Bvb & Bsb & Bpb & Bsc & Bm & Bav & Btl & Bcl).
  cbn zeta in *. fold w1 in Bs, Bsp, Ban, Bas, Bst, Big, Bvb, Bsb, Bpb, Bsc, Bm, Bav, Btl, Bcl.
  unfold resolved_world in *. world_simpl.
  rewrite Bs, Bsp, Ban, Bas, Bst, Bvb, Bm, Btl, Bsb, Bpb. cbn [app].
  unfold hide_store.
  pose proof (foldl_alter_seq (set_e_visible false)
                (overlay_of (dateNow w) <$> valid_layers (take MAX_LAYERS (raw_layers c)))
                (store w)) as Hfold.
  rewrite length_fmap in Hfold. rewrite Hfold.
  repeat split; reflexivity.
Qed.

(** ** Counting overlays *)

Lemma valid_has l : valid_spec l = true → has_type_and_src l = true.
Proof.
  destruct l as [l|]; [|discriminate]. intros H.
  apply valid_spec_Some in H as (t & Ht & _ & Hs).
  unfold has_type_and_src. rewrite Ht.
  destruct (layer_src l); [|discriminate]. reflexivity.
Qed.

Lemma valid_layers_le_present ls :
  (length (valid_layers ls) ≤ length (List.filter has_type_and_src ls))%nat.
Proof.
  induction ls as [|x ls IH]; [reflexivity|].
  destruct (valid_spec x) eqn:Hx.
  - destruct x as [l|]; [|discriminate]. rewrite (valid_layers_cons_valid l ls Hx).
    cbn [List.filter]. rewrite (valid_has _ Hx). cbn [length]. lia.
  - rewrite (valid_layers_cons_invalid x ls Hx). cbn [List.filter].
    destruct (has_type_and_src x); cbn [length]; lia.
Qed.

Lemma valid_layers_le_length ls : (length (valid_layers ls) ≤ length ls)%nat.
Proof.
  induction ls as [|x ls IH]; [reflexivity|].
  destruct (valid_spec x) eqn:Hx.
  - destruct x as [l|]; [|discriminate]. rewrite (valid_layers_cons_valid l ls Hx).
    cbn [length]. lia.
  - rewrite (valid_layers_cons_invalid x ls Hx). cbn [length]. lia.
Qed.

Lemma filter_take_le {A : Type} (p : A → bool) (n : nat) (l : list A) :
  (length (List.filter p (take n l)) ≤ length (List.filter p l))%nat.
Proof.
  rewrite <- (take_drop n l) at 2. rewrite List.filter_app, length_app. lia.
Qed.

Lemma clamped_count ls :
  (length (valid_layers (take MAX_LAYERS ls))
   ≤ min MAX_LAYERS (length (List.filter has_type_and_src ls)))%nat.
Proof.
  apply Nat.min_glb.
  - etransitivity; [apply valid_layers_le_length|]. rewrite length_take. lia.
  - etransitivity; [apply valid_layers_le_present|]. apply filter_take_le.
Qed.

(** ** Loading the page *)

Lemma page_load_returns w c b :
  chosen_card w = Some c →
  some_type_video (take MAX_LAYERS (raw_layers c)) = Ok b →
  page_load w = (Ok tt, main_world c b (script_loaded w)).
Proof.
  intros Hc Hb. unfold page_load, Part000.onDOMContentLoaded. unfold_m.
  rewrite (main_returns (script_loaded w) c b Hc Hb). reflexivity.
Qed.

Lemma page_load_fails w e w' :
  resolve_card (script_loaded w) = (Throw e, w') →
  page_load w = (Ok tt, set_statusLog (StError e :: statusLog w') w').
Proof.
  intros H. unfold page_load, Part000.onDOMContentLoaded. unfold_m.
  rewrite (main_throws _ _ _ H). reflexivity.
Qed.

(** The two outcomes of loading the page. *)
Lemma page_load_cases w :
  (∃ c b, chosen_card w = Some c
          ∧ some_type_video (take MAX_LAYERS (raw_layers c)) = Ok b
          ∧ page_load w = (Ok tt, main_world c b (script_loaded w)))
  ∨ (∃ e w', resolve_card (script_loaded w) = (Throw e, w')
             ∧ page_load w = (Ok tt, set_statusLog (StError e :: statusLog w') w')).
Proof.
  destruct (resolve_card (script_loaded w)) as [[ls|e] w'] eqn:H.
  - left. apply resolve_card_inv in H as (c & b & Hc & Hb & _).
    exists c, b. split; [exact Hc|]. split; [exact Hb|].
    apply page_load_returns; assumption.
  - right. exists e, w'. split; [reflexivity|]. apply page_load_fails. exact H.
Qed.

Lemma some_type_video_objects ls :
  Forall is_Some ls → ∃ b, some_type_video ls = Ok b.
Proof.
  induction 1 as [|x ls [l ->] _ IH]; cbn [some_type_video]; [eauto|].
  destruct (field_is _ _); eauto.
Qed.

Lemma build_layer_skips l w :
  valid_spec l = false → Part000.build_layer l w = (Ok tt, w).
Proof.
  intros H. rewrite build_layer_total, (build_world_invalid l w H). reflexivity.
Qed.

(** C1: the page never holds more overlays than [min(5, number of layers
    that have both type and src)], whatever the configuration and whether or
    not loading succeeds; a layer object that misses [type] or [src] takes
    its turn of the loop without an overlay, an asset or an error; and a
    card whose first five entries are all objects loads without an error,
    whichever fields they miss. *)
Theorem C1_overlay_count_bounded (w : World) :
  (length (spawnedEntities (exec page_load w))
   ≤ min MAX_LAYERS (length (List.filter has_type_and_src (raw_entries w))))%nat
  ∧ (∀ (l : LayerSpec) (w' : World),
       has_type_and_src (Some l) = false →
       Part000.build_layer (Some l) w' = (Ok tt, w'))
  ∧ (∀ c : PropertyValue,
       chosen_card w = Some c →
       Forall is_Some (take MAX_LAYERS (raw_layers c)) →
       Part000.main (script_loaded w) = (Ok tt, exec page_load w)).
Proof.
  split; [|split].
  - unfold exec.
    destruct (page_load_cases w) as [(c & b & Hc & Hb & ->)|(e & w' & Hr & ->)];
      cbn [snd].
    + destruct (main_world_fields c b (script_loaded w)) as (-> & _).
      rewrite length_seq. unfold raw_entries. rewrite Hc. apply clamped_count.
    + world_simpl.
      destruct (resolve_card_frame (script_loaded w)) as (Hsp & _).
      unfold exec in Hsp. rewrite Hr in Hsp. cbn [snd] in Hsp. rewrite Hsp.
      cbn. lia.
  - intros l w' H. apply build_layer_skips.
    destruct (valid_spec (Some l)) eqn:Hv; [|reflexivity].
    apply valid_has in Hv. congruence.
  - intros c Hc Hobj.
    destruct (some_type_video_objects _ Hobj) as (b & Hb).
    unfold exec. rewrite (page_load_returns w c b Hc Hb). cbn [snd].
    apply main_returns; assumption.
Qed.

(** ** The overlays the loop creates *)

Lemma overlays_at_fresh (old new : list Entity) (w : World) :
  store w = old ++ new →
  overlays_at (seq (length old) (length new)) w = Some <$> new.
Proof.
  intros Hs. unfold overlays_at. rewrite Hs. clear Hs. revert old.
  induction new as [|x new IH]; intros old; cbn [length seq fmap list_fmap].
  - reflexivity.
  - f_equal.
    + rewrite lookup_app_r by lia. rewrite Nat.sub_diag. reflexivity.
    + specialize (IH (old ++ [x])). rewrite length_app in IH. cbn [length] in IH.
      rewrite Nat.add_1_r, <- app_assoc in IH. exact IH.
Qed.

Lemma take_app_exact {A : Type} (first rest : list A) (n : nat) :
  length first = n → take n (first ++ rest) = first.
Proof. intros <-. rewrite take_app_length. reflexivity. Qed.

(** C9: the clamp comes first.  When the page loads a card (the card is
    found and the video test meets no null entry), the load returns and the
    overlays created are exactly those of the valid specs (a type of the four
    and a non-empty src) among the first five raw entries, in order, each
    hidden; nothing else enters the store, the anchor or the spawned list; so
    the entries from the sixth on never matter, however few of the first five
    are valid. *)
Theorem C9_clamp_before_filter (w : World) (c : PropertyValue) (b : bool) :
  chosen_card w = Some c →
  some_type_video (take MAX_LAYERS (raw_layers c)) = Ok b →
  let w1 := exec page_load w in
  let created :=
    (λ l, set_e_visible false (overlay_of (dateNow w) l))
      <$> valid_layers (take MAX_LAYERS (raw_layers c)) in
  Part000.main (script_loaded w) = (Ok tt, w1)
  ∧ store w1 = store w ++ created
  ∧ spawned_overlays w1 = Some <$> created
  ∧ overlays_at (anchorChildren w1) w1 = Some <$> created
  ∧ (∀ first rest : list (option LayerSpec),
       raw_layers c = first ++ rest →
       length first = MAX_LAYERS →
       valid_layers (take MAX_LAYERS (raw_layers c)) = valid_layers first).
Proof.
  intros Hc Hb. cbn zeta. unfold exec.
  rewrite (page_load_returns w c b Hc Hb). cbn [snd].
  destruct (main_world_fields c b (script_loaded w)) as (Hsp & Han & Hs & _).
  cbn zeta in Hsp, Han, Hs. change (store (script_loaded w)) with (store w) in *.
  change (dateNow (script_loaded w)) with (dateNow w) in *.
  rewrite <- list_fmap_compose in Hs.
  split; [apply main_returns; assumption|]. split; [exact Hs|].
  assert (∀ rs, rs = seq (length (store w))
                       (length (valid_layers (take MAX_LAYERS (raw_layers c)))) →
                overlays_at rs (main_world c b (script_loaded w))
                = Some <$> ((λ l, set_e_visible false (overlay_of (dateNow w) l))
                              <$> valid_layers (take MAX_LAYERS (raw_layers c)))) as Hat.
  { intros rs ->.
    rewrite <- (length_fmap (λ l, set_e_visible false (overlay_of (dateNow w) l))).
    apply overlays_at_fresh. exact Hs. }
  split; [apply Hat, Hsp|]. split; [apply Hat, Han|].
  intros first rest Hraw Hlen. rewrite Hraw, (take_app_exact first rest _ Hlen).
  reflexivity.
Qed.





(** The first build has no branch for [gif]. *)
Lemma mainjs_gif_skipped (l : LayerSpec) (w : World) :
  layer_type l = Some "gif" → MainJs.build_layer (Some l) w = (Ok tt, w).
Proof.
  intros Ht. unfold MainJs.build_layer. rewrite Ht.
  destruct (_ || _); reflexivity.
Qed.



(** ** The video control *)

Lemma field_is_true f lit : field_is f lit = true ↔ f = Some lit.
Proof.
  destruct f as [s|]; cbn [field_is].
  - rewrite strict_eq_true. split; congruence.
  - split; discriminate.
Qed.

Lemma some_type_video_true ls :
  some_type_video ls = Ok true → ∃ l, Some l ∈ ls ∧ layer_type l = Some "video".
Proof.
  induction ls as [|[l|] ls IH]; cbn [some_type_video]; try discriminate.
  destruct (field_is (layer_type l) "video") eqn:Hl.
  - intros _. exists l. split; [left|]. apply field_is_true, Hl.
  - intros H. destruct (IH H) as (l' & Hin & Ht). exists l'. split; [right; exact Hin|exact Ht].
Qed.

Lemma some_type_video_false ls :
  some_type_video ls = Ok false → ∀ l, Some l ∈ ls → layer_type l ≠ Some "video".
Proof.
  induction ls as [|[l|] ls IH]; cbn [some_type_video]; try discriminate.
  - intros _ l Hin. inversion Hin.
  - destruct (field_is (layer_type l) "video") eqn:Hl; [discriminate|].
    intros H l' Hin. apply elem_of_cons in Hin as [Heq|Hin].
    + injection Heq as ->. intros Ht. apply field_is_true in Ht. congruence.
    + apply IH; assumption.
Qed.

(** C10: the video control follows [type === "video"] over the clamped raw
    entries and nothing else.  When the page loads a card, the control is
    shown exactly when one of the first five entries has type video, with or
    without a [src]; and a video layer with no (or an empty) [src] takes its
    turn of the loop without an overlay and without an asset. *)
Theorem C10_video_control_ignores_src (w : World) (c : PropertyValue) (b : bool) :
  chosen_card w = Some c →
  some_type_video (take MAX_LAYERS (raw_layers c)) = Ok b →
  videoBtnDisplay (exec page_load w) = Some (if b then InlineBlock else DisplayNone)
  ∧ (b = true ↔
     ∃ l, Some l ∈ take MAX_LAYERS (raw_layers c) ∧ layer_type l = Some "video")
  ∧ (∀ (l : LayerSpec) (w' : World),
       layer_type l = Some "video" →
       truthy_field (layer_src l) = false →
       Part000.build_layer (Some l) w' = (Ok tt, w')).
Proof.
  intros Hc Hb. split; [|split].
  - unfold exec. rewrite (page_load_returns w c b Hc Hb). cbn [snd].
    apply (main_world_fields c b (script_loaded w)).
  - split.
    + intros ->. apply some_type_video_true. exact Hb.
    + intros (l & Hin & Ht). destruct b; [reflexivity|].
      exfalso. exact (some_type_video_false _ Hb l Hin Ht).
  - intros l w' Ht Hs. apply build_layer_skips.
    unfold valid_spec. rewrite Hs. apply andb_false_r.
Qed.

(** ** The asset registry *)





(** The overlays and the assets of a page that has loaded a card. *)
Lemma loaded_overlays (w : World) (c : PropertyValue) (b : bool) :
  chosen_card w = Some c →
  some_type_video (take MAX_LAYERS (raw_layers c)) = Ok b →
  spawned_overlays (exec page_load w)
  = Some <$> ((λ l, set_e_visible false (overlay_of (dateNow w) l))
                <$> valid_layers (take MAX_LAYERS (raw_layers c)))
  ∧ assets (exec page_load w)
    = Part000.reset_video
        <$> foldl ensure_assets (assets w)
              (video_sources (valid_layers (take MAX_LAYERS (raw_layers c)))).
Proof.
  intros Hc Hb. unfold exec. rewrite (page_load_returns w c b Hc Hb). cbn [snd].
  destruct (main_world_fields c b (script_loaded w)) as (Hsp & _ & Hs & Has & _).
  cbn zeta in Hsp, Hs, Has. change (store (script_loaded w)) with (store w) in *.
  change (dateNow (script_loaded w)) with (dateNow w) in *.
  change (assets (script_loaded w)) with (assets w) in *.
  rewrite <- list_fmap_compose in Hs. split; [|exact Has].
  unfold spawned_overlays. rewrite Hsp.
  rewrite <- (length_fmap (λ l, set_e_visible false (overlay_of (dateNow w) l))).
  apply overlays_at_fresh. exact Hs.
Qed.


(** ** Showing and hiding through the spawned list *)

Lemma foldl_alter_length {A : Type} (f : A → A) (rs : list nat) : ∀ s : list A,
  length (foldl (λ s r, alter f r s) s rs) = length s.
Proof.
  induction rs as [|r rs IH]; intros s; cbn [foldl]; [reflexivity|].
  rewrite IH. apply length_alter.
Qed.

(** With an idempotent [f], the addresses in the list hold [f e] and the
    others hold what they held. *)
Lemma foldl_alter_lookup {A : Type} (f : A → A) (rs : list nat) :
  (∀ x, f (f x) = f x) →
  ∀ (s : list A) (i : nat),
    foldl (λ s r, alter f r s) s rs !! i
    = if bool_decide (i ∈ rs) then f <$> s !! i else s !! i.
Proof.
  intros Hf. induction rs as [|r rs IH]; intros s i; cbn [foldl].
  - rewrite bool_decide_eq_false_2; [reflexivity|]. apply not_elem_of_nil.
  - rewrite IH. destruct (decide (i = r)) as [->|Hne].
    + rewrite list_lookup_alter_eq.
      rewrite (bool_decide_eq_true_2 (r ∈ r :: rs)) by left.
      destruct (s !! r) as [x|]; cbn; [rewrite Hf|]; destruct (bool_decide _); reflexivity.
    + rewrite list_lookup_alter_ne by congruence.
      destruct (bool_decide (i ∈ rs)) eqn:Hin.
      * apply bool_decide_eq_true in Hin.
        rewrite bool_decide_eq_true_2; [reflexivity|]. right. exact Hin.
      * apply bool_decide_eq_false in Hin.
        rewrite bool_decide_eq_false_2; [reflexivity|].
        intros [?|?]%elem_of_cons; contradiction.
Qed.

Lemma altered_overlays (b : bool) (rs : list nat) (s : list Entity) (w' : World) :
  Forall (λ r, r < length s) rs →
  store w' = foldl (λ s r, alter (set_e_visible b) r s) s rs →
  all_overlays (λ e, e_visible e = b) rs w'.
Proof.
  intros Hvalid Hs. unfold all_overlays. rewrite Forall_forall in *.
  intros r Hr. rewrite Hs, foldl_alter_lookup by reflexivity.
  rewrite bool_decide_eq_true_2 by exact Hr.
  destruct (lookup_lt_is_Some_2 s r (Hvalid r Hr)) as [e He].
  rewrite He. exists (set_e_visible b e). split; reflexivity.
Qed.

Lemma reset_video_reset vs : Forall video_reset (Part000.reset_video <$> vs).
Proof.
  apply Forall_fmap, Forall_true. intros v. repeat split.
Qed.

(** After [hideAllOverlaysAndReset] everything is hidden and reset. *)
Lemma hide_world_hidden w :
  spawned_valid w → all_hidden_and_reset (hide_world w).
Proof.
  intros Hvalid.
  destruct (hide_world_fields w) as (Hav & Hs & Has & Hsp & _). cbn zeta in *.
  unfold all_hidden_and_reset. rewrite Hav, Has, Hsp.
  split; [reflexivity|]. split; [|apply reset_video_reset].
  exact (altered_overlays false _ _ _ Hvalid Hs).
Qed.


(** ** The handlers of the later build *)

Lemma show_loop rs : ∀ w,
  for_of rs Part000.show_entity w
  = (Ok tt, set_store (show_store rs (store w)) w).
Proof.
  induction rs as [|r rs IH]; intros w; cbn [for_of].
  - destruct w. reflexivity.
  - unfold_m. unfold Part000.show_entity at 1. unfold_m. rewrite IH. reflexivity.
Qed.

Lemma onTargetFound_eq w :
  Part000.onTargetFound w
  = (Ok tt,
     set_store (show_store (spawnedEntities w) (store w))
       (set_anchorVisible true (set_statusLog (StTargetFound :: statusLog w) w))).
Proof.
  unfold Part000.onTargetFound, setStatus, Part000.setAnchorVisible. unfold_m.
  world_simpl. rewrite show_loop. reflexivity.
Qed.

Lemma onTargetLost_eq w :
  Part000.onTargetLost w
  = (Ok tt, hide_world (set_statusLog (StTargetLost :: statusLog w) w)).
Proof.
  unfold Part000.onTargetLost, setStatus. unfold_m. rewrite hideAll_total. reflexivity.
Qed.

Lemma startBtn_click_not_ready o w :
  mindarSystem w = None →
  Part000.startBtn_click o w
  = (Ok tt, set_statusLog (StNotReady :: StStarting :: statusLog w) w).
Proof.
  intros H. unfold Part000.startBtn_click, setStatus. unfold_m. world_simpl.
  rewrite H. reflexivity.
Qed.

Lemma startBtn_click_resolves w :
  is_Some (mindarSystem w) →
  let w1 := hide_world
              (set_sceneShown true (set_statusLog (StStarting :: statusLog w) w)) in
  Part000.startBtn_click Resolves w
  = (Ok tt,
     set_statusLog (StStarted :: statusLog w1)
       (set_stopBtnDisabled false
          (set_startBtnDisabled true
             (set_mindarSystem (Some {| running := true |}) w1)))).
Proof.
  intros [t H]. cbn zeta.
  unfold Part000.startBtn_click, setStatus, Part000.showScene, Part000.mindar_start.
  unfold_m. world_simpl. rewrite H, hideAll_total. reflexivity.
Qed.

Lemma startBtn_click_rejects w :
  is_Some (mindarSystem w) →
  let w1 := hide_world
              (set_sceneShown true (set_statusLog (StStarting :: statusLog w) w)) in
  Part000.startBtn_click Rejects w
  = (Ok tt, set_statusLog (StStartFailed :: statusLog w1) w1).
Proof.
  intros [t H]. cbn zeta.
  unfold Part000.startBtn_click, setStatus, Part000.showScene, Part000.mindar_start.
  unfold_m. world_simpl. rewrite H, hideAll_total. reflexivity.
Qed.

Lemma stopBtn_click_not_ready o w :
  mindarSystem w = None → Part000.stopBtn_click o w = (Ok tt, w).
Proof.
  intros H. unfold Part000.stopBtn_click. unfold_m. rewrite H. reflexivity.
Qed.

Lemma stopBtn_click_resolves w :
  is_Some (mindarSystem w) →
  let w1 := set_anchorVisible false (hide_world w) in
  Part000.stopBtn_click Resolves w
  = (Ok tt,
     set_statusLog (StStopped :: statusLog w1)
       (set_stopBtnDisabled true
          (set_startBtnDisabled false
             (set_sceneShown false
                (set_mindarSystem (Some {| running := false |}) w1))))).
Proof.
  intros [t H]. cbn zeta.
  unfold Part000.stopBtn_click, setStatus, Part000.showScene, Part000.mindar_stop,
    Part000.setAnchorVisible.
  unfold_m. rewrite H, hideAll_total. reflexivity.
Qed.

Lemma stopBtn_click_rejects w :
  is_Some (mindarSystem w) →
  Part000.stopBtn_click Rejects w
  = (Throw TrackerRejected, set_anchorVisible false (hide_world w)).
Proof.
  intros [t H].
  unfold Part000.stopBtn_click, setStatus, Part000.showScene, Part000.mindar_stop,
    Part000.setAnchorVisible.
  unfold_m. rewrite H, hideAll_total. reflexivity.
Qed.

(** ** Sessions *)

Lemma same_session_refl w : same_session w w.
Proof. repeat split. Qed.

Lemma same_session_trans w1 w2 w3 :
  same_session w1 w2 → same_session w2 w3 → same_session w1 w3.
Proof.
  unfold same_session. intros (-> & -> & -> & -> & ->) (-> & -> & -> & -> & ->).
  repeat split.
Qed.

Lemma children_altered (b : bool) (rs : list nat) : ∀ s : list Entity,
  e_children <$> foldl (λ s r, alter (set_e_visible b) r s) s rs = e_children <$> s.
Proof.
  induction rs as [|r rs IH]; intros s; cbn [foldl]; [reflexivity|].
  rewrite IH. apply list_eq. intros i. rewrite !list_lookup_fmap.
  destruct (decide (i = r)) as [->|Hne].
  - rewrite list_lookup_alter_eq. destruct (s !! r); reflexivity.
  - rewrite list_lookup_alter_ne by congruence. reflexivity.
Qed.

Lemma ids_reset (vs : list Video) :
  v_id <$> (Part000.reset_video <$> vs) = v_id <$> vs.
Proof. rewrite <- list_fmap_compose. reflexivity. Qed.

Lemma ids_played plays (vs : list Video) :
  v_id <$> (play_video plays <$> vs) = v_id <$> vs.
Proof.
  rewrite <- list_fmap_compose. apply list_fmap_ext. intros _ v _.
  unfold play_video. cbn. destruct (plays (v_id v)); reflexivity.
Qed.

Lemma hide_world_same_session w : same_session w (hide_world w).
Proof.
  destruct (hide_world_fields w)
    as (_ & Hs & Has & Hsp & _ & _ & _ & _ & _ & _ & _ & _ & Htl & Hcl).
  cbn zeta in *. unfold same_session. rewrite Hs, Has, Hsp, Htl, Hcl.
  unfold hide_store. rewrite children_altered, ids_reset. repeat split.
Qed.

(** A world built from [hide_world] by setters of other fields. *)
Lemma same_session_after_hide w w0 w' :
  same_session w w0 →
  spawnedEntities w' = spawnedEntities (hide_world w0) →
  store w' = store (hide_world w0) →
  assets w' = assets (hide_world w0) →
  targetListeners w' = targetListeners (hide_world w0) →
  clickListeners w' = clickListeners (hide_world w0) →
  same_session w w'.
Proof.
  intros H0 H1 H2 H3 H4 H5.
  apply (same_session_trans _ w0); [exact H0|].
  apply (same_session_trans _ (hide_world w0)); [apply hide_world_same_session|].
  unfold same_session. rewrite H1, H2, H3, H4, H5. repeat split.
Qed.

Lemma handler_same_session (flag : World → bool) (h : M unit) (w : World) :
  same_session w (exec h w) → same_session w (exec (when_listening flag h) w).
Proof.
  intros H. unfold exec, when_listening in *. unfold_m.
  destruct (flag w); [exact H|apply same_session_refl].
Qed.

Lemma startBtn_click_same_session o w :
  same_session w (exec (Part000.startBtn_click o) w).
Proof.
  unfold exec. destruct (mindarSystem w) as [t|] eqn:Hm.
  - assert (is_Some (mindarSystem w)) as Hsome by (rewrite Hm; eauto).
    destruct o.
    + rewrite (startBtn_click_resolves w Hsome). cbn [snd].
      eapply same_session_after_hide; [|reflexivity..]. repeat split.
    + rewrite (startBtn_click_rejects w Hsome). cbn [snd].
      eapply same_session_after_hide; [|reflexivity..]. repeat split.
  - rewrite (startBtn_click_not_ready o w Hm). repeat split.
Qed.

Lemma stopBtn_click_same_session o w :
  same_session w (exec (Part000.stopBtn_click o) w).
Proof.
  unfold exec. destruct (mindarSystem w) as [t|] eqn:Hm.
  - assert (is_Some (mindarSystem w)) as Hsome by (rewrite Hm; eauto).
    destruct o.
    + rewrite (stopBtn_click_resolves w Hsome). cbn [snd].
      eapply same_session_after_hide; [apply same_session_refl|reflexivity..].
    + rewrite (stopBtn_click_rejects w Hsome). cbn [snd].
      eapply same_session_after_hide; [apply same_session_refl|reflexivity..].
  - rewrite (stopBtn_click_not_ready o w Hm). apply same_session_refl.
Qed.

Lemma dispatch_same_session ev w : same_session w (exec (dispatch ev) w).
Proof.
  destruct ev as [|o|o|plays| |]; cbn [dispatch].
  - unfold exec, engine_ready. unfold_m. cbn [snd].
    destruct (mindarSystem w); repeat split.
  - apply handler_same_session, startBtn_click_same_session.
  - apply handler_same_session, stopBtn_click_same_session.
  - apply handler_same_session. unfold exec, videoBtn_click, setStatus. unfold_m.
    cbn [snd]. unfold same_session. world_simpl. rewrite ids_played. repeat split.
  - apply handler_same_session. unfold exec. rewrite onTargetFound_eq. cbn [snd].
    unfold same_session. world_simpl. unfold show_store. rewrite children_altered.
    repeat split.
  - apply handler_same_session. unfold exec. rewrite onTargetLost_eq. cbn [snd].
    eapply same_session_after_hide; [|reflexivity..]. repeat split.
Qed.

Lemma run_app evs1 evs2 w : run (evs1 ++ evs2) w = run evs2 (run evs1 w).
Proof. unfold run. apply foldl_app. Qed.

Lemma run_same_session evs : ∀ w, same_session w (run evs w).
Proof.
  induction evs as [|ev evs IH]; intros w; cbn [run foldl].
  - apply same_session_refl.
  - eapply same_session_trans; [apply dispatch_same_session|apply IH].
Qed.

Lemma same_session_valid w w' : same_session w w' → spawned_valid w → spawned_valid w'.
Proof.
  unfold spawned_valid. intros (-> & Hs & _) H.
  apply (f_equal length) in Hs. rewrite !length_fmap in Hs. rewrite Hs. exact H.
Qed.


(** Whatever the configuration, the page ends its load with a valid spawned
    list, and every later event keeps it valid. *)
Lemma page_load_valid w : spawned_valid (exec page_load w).
Proof.
  unfold exec.
  destruct (page_load_cases w) as [(c & b & Hc & Hb & ->)|(e & w' & Hr & ->)]; cbn [snd].
  - destruct (main_world_fields c b (script_loaded w)) as (Hsp & _ & Hs & _).
    cbn zeta in *. unfold spawned_valid. rewrite Hsp, Hs.
    apply Forall_seq. intros j Hj. rewrite length_app, !length_fmap. lia.
  - unfold spawned_valid. world_simpl.
    destruct (resolve_card_frame (script_loaded w)) as (Hsp & _).
    unfold exec in Hsp. rewrite Hr in Hsp. cbn [snd] in Hsp. rewrite Hsp.
    constructor.
Qed.

Lemma session_valid w evs : spawned_valid (run evs (exec page_load w)).
Proof.
  eapply same_session_valid; [apply run_same_session|apply page_load_valid].
Qed.

(** The registry only grows, and it holds every source it was asked for. *)
Lemma ensure_all_keeps srcs : ∀ vs i,
  i ∈ v_id <$> vs → i ∈ v_id <$> foldl ensure_assets vs srcs.
Proof.
  induction srcs as [|s srcs IH]; intros vs i Hi; cbn [foldl]; [exact Hi|].
  apply IH. unfold ensure_assets. destruct (bool_decide _); [exact Hi|].
  rewrite fmap_app. apply elem_of_app. left. exact Hi.
Qed.

Lemma ensure_all_contains srcs : ∀ vs s,
  s ∈ srcs → video_id s ∈ v_id <$> foldl ensure_assets vs srcs.
Proof.
  induction srcs as [|s0 srcs IH]; intros vs s Hs; [inversion Hs|].
  cbn [foldl]. apply elem_of_cons in Hs as [->|Hs]; [|apply IH, Hs].
  apply ensure_all_keeps. unfold ensure_assets.
  destruct (bool_decide _) eqn:Hin; [apply bool_decide_eq_true in Hin; exact Hin|].
  rewrite fmap_app. apply elem_of_app. right. cbn. left.
Qed.





(** ** Stop, target found and target lost *)








(** ** Start *)

Lemma tracking_after_start w :
  is_Some (mindarSystem w) →
  let w' := exec (Part000.startBtn_click Resolves) w in
  trackingState w' = Scanning
  ∧ mindarSystem w' = Some {| running := true |}
  ∧ startBtnDisabled w' = true
  ∧ stopBtnDisabled w' = false
  ∧ sceneShown w' = true
  ∧ statusLog w' = StStarted :: StStarting :: statusLog w.
Proof.
  intros Hsome. cbn zeta. unfold exec.
  rewrite (startBtn_click_resolves w Hsome). cbn [snd]. unfold trackingState. world_simpl.
  destruct (hide_world_fields
              (set_sceneShown true (set_statusLog (StStarting :: statusLog w) w)))
    as (Hav & _ & _ & _ & _ & Hst & _ & _ & _ & _ & Hsc & _).
  cbn zeta in *. rewrite Hav, Hst, Hsc. repeat split.
Qed.

Lemma start_rejected w :
  is_Some (mindarSystem w) →
  let w' := exec (Part000.startBtn_click Rejects) w in
  statusLog w' = StStartFailed :: StStarting :: statusLog w
  ∧ mindarSystem w' = mindarSystem w
  ∧ startBtnDisabled w' = startBtnDisabled w
  ∧ stopBtnDisabled w' = stopBtnDisabled w.
Proof.
  intros Hsome. cbn zeta. unfold exec.
  rewrite (startBtn_click_rejects w Hsome). cbn [snd]. world_simpl.
  destruct (hide_world_fields
              (set_sceneShown true (set_statusLog (StStarting :: statusLog w) w)))
    as (_ & _ & _ & _ & _ & Hst & _ & _ & Hsb & Hpb & _ & Hm & _).
  cbn zeta in *. rewrite Hst, Hm, Hsb, Hpb. repeat split.
Qed.

Lemma start_never_throws o w : fst (Part000.startBtn_click o w) = Ok tt.
Proof.
  destruct (mindarSystem w) as [t|] eqn:Hm.
  - assert (is_Some (mindarSystem w)) as Hsome by (rewrite Hm; eauto).
    destruct o.
    + rewrite (startBtn_click_resolves w Hsome). reflexivity.
    + rewrite (startBtn_click_rejects w Hsome). reflexivity.
  - rewrite (startBtn_click_not_ready o w Hm). reflexivity.
Qed.

(** The same handler in [src/main.js]. *)
Lemma mainjs_start_not_ready o w :
  mindarSystem w = None →
  MainJs.startBtn_click o w
  = (Ok tt, set_statusLog (StNotReady :: StStarting :: statusLog w) w).
Proof.
  intros H. unfold MainJs.startBtn_click, setStatus. unfold_m. world_simpl.
  rewrite H. reflexivity.
Qed.

Lemma mainjs_start_resolves w :
  is_Some (mindarSystem w) →
  MainJs.startBtn_click Resolves w
  = (Ok tt,
     set_statusLog (StStarted :: StStarting :: statusLog w)
       (set_stopBtnDisabled false
          (set_startBtnDisabled true
             (set_mindarSystem (Some {| running := true |}) w)))).
Proof.
  intros [t H]. unfold MainJs.startBtn_click, setStatus, MainJs.mindar_start.
  unfold_m. world_simpl. rewrite H. destruct w. reflexivity.
Qed.

Lemma mainjs_start_rejects w :
  is_Some (mindarSystem w) →
  MainJs.startBtn_click Rejects w
  = (Ok tt, set_statusLog (StStartFailed :: StStarting :: statusLog w) w).
Proof.
  intros [t H]. unfold MainJs.startBtn_click, setStatus, MainJs.mindar_start.
  unfold_m. world_simpl. rewrite H. destruct w. reflexivity.
Qed.

(** C7: a start while the tracking system is not registered only reports
    "not ready": the controls, the tracker, the scene and the overlays are
    as before, and the state stays Idle.  Once the system is registered a
    new start whose [start()] resolves leaves the tracker running, the start
    control disabled, the stop control enabled: Scanning.  A [start()] that
    rejects is caught: the handler returns, reports "could not start" and
    leaves the controls and the tracker as they were.  Both builds agree. *)
Theorem C7_start_requires_engine (w : World) (o : Outcome) :
  (mindarSystem w = None →
     Part000.startBtn_click o w
     = (Ok tt, set_statusLog (StNotReady :: StStarting :: statusLog w) w)
     ∧ trackingState w = Idle
     ∧ trackingState (exec (Part000.startBtn_click o) w) = Idle
     ∧ let retry :=
         exec (Part000.startBtn_click Resolves)
           (exec engine_ready (exec (Part000.startBtn_click o) w)) in
       trackingState retry = Scanning
       ∧ mindarSystem retry = Some {| running := true |}
       ∧ startBtnDisabled retry = true
       ∧ stopBtnDisabled retry = false
       ∧ head (statusLog retry) = Some StStarted)
  ∧ fst (Part000.startBtn_click o w) = Ok tt
  ∧ (is_Some (mindarSystem w) →
       let w' := exec (Part000.startBtn_click Rejects) w in
       statusLog w' = StStartFailed :: StStarting :: statusLog w
       ∧ mindarSystem w' = mindarSystem w
       ∧ startBtnDisabled w' = startBtnDisabled w
       ∧ stopBtnDisabled w' = stopBtnDisabled w)
  ∧ (mindarSystem w = None →
       MainJs.startBtn_click o w
       = (Ok tt, set_statusLog (StNotReady :: StStarting :: statusLog w) w)
       ∧ MainJs.startBtn_click Resolves
           (exec engine_ready (exec (MainJs.startBtn_click o) w))
         = (Ok tt,
            set_statusLog
              (StStarted :: StStarting :: StNotReady :: StStarting :: statusLog w)
              (set_stopBtnDisabled false
                 (set_startBtnDisabled true
                    (set_mindarSystem (Some {| running := true |}) w)))))
  ∧ (is_Some (mindarSystem w) →
       MainJs.startBtn_click Rejects w
       = (Ok tt, set_statusLog (StStartFailed :: StStarting :: statusLog w) w)).
Proof.
  split; [|split; [|split; [|split]]].
  - intros Hm. split; [apply startBtn_click_not_ready, Hm|].
    split; [unfold trackingState; rewrite Hm; reflexivity|].
    rewrite (exec_of _ _ _ _ (startBtn_click_not_ready o w Hm)).
    split; [unfold trackingState; world_simpl; rewrite Hm; reflexivity|].
    cbn zeta.
    set (w1 := exec engine_ready _).
    assert (is_Some (mindarSystem w1)) as Hsome.
    { subst w1. unfold exec, engine_ready. unfold_m. world_simpl. rewrite Hm.
      world_simpl. eauto. }
    destruct (tracking_after_start w1 Hsome) as (Ht & Hr & Hsb & Hpb & _ & Hst).
    cbn zeta in *. rewrite Hst. repeat split; assumption.
  - apply start_never_throws.
  - apply start_rejected.
  - intros Hm. split; [apply mainjs_start_not_ready, Hm|].
    rewrite (exec_of _ _ _ _ (mainjs_start_not_ready o w Hm)).
    rewrite mainjs_start_resolves.
    + unfold exec, engine_ready. unfold_m. world_simpl. rewrite Hm.
      destruct w. reflexivity.
    + unfold exec, engine_ready. unfold_m. world_simpl. rewrite Hm. world_simpl. eauto.
  - apply mainjs_start_rejects.
Qed.

(** ** Numbers and the [layer-anim] component *)

(** A number above zero is truthy. *)
Lemma positive_truthy (a : float) : (0 <? a)%float = true → truthy_number a = true.
Proof.
  unfold truthy_number, is_nan.
  rewrite FloatAxioms.ltb_spec, !FloatAxioms.eqb_spec.
  replace (Prim2SF 0) with (S754_zero false) by reflexivity.
  destruct (Prim2SF a) as [s|s| |s m e]; cbn; try destruct s; cbn; try discriminate;
    intros _; try reflexivity.
  rewrite Z.compare_refl, Pos.compare_cont_refl. reflexivity.
Qed.

Lemma truthy_nonzero (a : float) : truthy_number a = true → (a =? 0)%float = false.
Proof.
  unfold truthy_number. destruct (a =? 0)%float; [discriminate|reflexivity].
Qed.

Lemma number_or_zero_truthy a :
  truthy_number a = true → number_or_zero (Some a) = a.
Proof. intros H. unfold number_or_zero. rewrite H. reflexivity. Qed.

(** A frame keeps the component, its [baseY], and the [x] and [z] of the
    entity. *)
Lemma tick_keeps Math_sin t dt e :
  let e' := layer_anim_tick Math_sin t dt e in
  e_layer_anim e' = e_layer_anim e ∧ e_baseY e' = e_baseY e
  ∧ (e_position e').1.1 = (e_position e).1.1
  ∧ (e_position e').2 = (e_position e).2.
Proof.
  cbn zeta. unfold layer_anim_tick.
  destruct (e_layer_anim e) as [d|] eqn:Hd; [|rewrite Hd; repeat split].
  destruct (e_baseY e) as [y|] eqn:Hy; [|rewrite Hd, Hy; repeat split].
  destruct (e_position e) as [[x y0] z] eqn:Hp.
  destruct (0 <? la_float d)%float, (negb (la_spinY d =? 0)%float);
    cbn; rewrite ?Hd, ?Hy, ?Hp; repeat split.
Qed.

(** With [spinY] equal to 0, or without the component, a frame leaves the
    rotation as it is. *)
Lemma tick_no_spin Math_sin t dt e :
  (∀ d, e_layer_anim e = Some d → la_spinY d = 0%float) →
  e_rotation_y (layer_anim_tick Math_sin t dt e) = e_rotation_y e.
Proof.
  intros Hspin. unfold layer_anim_tick.
  destruct (e_layer_anim e) as [d|]; [|reflexivity].
  destruct (e_baseY e) as [y|]; [|reflexivity].
  rewrite (Hspin d eq_refl). cbn [negb].
  destruct (e_position e) as [[x y0] z].
  destruct (0 <? la_float d)%float; reflexivity.
Qed.

Lemma ticks_no_spin Math_sin frames : ∀ e,
  (∀ d, e_layer_anim e = Some d → la_spinY d = 0%float) →
  e_rotation_y (ticks Math_sin frames e) = e_rotation_y e.
Proof.
  induction frames as [|[t dt] frames IH]; intros e Hspin; cbn [ticks foldl].
  - reflexivity.
  - fold (ticks Math_sin frames (layer_anim_tick Math_sin t dt e)).
    rewrite IH.
    + apply tick_no_spin, Hspin.
    + intros d Hd. apply Hspin.
      destruct (tick_keeps Math_sin t dt e) as (He & _). cbn zeta in He. congruence.
Qed.

Lemma ticks_keep Math_sin frames : ∀ e,
  let e' := ticks Math_sin frames e in
  e_layer_anim e' = e_layer_anim e ∧ e_baseY e' = e_baseY e
  ∧ (e_position e').1.1 = (e_position e).1.1
  ∧ (e_position e').2 = (e_position e).2.
Proof.
  induction frames as [|[t dt] frames IH]; intros e; cbn [ticks foldl].
  - repeat split.
  - fold (ticks Math_sin frames (layer_anim_tick Math_sin t dt e)).
    destruct (IH (layer_anim_tick Math_sin t dt e)) as (H1 & H2 & H3 & H4).
    destruct (tick_keeps Math_sin t dt e) as (K1 & K2 & K3 & K4).
    cbn zeta in *. repeat split; congruence.
Qed.

(** One frame of a floating entity. *)
Lemma tick_floats Math_sin t dt e d baseY :
  e_layer_anim e = Some d → e_baseY e = Some baseY →
  (0 <? la_float d)%float = true →
  e_position (layer_anim_tick Math_sin t dt e)
  = ((e_position e).1.1,
     (baseY + Math_sin (t / 1000 * 2) * la_float d)%float,
     (e_position e).2).
Proof.
  intros Hd Hy Hpos. unfold layer_anim_tick. rewrite Hd, Hy, Hpos.
  destruct (e_position e) as [[x y0] z].
  destruct (negb (la_spinY d =? 0)%float); reflexivity.
Qed.

(** An entity with a truthy float amplitude carries the component, and its
    [baseY] is the [y] of its position. *)
Lemma init_floating e d :
  e_layer_anim e = Some d →
  let e0 := layer_anim_init e in
  e_layer_anim e0 = Some d ∧ e_baseY e0 = Some (e_position e0).1.2.
Proof.
  intros Hd. cbn zeta. unfold layer_anim_init. rewrite Hd.
  destruct (e_position e) as [[x y] z] eqn:Hp. cbn. rewrite Hp. split; [exact Hd|reflexivity].
Qed.

Lemma floats_from (makeEntityCommon : LayerSpec → Entity) :
  (∀ layer a amp,
     layer_anim layer = Some a → anim_float a = Some amp →
     (0 <? amp)%float = true →
     ∃ d, e_layer_anim (makeEntityCommon layer) = Some d ∧ la_float d = amp) →
  floats makeEntityCommon.
Proof.
  intros Hmake layer a amp Math_sin frames t dt Ha Hf Hpos. cbn zeta.
  destruct (Hmake layer a amp Ha Hf Hpos) as (d & Hd & Hamp).
  destruct (init_floating _ d Hd) as (Hd0 & Hy0). cbn zeta in *.
  set (e0 := layer_anim_init (makeEntityCommon layer)) in *.
  unfold ticks. rewrite foldl_app. cbn [foldl]. fold (ticks Math_sin frames e0).
  destruct (ticks_keep Math_sin frames e0) as (K1 & K2 & K3 & K4). cbn zeta in *.
  rewrite (tick_floats Math_sin t dt _ d (e_position e0).1.2) by congruence.
  rewrite K3, K4, Hamp. reflexivity.
Qed.

Lemma part000_component layer a amp :
  layer_anim layer = Some a → anim_float a = Some amp →
  (0 <? amp)%float = true →
  ∃ d, e_layer_anim (Part000.makeEntityCommon layer) = Some d ∧ la_float d = amp.
Proof.
  intros Ha Hf Hpos. pose proof (positive_truthy amp Hpos) as Ht.
  unfold Part000.makeEntityCommon, anim_member. cbn [e_layer_anim].
  rewrite Ha, Hf, (number_or_zero_truthy amp Ht), Ht. eauto.
Qed.

Lemma mainjs_component layer a amp :
  layer_anim layer = Some a → anim_float a = Some amp →
  (0 <? amp)%float = true →
  ∃ d, e_layer_anim (MainJs.makeEntityCommon layer) = Some d ∧ la_float d = amp.
Proof.
  intros Ha Hf Hpos. pose proof (positive_truthy amp Hpos) as Ht.
  unfold MainJs.makeEntityCommon, anim_member. cbn [e_layer_anim].
  rewrite Ha, Hf, (number_or_zero_truthy amp Ht), Ht. cbn [orb]. eauto.
Qed.

Lemma part000_spin_disabled : spin_disabled Part000.makeEntityCommon.
Proof.
  intros layer Math_sin frames. apply ticks_no_spin. intros d.
  unfold layer_anim_init, Part000.makeEntityCommon. cbn [e_layer_anim e_position].
  destruct (truthy_number _).
  - destruct (default _ _) as [[x y] z]. cbn. intros [= <-]. reflexivity.
  - discriminate.
Qed.

(** A layer that only asks for a quarter turn per second. *)
Example spinning_layer_rotates :
  e_rotation_y
    (ticks (λ x, x) [(1000, 1000)%float]
       (layer_anim_init
          (MainJs.makeEntityCommon
             {| layer_type := Some "image"; layer_src := Some "a.png";
                layer_pos := None; layer_scale := None;
                layer_anim := Some {| anim_float := None; anim_spinY := Some 90%float |} |})))
  = 0x1.921fb54442d18p+0%float.
Proof. vm_compute. reflexivity. Qed.

Lemma mainjs_spins layer a s Math_sin t dt :
  layer_anim layer = Some a → anim_spinY a = Some s → truthy_number s = true →
  e_rotation_y
    (layer_anim_tick Math_sin t dt (layer_anim_init (MainJs.makeEntityCommon layer)))
  = (0 + s * Math_PI / 180 * (dt / 1000))%float.
Proof.
  intros Ha Hs Ht.
  assert (e_layer_anim (MainJs.makeEntityCommon layer)
          = Some {| la_float := number_or_zero (anim_float a); la_spinY := s |}) as Hd.
  { unfold MainJs.makeEntityCommon, anim_member. cbn [e_layer_anim].
    rewrite Ha, Hs, (number_or_zero_truthy s Ht), Ht, orb_true_r. reflexivity. }
  destruct (init_floating _ _ Hd) as (Hd0 & Hy0). cbn zeta in *.
  unfold layer_anim_tick. rewrite Hd0, Hy0. cbn [la_spinY la_float].
  rewrite (truthy_nonzero s Ht). cbn [negb].
  destruct (e_position _) as [[x y] z].
  destruct (0 <? _)%float; cbn [e_rotation_y set_e_rotation_y set_e_position];
    unfold layer_anim_init; rewrite Hd; cbn [MainJs.makeEntityCommon e_position];
    destruct (default _ _) as [[x' y'] z']; reflexivity.
Qed.

Lemma overlay_no_spin bust l b Math_sin frames :
  e_rotation_y (ticks Math_sin frames (set_e_visible b (overlay_of bust l)))
  = e_rotation_y (overlay_of bust l).
Proof.
  rewrite ticks_no_spin; [reflexivity|]. intros d.
  unfold overlay_of, layer_anim_init, Part000.appendChild, Part000.makeEntityCommon.
  cbn [set_e_visible set_e_children e_layer_anim e_position].
  destruct (truthy_number _).
  - destruct (default _ _) as [[x y] z]. cbn. intros [= <-]. reflexivity.
  - discriminate.
Qed.

(** C5, against the claim as stated: [src/main.js] forwards [anim.spinY] to
    the component, and one second of frames turns the entity of a layer with
    [spinY: 90] by a quarter turn. *)
Lemma C5_main_js_spins : ¬ spin_disabled MainJs.makeEntityCommon.
Proof.
  intros H.
  specialize (H {| layer_type := Some "image"; layer_src := Some "a.png";
                   layer_pos := None; layer_scale := None;
                   layer_anim := Some {| anim_float := None;
                                         anim_spinY := Some 90%float |} |}
                (λ x, x) [(1000, 1000)%float]).
  rewrite spinning_layer_rotates in H.
  apply (f_equal (λ x, (x =? 0)%float)) in H. vm_compute in H. discriminate H.
Qed.

(** C5, amended: in the later build no configured [spinY] has any effect:
    the entity [makeEntityCommon] makes, and every overlay built from it,
    keeps its rotation through any frames.  In [src/main.js] a truthy
    [spinY] turns the entity by [spinY * PI / 180] radians per second.  In
    both builds a positive [anim.float] makes every frame at time [t] put
    the entity at [baseY + sin(2.0 * t / 1000) * float]. *)
Theorem C5_spin_disabled_float_oscillates :
  spin_disabled Part000.makeEntityCommon
  ∧ (∀ (bust : Z) (l : LayerSpec) (b : bool) (Math_sin : float → float)
       (frames : list (float * float)),
       e_rotation_y (ticks Math_sin frames (set_e_visible b (overlay_of bust l)))
       = e_rotation_y (overlay_of bust l))
  ∧ floats Part000.makeEntityCommon
  ∧ floats MainJs.makeEntityCommon
  ∧ (∀ (layer : LayerSpec) (a : Anim) (s : float) (Math_sin : float → float)
       (t dt : float),
       layer_anim layer = Some a → anim_spinY a = Some s → truthy_number s = true →
       e_rotation_y
         (layer_anim_tick Math_sin t dt
            (layer_anim_init (MainJs.makeEntityCommon layer)))
       = (0 + s * Math_PI / 180 * (dt / 1000))%float).
Proof.
  split; [exact part000_spin_disabled|].
  split; [intros; apply overlay_no_spin|].
  split; [apply floats_from, part000_component|].
  split; [apply floats_from, mainjs_component|].
  intros. apply mainjs_spins with (a := a); assumption.
Qed.

(** ** The requested card *)

Lemma card_id_missing : card_id_of None = DEFAULT_CARD_ID.
Proof. reflexivity. Qed.

Lemma card_id_blank s : trim s = "" → card_id_of (Some s) = DEFAULT_CARD_ID.
Proof. intros H. unfold card_id_of. rewrite H, andb_false_r. reflexivity. Qed.

Lemma card_id_trimmed s : trim s ≠ "" → card_id_of (Some s) = trim s.
Proof.
  intros H. unfold card_id_of.
  destruct s as [|c s]; [contradiction H; reflexivity|].
  destruct (trim (String c s)); [contradiction H; reflexivity|]. reflexivity.
Qed.

Lemma get_property_own config key d :
  config !! key = Some d → get_property config key = Some (OwnCard d).
Proof. intros H. unfold get_property. rewrite H. reflexivity. Qed.

Lemma get_property_absent config key :
  config !! key = None → key ∉ object_prototype_members →
  get_property config key = None.
Proof.
  intros H Hin. unfold get_property. rewrite H.
  rewrite bool_decide_eq_false_2; [reflexivity|exact Hin].
Qed.

(** For a requested id that is neither a card of the file nor the name of an
    inherited member, the default card is used, the notice is written once,
    and the load goes on to "Ready". *)
Lemma unknown_id_falls_back (w : World) (config : gmap string CardDefinition)
    (d : CardDefinition) (b : bool) :
  cardsJson w = Some config →
  config !! card_id_of (location_id w) = None →
  card_id_of (location_id w) ∉ object_prototype_members →
  config !! DEFAULT_CARD_ID = Some d →
  some_type_video (take MAX_LAYERS (raw_layers (OwnCard d))) = Ok b →
  chosen_card w = Some (OwnCard d)
  ∧ page_load w = (Ok tt, main_world (OwnCard d) b (script_loaded w))
  ∧ statusLog (exec page_load w)
    = StReady :: StUnknownCard (card_id_of (location_id w))
        :: StLoading (card_id_of (location_id w)) :: statusLog w.
Proof.
  intros Hcfg Hreq Hproto Hdef Hb.
  assert (chosen_card w = Some (OwnCard d)) as Hc.
  { unfold chosen_card. rewrite Hcfg, (get_property_absent _ _ Hreq Hproto).
    apply get_property_own, Hdef. }
  split; [exact Hc|]. split; [apply page_load_returns; assumption|].
  rewrite (exec_of _ _ _ _ (page_load_returns w _ b Hc Hb)).
  destruct (main_world_fields (OwnCard d) b (script_loaded w))
    as (_ & _ & _ & _ & -> & _).
  unfold resolve_log, requested_found, script_loaded. world_simpl.
  rewrite Hcfg, (get_property_absent _ _ Hreq Hproto). reflexivity.
Qed.

(** When the default card is missing too, [main] throws before it builds or
    installs anything, and the page shows the error. *)
Lemma missing_default_is_fatal (w : World) (config : gmap string CardDefinition) :
  cardsJson w = Some config →
  get_property config (card_id_of (location_id w)) = None →
  get_property config DEFAULT_CARD_ID = None →
  Part000.main (script_loaded w)
  = (Throw MissingDefaultCard,
     set_statusLog
       (StUnknownCard (card_id_of (location_id w))
          :: StLoading (card_id_of (location_id w)) :: statusLog w)
       (script_loaded w))
  ∧ page_load w
    = (Ok tt,
       set_statusLog
         (StError MissingDefaultCard
            :: StUnknownCard (card_id_of (location_id w))
            :: StLoading (card_id_of (location_id w)) :: statusLog w)
         (script_loaded w)).
Proof.
  intros Hcfg Hreq Hdef.
  assert (resolve_card (script_loaded w)
          = (Throw MissingDefaultCard,
             set_statusLog
               (StUnknownCard (card_id_of (location_id w))
                  :: StLoading (card_id_of (location_id w)) :: statusLog w)
               (script_loaded w))) as Hr.
  { unfold resolve_card, getCardIdFromUrl, setStatus, loadJSON, script_loaded.
    unfold_m. world_simpl.
    rewrite Hcfg. cbv beta iota zeta. rewrite Hreq. cbv beta iota zeta.
    rewrite Hdef. reflexivity. }
  split; [apply main_throws, Hr|].
  rewrite (page_load_fails w _ _ Hr). reflexivity.
Qed.

(** C6, at the failing input: the page is asked for the card [toString] and
    the file has only [card_001].  The lookup finds the inherited member, so
    no notice is written, the default card is not used and no overlay is
    built, where a really unknown id gets the notice and the default card's
    overlay. *)
Theorem C6_inherited_name_is_not_unknown :
  let asked := blank_page (Some "toString") (Some one_image_config) in
  let unknown := blank_page (Some "card_999") (Some one_image_config) in
  one_image_config !! "toString" = None
  ∧ chosen_card asked = Some (InheritedMember "toString")
  ∧ statusLog (exec page_load asked) = [StReady; StLoading "toString"]
  ∧ spawnedEntities (exec page_load asked) = []
  ∧ statusLog (exec page_load unknown)
    = [StReady; StUnknownCard "card_999"; StLoading "card_999"]
  ∧ spawnedEntities (exec page_load unknown) = [0].
Proof. cbn zeta. repeat split; vm_compute; reflexivity. Qed.

(** ** The claims at sample pages *)

Example btoa_hello : btoa "hello" = "aGVsbG8=".
Proof. reflexivity. Qed.

Example video_id_clip : video_id "clip.mp4" = "vid_Y2xpcC5tcDQ".
Proof. reflexivity. Qed.

Example trim_padded : card_id_of (Some "  card_002 ") = "card_002".
Proof. reflexivity. Qed.

(** First scenario of the specification: a blank id resolves to [card_001],
    one image overlay is created, the video control is hidden. *)
Example blank_id_loads_default :
  let w := exec page_load (blank_page (Some "") (Some one_image_config)) in
  statusLog w = [StReady; StLoading "card_001"]
  ∧ (λ o : option Entity, o ≫= variant_of) <$> spawned_overlays w
    = [Some TexturedPlane]
  ∧ videoBtnDisplay w = Some DisplayNone.
Proof. cbn zeta. repeat split; vm_compute; reflexivity. Qed.

(** A card whose only layer has type video and no [src]: the control is
    shown, no overlay is spawned and no video asset is created. *)
Example srcless_video_shows_control :
  let w := exec page_load (blank_page None (Some srcless_video_config)) in
  videoBtnDisplay w = Some InlineBlock ∧ spawnedEntities w = [] ∧ assets w = [].
Proof. cbn zeta. repeat split; vm_compute; reflexivity. Qed.

(** C1 at the page with six layers: three entries have both fields, one
    overlay is spawned. *)
Lemma C1_six_layers :
  (length (spawnedEntities (exec page_load (blank_page None (Some six_layers_config))))
   ≤ min MAX_LAYERS
       (length (List.filter has_type_and_src
                  (raw_entries (blank_page None (Some six_layers_config))))))%nat
  ∧ Part000.build_layer (Some (layer (Some "image") None))
      (blank_page None (Some six_layers_config))
    = (Ok tt, blank_page None (Some six_layers_config)).
Proof.
  split.
  - exact (proj1 (C1_overlay_count_bounded (blank_page None (Some six_layers_config)))).
  - exact (proj1 (proj2 (C1_overlay_count_bounded (blank_page None (Some six_layers_config))))
             (layer (Some "image") None) (blank_page None (Some six_layers_config))
             eq_refl).
Defined.

(** C9 at the page with six layers: the only overlay is the model of the
    fifth entry; the valid image in sixth place is not built. *)
Lemma C9_six_layers :
  store (exec page_load (blank_page None (Some six_layers_config)))
  = [set_e_visible false (overlay_of 1700000000000 (layer (Some "model") (Some "m.glb")))].
Proof.
  exact (proj1 (proj2 (C9_clamp_before_filter
                         (blank_page None (Some six_layers_config))
                         (OwnCard (card [Some (layer None (Some "a.png"));
                                         Some (layer (Some "image") None);
                                         Some (layer (Some "video") None);
                                         Some (layer (Some "") (Some "b.png"));
                                         Some (layer (Some "model") (Some "m.glb"));
                                         Some (layer (Some "image") (Some "late.png"))]))
                         true eq_refl eq_refl))).
Defined.

(** C10 at the page with six layers: the third entry has type video and no
    [src]; the control is shown although no video overlay exists. *)
Lemma C10_six_layers :
  videoBtnDisplay (exec page_load (blank_page None (Some six_layers_config)))
  = Some InlineBlock.
Proof.
  exact (proj1 (C10_video_control_ignores_src
                  (blank_page None (Some six_layers_config))
                  (OwnCard (card [Some (layer None (Some "a.png"));
                                  Some (layer (Some "image") None);
                                  Some (layer (Some "video") None);
                                  Some (layer (Some "") (Some "b.png"));
                                  Some (layer (Some "model") (Some "m.glb"));
                                  Some (layer (Some "image") (Some "late.png"))]))
                  true eq_refl eq_refl)).
Defined.




(** C5 for a layer that floats by 0.05 and asks for a spin of 90: in the
    later build its entity is at [0 + sin(2 * 3) * 0.05] after a frame at
    three seconds. *)
Lemma C5_floating_layer :
  e_position
    (ticks (λ x, x) ([] ++ [(3000, 16)%float])
       (layer_anim_init
          (Part000.makeEntityCommon
             {| layer_type := Some "image"; layer_src := Some "a.png";
                layer_pos := None; layer_scale := None;
                layer_anim := Some {| anim_float := Some 0.05%float;
                                      anim_spinY := Some 90%float |} |})))
  = (0, 0 + (3000 / 1000 * 2) * 0.05, -0.12)%float.
Proof.
  exact (proj1 (proj2 (proj2 C5_spin_disabled_float_oscillates))
           {| layer_type := Some "image"; layer_src := Some "a.png";
              layer_pos := None; layer_scale := None;
              layer_anim := Some {| anim_float := Some 0.05%float;
                                    anim_spinY := Some 90%float |} |}
           {| anim_float := Some 0.05%float; anim_spinY := Some 90%float |}
           0.05%float (λ x, x) [] 3000%float 16%float eq_refl eq_refl eq_refl).
Defined.

(** C7 at a blank page: a start before the tracking system is registered. *)
Lemma C7_start_too_early :
  Part000.startBtn_click Resolves (blank_page None (Some one_image_config))
  = (Ok tt,
     set_statusLog [StNotReady; StStarting] (blank_page None (Some one_image_config))).
Proof.
  exact (proj1 (proj1 (C7_start_requires_engine
                         (blank_page None (Some one_image_config)) Resolves)
                  eq_refl)).
Defined.


(** * Further properties of the code *)

(** ** The id of a video asset determines its source *)

(** A property checked on every number below [k] holds below [k]. *)
Lemma below_all (k : nat) (P : N → bool) :
  forallb P (map N.of_nat (seq 0 k)) = true →
  ∀ n : N, (n < N.of_nat k)%N → P n = true.
Proof.
  intros H n Hn. rewrite forallb_forall in H. apply H.
  apply in_map_iff. exists (N.to_nat n). split; [lia|].
  apply in_seq. lia.
Qed.

Lemma below_all2 (k1 k2 : nat) (P : N → N → bool) :
  forallb (λ a, forallb (P a) (map N.of_nat (seq 0 k2))) (map N.of_nat (seq 0 k1)) = true →
  ∀ a b : N, (a < N.of_nat k1)%N → (b < N.of_nat k2)%N → P a b = true.
Proof.
  intros H a b Ha Hb.
  apply (below_all k2 (P a)); [|assumption].
  apply (below_all k1 (λ a, forallb (P a) (map N.of_nat (seq 0 k2)))); assumption.
Qed.

Lemma digit_value (n : N) : (n < 64)%N → base64_value (base64_digit n) = n.
Proof.
  intros Hn.
  apply N.eqb_eq.
  apply (below_all 64 (λ n, N.eqb (base64_value (base64_digit n)) n));
    [vm_compute; reflexivity | exact Hn].
Qed.

Lemma digit_not_padding (n : N) :
  (n < 64)%N → Ascii.eqb (base64_digit n) "="%char = false.
Proof.
  intros Hn.
  apply negb_true_iff.
  apply (below_all 64 (λ n, negb (Ascii.eqb (base64_digit n) "="%char)));
    [vm_compute; reflexivity | exact Hn].
Qed.

Lemma remove_equals_digit (n : N) (s : string) :
  (n < 64)%N →
  remove_equals (String (base64_digit n) s) = String (base64_digit n) (remove_equals s).
Proof.
  intros Hn. cbn [remove_equals]. rewrite digit_not_padding by assumption. reflexivity.
Qed.

(** The four digits of three bytes are below 64. *)
Lemma digit1_bound (a : N) : (a < 256)%N → (N.shiftr a 2 < 64)%N.
Proof.
  intros Ha. apply N.ltb_lt.
  apply (below_all 256 (λ a, N.ltb (N.shiftr a 2) 64)); [vm_compute; reflexivity | exact Ha].
Qed.

Lemma digit2_bound (a b : N) :
  (a < 256)%N → (b < 256)%N →
  (N.lor (N.shiftl (N.land a 3) 4) (N.shiftr b 4) < 64)%N.
Proof.
  intros Ha Hb. apply N.ltb_lt.
  apply (below_all2 256 256
           (λ a b, N.ltb (N.lor (N.shiftl (N.land a 3) 4) (N.shiftr b 4)) 64));
    [vm_compute; reflexivity | exact Ha | exact Hb].
Qed.

Lemma digit2_last_bound (a : N) : (a < 256)%N → (N.shiftl (N.land a 3) 4 < 64)%N.
Proof.
  intros Ha. apply N.ltb_lt.
  apply (below_all 256 (λ a, N.ltb (N.shiftl (N.land a 3) 4) 64));
    [vm_compute; reflexivity | exact Ha].
Qed.

Lemma digit3_bound (b c : N) :
  (b < 256)%N → (c < 256)%N →
  (N.lor (N.shiftl (N.land b 15) 2) (N.shiftr c 6) < 64)%N.
Proof.
  intros Hb Hc. apply N.ltb_lt.
  apply (below_all2 256 256
           (λ b c, N.ltb (N.lor (N.shiftl (N.land b 15) 2) (N.shiftr c 6)) 64));
    [vm_compute; reflexivity | exact Hb | exact Hc].
Qed.

Lemma digit3_last_bound (b : N) : (b < 256)%N → (N.shiftl (N.land b 15) 2 < 64)%N.
Proof.
  intros Hb. apply N.ltb_lt.
  apply (below_all 256 (λ b, N.ltb (N.shiftl (N.land b 15) 2) 64));
    [vm_compute; reflexivity | exact Hb].
Qed.

Lemma digit4_bound (c : N) : (c < 256)%N → (N.land c 63 < 64)%N.
Proof.
  intros Hc. apply N.ltb_lt.
  apply (below_all 256 (λ c, N.ltb (N.land c 63) 64)); [vm_compute; reflexivity | exact Hc].
Qed.

(** The bytes come back from the digits. *)
Lemma byte1_back (a b : N) :
  (a < 256)%N → (b < 256)%N →
  N.lor (N.shiftl (N.shiftr a 2) 2)
    (N.shiftr (N.lor (N.shiftl (N.land a 3) 4) (N.shiftr b 4)) 4) = a.
Proof.
  intros Ha Hb. apply N.eqb_eq.
  apply (below_all2 256 256
           (λ a b, N.eqb (N.lor (N.shiftl (N.shiftr a 2) 2)
                            (N.shiftr (N.lor (N.shiftl (N.land a 3) 4) (N.shiftr b 4)) 4)) a));
    [vm_compute; reflexivity | exact Ha | exact Hb].
Qed.

Lemma byte1_back_last (a : N) :
  (a < 256)%N →
  N.lor (N.shiftl (N.shiftr a 2) 2) (N.shiftr (N.shiftl (N.land a 3) 4) 4) = a.
Proof.
  intros Ha. apply N.eqb_eq.
  apply (below_all 256
           (λ a, N.eqb (N.lor (N.shiftl (N.shiftr a 2) 2)
                          (N.shiftr (N.shiftl (N.land a 3) 4) 4)) a));
    [vm_compute; reflexivity | exact Ha].
Qed.

Lemma byte2_high (a b : N) :
  (a < 256)%N → (b < 256)%N →
  N.land (N.lor (N.shiftl (N.land a 3) 4) (N.shiftr b 4)) 15 = N.shiftr b 4.
Proof.
  intros Ha Hb. apply N.eqb_eq.
  apply (below_all2 256 256
           (λ a b, N.eqb (N.land (N.lor (N.shiftl (N.land a 3) 4) (N.shiftr b 4)) 15)
                     (N.shiftr b 4)));
    [vm_compute; reflexivity | exact Ha | exact Hb].
Qed.

Lemma byte2_low (b c : N) :
  (b < 256)%N → (c < 256)%N →
  N.shiftr (N.lor (N.shiftl (N.land b 15) 2) (N.shiftr c 6)) 2 = N.land b 15.
Proof.
  intros Hb Hc. apply N.eqb_eq.
  apply (below_all2 256 256
           (λ b c, N.eqb (N.shiftr (N.lor (N.shiftl (N.land b 15) 2) (N.shiftr c 6)) 2)
                     (N.land b 15)));
    [vm_compute; reflexivity | exact Hb | exact Hc].
Qed.

Lemma byte2_low_last (b : N) :
  (b < 256)%N → N.shiftr (N.shiftl (N.land b 15) 2) 2 = N.land b 15.
Proof.
  intros Hb. apply N.eqb_eq.
  apply (below_all 256 (λ b, N.eqb (N.shiftr (N.shiftl (N.land b 15) 2) 2) (N.land b 15)));
    [vm_compute; reflexivity | exact Hb].
Qed.

Lemma byte2_joined (b : N) :
  (b < 256)%N → N.lor (N.shiftl (N.shiftr b 4) 4) (N.land b 15) = b.
Proof.
  intros Hb. apply N.eqb_eq.
  apply (below_all 256 (λ b, N.eqb (N.lor (N.shiftl (N.shiftr b 4) 4) (N.land b 15)) b));
    [vm_compute; reflexivity | exact Hb].
Qed.

Lemma byte3_back (b c : N) :
  (b < 256)%N → (c < 256)%N →
  N.lor (N.shiftl (N.land (N.lor (N.shiftl (N.land b 15) 2) (N.shiftr c 6)) 3) 6)
    (N.land c 63) = c.
Proof.
  intros Hb Hc. apply N.eqb_eq.
  apply (below_all2 256 256
           (λ b c, N.eqb
                     (N.lor (N.shiftl
                               (N.land (N.lor (N.shiftl (N.land b 15) 2) (N.shiftr c 6)) 3) 6)
                        (N.land c 63)) c));
    [vm_compute; reflexivity | exact Hb | exact Hc].
Qed.

(** Induction on a list, three elements at a time. *)
Lemma list_ind3 {A : Type} (P : list A → Prop) :
  P [] → (∀ a, P [a]) → (∀ a b, P [a; b]) →
  (∀ a b c l, P l → P (a :: b :: c :: l)) →
  ∀ l, P l.
Proof.
  intros H0 H1 H2 H3 l.
  enough (H : P l ∧ (∀ a, P (a :: l)) ∧ (∀ a b, P (a :: b :: l))) by apply H.
  induction l as [|x l (IH0 & IH1 & IH2)].
  - repeat split; auto.
  - repeat split; auto.
Qed.

(** The digits of an id, read as numbers. *)
Lemma values_digit (n : N) (s : string) :
  (n < 64)%N →
  base64_value <$> list_ascii_of_string (String (base64_digit n) s)
  = n :: (base64_value <$> list_ascii_of_string s).
Proof.
  intros Hn. cbn [list_ascii_of_string]. rewrite fmap_cons, digit_value by assumption.
  reflexivity.
Qed.

Lemma unbase64_base64 (bytes : list N) :
  Forall (λ b, (b < 256)%N) bytes →
  unbase64 (base64_value <$> list_ascii_of_string (remove_equals (base64 bytes))) = bytes.
Proof.
  induction bytes as [|a|a b|a b c rest IH] using list_ind3; intros Hbytes.
  - reflexivity.
  - apply Forall_cons in Hbytes as (Ha & _).
    change (base64 [a])
      with (String (base64_digit (N.shiftr a 2))
              (String (base64_digit (N.shiftl (N.land a 3) 4)) "==")).
    rewrite !remove_equals_digit by auto using digit1_bound, digit2_last_bound.
    rewrite !values_digit by auto using digit1_bound, digit2_last_bound.
    cbn [remove_equals Ascii.eqb Bool.eqb list_ascii_of_string fmap list_fmap unbase64].
    rewrite byte1_back_last by assumption. reflexivity.
  - apply Forall_cons in Hbytes as (Ha & Hbytes).
    apply Forall_cons in Hbytes as (Hb & _).
    change (base64 [a; b])
      with (String (base64_digit (N.shiftr a 2))
              (String (base64_digit (N.lor (N.shiftl (N.land a 3) 4) (N.shiftr b 4)))
                 (String (base64_digit (N.shiftl (N.land b 15) 2)) "="))).
    rewrite !remove_equals_digit
      by auto using digit1_bound, digit2_bound, digit3_last_bound.
    rewrite !values_digit by auto using digit1_bound, digit2_bound, digit3_last_bound.
    cbn [remove_equals Ascii.eqb Bool.eqb list_ascii_of_string fmap list_fmap unbase64].
    rewrite byte1_back, byte2_high, byte2_low_last, byte2_joined by assumption.
    reflexivity.
  - apply Forall_cons in Hbytes as (Ha & Hbytes).
    apply Forall_cons in Hbytes as (Hb & Hbytes).
    apply Forall_cons in Hbytes as (Hc & Hrest).
    change (base64 (a :: b :: c :: rest))
      with (String (base64_digit (N.shiftr a 2))
              (String (base64_digit (N.lor (N.shiftl (N.land a 3) 4) (N.shiftr b 4)))
                 (String (base64_digit (N.lor (N.shiftl (N.land b 15) 2) (N.shiftr c 6)))
                    (String (base64_digit (N.land c 63)) (base64 rest))))).
    rewrite !remove_equals_digit
      by auto using digit1_bound, digit2_bound, digit3_bound, digit4_bound.
    rewrite !values_digit
      by auto using digit1_bound, digit2_bound, digit3_bound, digit4_bound.
    cbn [unbase64].
    rewrite (IH Hrest).
    rewrite byte1_back, byte2_high, byte2_low, byte2_joined, byte3_back by assumption.
    reflexivity.
Qed.

Lemma codes_back (l : list ascii) : ascii_of_N <$> map N_of_ascii l = l.
Proof.
  induction l as [|c l IH]; [reflexivity|].
  cbn [map]. rewrite fmap_cons, ascii_N_embedding, IH. reflexivity.
Qed.

Lemma atob_btoa (s : string) : atob_unpadded (remove_equals (btoa s)) = s.
Proof.
  unfold atob_unpadded, btoa.
  rewrite unbase64_base64.
  - rewrite codes_back. apply string_of_list_ascii_of_string.
  - apply Forall_forall. intros b Hb.
    apply list_elem_of_In, in_map_iff in Hb as (c & <- & _). apply N_ascii_bounded.
Qed.

Lemma source_of_video_id (src : string) : source_of_id (video_id src) = src.
Proof. unfold video_id. cbn [String.append source_of_id]. apply atob_btoa. Qed.

Lemma video_id_inj (src1 src2 : string) : video_id src1 = video_id src2 → src1 = src2.
Proof.
  intros H. rewrite <- (source_of_video_id src1), <- (source_of_video_id src2), H.
  reflexivity.
Qed.

(** X1: the id of a video asset determines the source it was made from:
    the digits after [vid_] decode to the source, so two layers get the same
    id only when their sources are the same string.  The registry, which is
    keyed by the id, therefore never hands a layer the video of another
    source. *)
Theorem X1_video_id_injective :
  (∀ src : string, source_of_id (video_id src) = src)
  ∧ (∀ src1 src2 : string, video_id src1 = video_id src2 → src1 = src2).
Proof. split; [exact source_of_video_id | exact video_id_inj]. Qed.

(** ** The card id *)

Lemma trimStart_clean (s : string) : starts_with_white_space (trimStart s) = false.
Proof.
  induction s as [|c s IH]; [reflexivity|].
  cbn [trimStart]. destruct (is_white_space c) eqn:Hc; [exact IH|].
  cbn [starts_with_white_space]. exact Hc.
Qed.

Lemma trimStart_fixed (s : string) :
  starts_with_white_space s = false → trimStart s = s.
Proof.
  destruct s as [|c s]; [reflexivity|].
  cbn [starts_with_white_space trimStart]. intros ->. reflexivity.
Qed.

Lemma trimEnd_clean (s : string) : ends_with_white_space (trimEnd s) = false.
Proof.
  induction s as [|c s IH]; [reflexivity|].
  cbn [trimEnd]. destruct (trimEnd s) as [|d t].
  - destruct (is_white_space c) eqn:Hc; [reflexivity|].
    cbn [ends_with_white_space]. exact Hc.
  - exact IH.
Qed.

Lemma trimEnd_fixed (s : string) :
  ends_with_white_space s = false → trimEnd s = s.
Proof.
  induction s as [|c s IH]; [reflexivity|].
  destruct s as [|d t].
  - cbn [ends_with_white_space trimEnd]. intros ->. reflexivity.
  - intros H. change (ends_with_white_space (String d t) = false) in H.
    change (trimEnd (String c (String d t)))
      with (match trimEnd (String d t) with
            | EmptyString => if is_white_space c then EmptyString else String c EmptyString
            | t' => String c t'
            end).
    rewrite (IH H). reflexivity.
Qed.

Lemma trimEnd_keeps_start (s : string) :
  starts_with_white_space s = false → starts_with_white_space (trimEnd s) = false.
Proof.
  destruct s as [|c s]; [reflexivity|].
  cbn [starts_with_white_space trimEnd]. intros Hc.
  destruct (trimEnd s); [rewrite Hc|]; cbn [starts_with_white_space]; exact Hc.
Qed.

Lemma trim_clean (s : string) :
  starts_with_white_space (trim s) = false ∧ ends_with_white_space (trim s) = false.
Proof.
  unfold trim. split; [|apply trimEnd_clean].
  apply trimEnd_keeps_start, trimStart_clean.
Qed.

Lemma trim_fixed (s : string) :
  starts_with_white_space s = false → ends_with_white_space s = false → trim s = s.
Proof.
  intros Hs He. unfold trim. rewrite (trimStart_fixed s Hs). apply trimEnd_fixed, He.
Qed.

Lemma trim_idem (s : string) : trim (trim s) = trim s.
Proof. apply trim_fixed; apply trim_clean. Qed.

Lemma trimStart_blank (s : string) : all_white_space s = true → trimStart s = "".
Proof.
  induction s as [|c s IH]; [reflexivity|].
  cbn [all_white_space trimStart]. intros (-> & H)%andb_true_iff. exact (IH H).
Qed.

Lemma trimEnd_blank (s : string) : all_white_space s = true → trimEnd s = "".
Proof.
  induction s as [|c s IH]; [reflexivity|].
  cbn [all_white_space trimEnd]. intros (-> & H)%andb_true_iff. rewrite (IH H).
  reflexivity.
Qed.

Lemma append_nil (s : string) : "" +:+ s = s.
Proof. reflexivity. Qed.

Lemma append_cons (c : ascii) (s t : string) : String c s +:+ t = String c (s +:+ t).
Proof. reflexivity. Qed.

Lemma trimStart_padded (pre s : string) :
  all_white_space pre = true → trimStart (pre +:+ s) = trimStart s.
Proof.
  induction pre as [|c pre IH]; [reflexivity|].
  rewrite append_cons. cbn [all_white_space trimStart].
  intros (-> & H)%andb_true_iff. exact (IH H).
Qed.

Lemma trimEnd_padded (s post : string) :
  all_white_space post = true → trimEnd (s +:+ post) = trimEnd s.
Proof.
  intros Hpost. induction s as [|c s IH].
  - rewrite append_nil. apply trimEnd_blank, Hpost.
  - rewrite append_cons. cbn [trimEnd]. rewrite IH. reflexivity.
Qed.

Lemma trim_padded_end (s post : string) :
  all_white_space post = true → trim (s +:+ post) = trim s.
Proof.
  intros Hpost. unfold trim. induction s as [|c s IH].
  - rewrite append_nil, (trimStart_blank post Hpost). reflexivity.
  - rewrite append_cons. cbn [trimStart]. destruct (is_white_space c); [exact IH|].
    rewrite <- append_cons. apply (trimEnd_padded (String c s) post Hpost).
Qed.

(** Surrounding white space does not count. *)
Lemma trim_padding (pre s post : string) :
  all_white_space pre = true → all_white_space post = true →
  trim (pre +:+ s +:+ post) = trim s.
Proof.
  intros Hpre Hpost. unfold trim at 1. rewrite (trimStart_padded pre _ Hpre).
  apply (trim_padded_end s post Hpost).
Qed.

Lemma trim_truthy (s : string) : truthy_string (trim s) = true → truthy_string s = true.
Proof. destruct s; [discriminate|reflexivity]. Qed.

Lemma card_id_of_trim (s : string) :
  card_id_of (Some s) = if truthy_string (trim s) then trim s else DEFAULT_CARD_ID.
Proof.
  unfold card_id_of. destruct (truthy_string (trim s)) eqn:Ht.
  - rewrite (trim_truthy s Ht). reflexivity.
  - rewrite andb_false_r. reflexivity.
Qed.

Lemma card_id_never_blank (i : option string) : truthy_string (card_id_of i) = true.
Proof.
  destruct i as [s|]; [|reflexivity].
  rewrite card_id_of_trim. destruct (truthy_string (trim s)) eqn:Ht; [exact Ht|reflexivity].
Qed.

Lemma card_id_clean (i : option string) :
  starts_with_white_space (card_id_of i) = false
  ∧ ends_with_white_space (card_id_of i) = false.
Proof.
  destruct i as [s|]; [|split; reflexivity].
  rewrite card_id_of_trim. destruct (truthy_string (trim s)).
  - apply trim_clean.
  - split; reflexivity.
Qed.

Lemma card_id_stable (i : option string) : card_id_of (Some (card_id_of i)) = card_id_of i.
Proof.
  rewrite card_id_of_trim.
  rewrite (trim_fixed (card_id_of i)) by apply card_id_clean.
  rewrite card_id_never_blank. reflexivity.
Qed.

(** X2: the card id the page works with is never blank and never begins or
    ends with white space; asking for that id again resolves to itself; and
    white space around the [id] parameter makes no difference. *)
Theorem X2_card_id_normal_form :
  (∀ i : option string,
     truthy_string (card_id_of i) = true
     ∧ starts_with_white_space (card_id_of i) = false
     ∧ ends_with_white_space (card_id_of i) = false
     ∧ card_id_of (Some (card_id_of i)) = card_id_of i)
  ∧ (∀ pre s post : string,
       all_white_space pre = true → all_white_space post = true →
       card_id_of (Some (pre +:+ s +:+ post)) = card_id_of (Some s)).
Proof.
  split.
  - intros i. split; [apply card_id_never_blank|].
    split; [apply card_id_clean|]. split; [apply card_id_clean|apply card_id_stable].
  - intros pre s post Hpre Hpost.
    rewrite !card_id_of_trim, (trim_padding pre s post Hpre Hpost). reflexivity.
Qed.

(** ** A load that fails *)

(** [resolve_card] writes the status, the link and the video control, and
    nothing else. *)
Lemma resolve_card_rest w :
  let w' := exec resolve_card w in
  startBtnDisabled w' = startBtnDisabled w ∧ stopBtnDisabled w' = stopBtnDisabled w
  ∧ sceneShown w' = sceneShown w ∧ mindarSystem w' = mindarSystem w
  ∧ anchorVisible w' = anchorVisible w.
Proof.
  unfold exec, resolve_card, getCardIdFromUrl, setStatus, loadJSON,
    showVideoButtonIfNeeded.
  unfold_m. world_simpl.
  destruct (cardsJson w) as [config|]; [|simpl; tauto].
  destruct (get_property config (card_id_of (location_id w))) as [c1|]; simpl.
  - destruct (some_type_video _); simpl; tauto.
  - destruct (get_property config DEFAULT_CARD_ID) as [c|]; simpl; [|tauto].
    destruct (some_type_video _); simpl; tauto.
Qed.







(** ** A [null] entry among the layers *)

(** The video test throws exactly when a [null] entry comes before every
    entry of type video. *)
Lemma some_type_video_throws ls e :
  some_type_video ls = Throw e ↔
  e = NullProperty
  ∧ ∃ i, ls !! i = Some None
         ∧ ∀ j, j < i → ∃ l, ls !! j = Some (Some l) ∧ layer_type l ≠ Some "video".
Proof.
  induction ls as [|[l|] ls IH]; cbn [some_type_video].
  - split; [discriminate|]. intros (_ & i & Hi & _). discriminate.
  - destruct (field_is (layer_type l) "video") eqn:Hv.
    + split; [discriminate|]. intros (_ & i & Hi & Hbefore).
      destruct i as [|i]; [discriminate|].
      destruct (Hbefore 0) as (l' & Hl' & Hn); [lia|].
      injection Hl' as <-. apply field_is_true in Hv. contradiction.
    + rewrite IH. split.
      * intros (-> & i & Hi & Hbefore). split; [reflexivity|].
        exists (S i). split; [exact Hi|]. intros [|j] Hj.
        -- exists l. split; [reflexivity|]. intros Heq.
           apply field_is_true in Heq. congruence.
        -- apply Hbefore. lia.
      * intros (-> & i & Hi & Hbefore). split; [reflexivity|].
        destruct i as [|i]; [discriminate|].
        exists i. split; [exact Hi|]. intros j Hj. apply (Hbefore (S j)). lia.
  - split.
    + intros [= <-]. split; [reflexivity|]. exists 0. split; [reflexivity|]. lia.
    + intros (-> & _). reflexivity.
Qed.

(** X4: a [null] entry among the first five entries of [layers], with no
    entry of type video before it, makes the load fail on the video test:
    the status shows the error and no overlay is built, although the
    Instagram link has been set already and valid layers may follow.  The
    loop itself would have skipped the entry. *)
Theorem X4_null_entry_aborts_load (w : World) (c : PropertyValue) (i : nat) :
  chosen_card w = Some c →
  take MAX_LAYERS (raw_layers c) !! i = Some None →
  (∀ j, j < i →
     ∃ l, raw_layers c !! j = Some (Some l) ∧ layer_type l ≠ Some "video") →
  let w1 := exec page_load w in
  fst (Part000.main (script_loaded w)) = Throw NullProperty
  ∧ statusLog w1 = StError NullProperty :: resolve_log w
  ∧ is_Some (igHref w1)
  ∧ videoBtnDisplay w1 = videoBtnDisplay w
  ∧ spawnedEntities w1 = [] ∧ store w1 = store w ∧ assets w1 = assets w
  ∧ clickListeners w1 = false ∧ targetListeners w1 = false
  ∧ ∀ w' : World, Part000.build_layer None w' = (Ok tt, w').
Proof.
  intros Hc Hi Hbefore w1. subst w1.
  assert (Hthrow : some_type_video (take MAX_LAYERS (raw_layers c)) = Throw NullProperty).
  { apply some_type_video_throws. split; [reflexivity|].
    exists i. split; [exact Hi|]. intros j Hj.
    destruct (Hbefore j Hj) as (l & Hl & Hn). exists l. split; [|exact Hn].
    rewrite lookup_take_lt; [exact Hl|].
    apply lookup_lt_Some in Hi. rewrite length_take in Hi. lia. }
  assert (Hr : resolve_card (script_loaded w)
               = (Throw NullProperty,
                  set_igHref
                    (Some (if truthy_field (get_instagramUrl c)
                           then field_text (get_instagramUrl c)
                           else "https://instagram.com/"))
                    (set_statusLog (resolve_log w) (script_loaded w)))).
  { revert Hc.
    unfold chosen_card, resolve_card, resolve_log, requested_found,
      getCardIdFromUrl, setStatus, loadJSON, showVideoButtonIfNeeded, script_loaded.
    unfold_m. world_simpl. intros Hc.
    destruct (cardsJson w) as [config|]; [|discriminate].
    destruct (get_property config (card_id_of (location_id w))) as [c1|] eqn:Hreq.
    - injection Hc as ->. cbv beta iota zeta. rewrite clamp_raw, Hthrow. reflexivity.
    - cbv beta iota zeta. rewrite Hc. rewrite clamp_raw, Hthrow. reflexivity. }
  split; [rewrite (main_throws _ _ _ Hr); reflexivity|].
  unfold exec. rewrite (page_load_fails w _ _ Hr). cbn [snd]. unfold script_loaded.
  world_simpl.
  repeat (split; [reflexivity || eauto|]).
  intros w'. reflexivity.
Qed.

Lemma X4_null_first :
  statusLog (exec page_load (blank_page None (Some null_first_config)))
  = [StError NullProperty; StLoading "card_001"]
  ∧ store (exec page_load (blank_page None (Some null_first_config))) = [].
Proof.
  pose proof (X4_null_entry_aborts_load
                (blank_page None (Some null_first_config))
                (OwnCard (card [None; Some (layer (Some "image") (Some "a.png"))]))
                0 eq_refl eq_refl) as H.
  cbv zeta in H.
  destruct H as (_ & Hlog & _ & _ & _ & Hstore & _); [intros j Hj; lia|].
  split; [exact Hlog|exact Hstore].
Defined.

(** ** What the events of a session leave alone *)

Lemma same_scene_refl w : same_scene w w.
Proof. repeat split. Qed.

Lemma same_scene_trans w1 w2 w3 :
  same_scene w1 w2 → same_scene w2 w3 → same_scene w1 w3.
Proof.
  unfold same_scene.
  intros (-> & -> & -> & -> & -> & -> & -> & ->) (-> & -> & -> & -> & -> & -> & -> & ->).
  repeat split.
Qed.

(** Showing or hiding entities changes them only in their visibility. *)
Lemma visible_altered (b : bool) (rs : list nat) : ∀ s : list Entity,
  set_e_visible true <$> foldl (λ s r, alter (set_e_visible b) r s) s rs
  = set_e_visible true <$> s.
Proof.
  induction rs as [|r rs IH]; intros s; cbn [foldl]; [reflexivity|].
  rewrite IH. apply list_eq. intros i. rewrite !list_lookup_fmap.
  destruct (decide (i = r)) as [->|Hne].
  - rewrite list_lookup_alter_eq. destruct (s !! r); reflexivity.
  - rewrite list_lookup_alter_ne by congruence. reflexivity.
Qed.

Lemma reset_reset (vs : list Video) :
  Part000.reset_video <$> (Part000.reset_video <$> vs) = Part000.reset_video <$> vs.
Proof. rewrite <- list_fmap_compose. reflexivity. Qed.

Lemma reset_played plays (vs : list Video) :
  Part000.reset_video <$> (play_video plays <$> vs) = Part000.reset_video <$> vs.
Proof.
  rewrite <- list_fmap_compose. apply list_fmap_ext. intros _ v _.
  unfold play_video. cbn. destruct (plays (v_id v)); reflexivity.
Qed.

Lemma hide_world_same_scene w : same_scene w (hide_world w).
Proof.
  destruct (hide_world_fields w)
    as (_ & Hs & Has & Hsp & Hac & _ & Hig & Hvb & _ & _ & _ & _ & Htl & Hcl).
  cbn zeta in *. unfold same_scene. rewrite Hs, Has, Hsp, Hac, Hig, Hvb, Htl, Hcl.
  unfold hide_store. rewrite visible_altered, reset_reset. repeat split.
Qed.

(** A world built from [hide_world] by setters of other fields. *)
Lemma same_scene_after_hide w w0 w' :
  same_scene w w0 →
  spawnedEntities w' = spawnedEntities (hide_world w0) →
  anchorChildren w' = anchorChildren (hide_world w0) →
  store w' = store (hide_world w0) →
  assets w' = assets (hide_world w0) →
  igHref w' = igHref (hide_world w0) →
  videoBtnDisplay w' = videoBtnDisplay (hide_world w0) →
  targetListeners w' = targetListeners (hide_world w0) →
  clickListeners w' = clickListeners (hide_world w0) →
  same_scene w w'.
Proof.
  intros H0 H1 H2 H3 H4 H5 H6 H7 H8.
  apply (same_scene_trans _ w0); [exact H0|].
  apply (same_scene_trans _ (hide_world w0)); [apply hide_world_same_scene|].
  unfold same_scene. rewrite H1, H2, H3, H4, H5, H6, H7, H8. repeat split.
Qed.

Lemma handler_same_scene (flag : World → bool) (h : M unit) (w : World) :
  same_scene w (exec h w) → same_scene w (exec (when_listening flag h) w).
Proof.
  intros H. unfold exec, when_listening in *. unfold_m.
  destruct (flag w); [exact H|apply same_scene_refl].
Qed.

Lemma startBtn_click_same_scene o w : same_scene w (exec (Part000.startBtn_click o) w).
Proof.
  unfold exec. destruct (mindarSystem w) as [t|] eqn:Hm.
  - assert (is_Some (mindarSystem w)) as Hsome by (rewrite Hm; eauto).
    destruct o.
    + rewrite (startBtn_click_resolves w Hsome). cbn [snd].
      eapply same_scene_after_hide; [|reflexivity..]. repeat split.
    + rewrite (startBtn_click_rejects w Hsome). cbn [snd].
      eapply same_scene_after_hide; [|reflexivity..]. repeat split.
  - rewrite (startBtn_click_not_ready o w Hm). repeat split.
Qed.

Lemma stopBtn_click_same_scene o w : same_scene w (exec (Part000.stopBtn_click o) w).
Proof.
  unfold exec. destruct (mindarSystem w) as [t|] eqn:Hm.
  - assert (is_Some (mindarSystem w)) as Hsome by (rewrite Hm; eauto).
    destruct o.
    + rewrite (stopBtn_click_resolves w Hsome). cbn [snd].
      eapply same_scene_after_hide; [apply same_scene_refl|reflexivity..].
    + rewrite (stopBtn_click_rejects w Hsome). cbn [snd].
      eapply same_scene_after_hide; [apply same_scene_refl|reflexivity..].
  - rewrite (stopBtn_click_not_ready o w Hm). apply same_scene_refl.
Qed.

Lemma dispatch_same_scene ev w : same_scene w (exec (dispatch ev) w).
Proof.
  destruct ev as [|o|o|plays| |]; cbn [dispatch].
  - unfold exec, engine_ready. unfold_m. cbn [snd].
    destruct (mindarSystem w); repeat split.
  - apply handler_same_scene, startBtn_click_same_scene.
  - apply handler_same_scene, stopBtn_click_same_scene.
  - apply handler_same_scene. unfold exec, videoBtn_click, setStatus. unfold_m.
    cbn [snd]. unfold same_scene. world_simpl. rewrite reset_played. repeat split.
  - apply handler_same_scene. unfold exec. rewrite onTargetFound_eq. cbn [snd].
    unfold same_scene. world_simpl. unfold show_store. rewrite visible_altered.
    repeat split.
  - apply handler_same_scene. unfold exec. rewrite onTargetLost_eq. cbn [snd].
    eapply same_scene_after_hide; [|reflexivity..]. repeat split.
Qed.

Lemma run_same_scene evs : ∀ w, same_scene w (run evs w).
Proof.
  induction evs as [|ev evs IH]; intros w; cbn [run foldl].
  - apply same_scene_refl.
  - eapply same_scene_trans; [apply dispatch_same_scene|apply IH].
Qed.

(** Videos that differ at most in their playback state agree on everything
    else. *)
Lemma same_up_to_playback {B : Type} (g : Video → B) (vs vs' : list Video) :
  (∀ v, g (Part000.reset_video v) = g v) →
  Part000.reset_video <$> vs' = Part000.reset_video <$> vs → g <$> vs' = g <$> vs.
Proof.
  intros Hg H.
  rewrite (list_fmap_ext g (g ∘ Part000.reset_video) vs');
    [|intros; symmetry; apply Hg].
  rewrite (list_fmap_ext g (g ∘ Part000.reset_video) vs);
    [|intros; symmetry; apply Hg].
  rewrite !list_fmap_compose, H. reflexivity.
Qed.

(** X5: whatever events follow, in whatever order and with whatever
    outcome, the scene stays the one it was: the spawned list and the
    children of the anchor are the same addresses, every entity keeps its
    position, scale, rotation, animation data and children, every video
    asset keeps its id, source and settings, and the link and the video
    control keep their values.  Handlers change visibility flags, playback
    state, the controls, the tracker, the scene output and the status
    text, and nothing else. *)
Theorem X5_events_keep_the_scene (w : World) (evs : list Event) :
  let w' := run evs w in
  spawnedEntities w' = spawnedEntities w
  ∧ anchorChildren w' = anchorChildren w
  ∧ length (store w') = length (store w)
  ∧ (∀ (r : nat) (e' : Entity),
       store w' !! r = Some e' →
       ∃ e, store w !! r = Some e ∧ e' = set_e_visible (e_visible e') e)
  ∧ length (assets w') = length (assets w)
  ∧ (∀ (k : nat) (v' : Video),
       assets w' !! k = Some v' →
       ∃ v, assets w !! k = Some v
            ∧ v' = set_v_playback (v_paused v') (v_currentTime v') (v_muted v') v)
  ∧ igHref w' = igHref w
  ∧ videoBtnDisplay w' = videoBtnDisplay w.
Proof.
  intros w'. subst w'.
  destruct (run_same_scene evs w) as (Hsp & Hac & Hst & Has & Hig & Hvb & _ & _).
  split; [exact Hsp|]. split; [exact Hac|].
  split; [rewrite <- (length_fmap (set_e_visible true)), Hst; apply length_fmap|].
  split.
  { intros r e' He'.
    assert (Hr : (set_e_visible true <$> store (run evs w)) !! r
                 = Some (set_e_visible true e'))
      by (rewrite list_lookup_fmap, He'; reflexivity).
    rewrite Hst, list_lookup_fmap in Hr.
    destruct (store w !! r) as [e|]; [|discriminate].
    exists e. split; [reflexivity|].
    destruct e, e'. cbn in Hr. injection Hr; intros; subst; reflexivity. }
  split; [rewrite <- (length_fmap Part000.reset_video), Has; apply length_fmap|].
  split; [|split; assumption].
  intros k v' Hv'.
  assert (Hk : (Part000.reset_video <$> assets (run evs w)) !! k
               = Some (Part000.reset_video v'))
    by (rewrite list_lookup_fmap, Hv'; reflexivity).
  rewrite Has, list_lookup_fmap in Hk.
  destruct (assets w !! k) as [v|]; [|discriminate].
  exists v. split; [reflexivity|].
  destruct v, v'. cbn in Hk. injection Hk; intros; subst; reflexivity.
Qed.

(** ** The registry: one video element for each source *)

Lemma media_ids (vs : list Video) : fst <$> media vs = v_id <$> vs.
Proof. unfold media. rewrite <- list_fmap_compose. reflexivity. Qed.

Lemma registry_ok_media (vs vs' : list Video) :
  media vs' = media vs → registry_ok vs → registry_ok vs'.
Proof.
  unfold registry_ok. intros Hm (Hnd & Hall).
  rewrite <- (media_ids vs'), Hm, media_ids. split; [exact Hnd|].
  assert (H : Forall (λ p : string * string, p.1 = video_id p.2) (media vs')).
  { rewrite Hm. unfold media. apply Forall_fmap. exact Hall. }
  unfold media in H. apply Forall_fmap in H. exact H.
Qed.

Lemma media_reset (vs : list Video) : media (Part000.reset_video <$> vs) = media vs.
Proof. unfold media. rewrite <- list_fmap_compose. reflexivity. Qed.

Lemma same_scene_media w w' : same_scene w w' → media (assets w') = media (assets w).
Proof.
  intros (_ & _ & _ & Has & _). unfold media.
  apply same_up_to_playback; [reflexivity|exact Has].
Qed.

Lemma registry_ok_ensure (vs : list Video) (src : string) :
  registry_ok vs → registry_ok (ensure_assets vs src).
Proof.
  intros (Hnd & Hall). unfold ensure_assets.
  destruct (bool_decide (video_id src ∈ v_id <$> vs)) eqn:Hin; [split; assumption|].
  apply bool_decide_eq_false in Hin. split.
  - rewrite fmap_app. apply NoDup_app. split; [exact Hnd|].
    split; [|apply NoDup_singleton].
    intros i Hi Hi'. apply list_elem_of_singleton in Hi'. cbn in Hi'. congruence.
  - apply Forall_app. split; [exact Hall|]. apply Forall_singleton. reflexivity.
Qed.

Lemma registry_ok_ensure_all (srcs : list string) : ∀ vs,
  registry_ok vs → registry_ok (foldl ensure_assets vs srcs).
Proof.
  induction srcs as [|s srcs IH]; intros vs H; cbn [foldl]; [exact H|].
  apply IH, registry_ok_ensure, H.
Qed.

(** The registry never evicts: what was there stays in front. *)
Lemma ensure_all_prefix (srcs : list string) : ∀ vs,
  vs `prefix_of` foldl ensure_assets vs srcs.
Proof.
  induction srcs as [|s srcs IH]; intros vs; cbn [foldl]; [reflexivity|].
  etrans; [|apply IH]. unfold ensure_assets.
  destruct (bool_decide _); [reflexivity|]. apply prefix_app_r. reflexivity.
Qed.

Lemma registry_unique (vs : list Video) (v v' : Video) :
  registry_ok vs → v ∈ vs → v' ∈ vs →
  v_src v' = v_src v ∨ v_id v' = v_id v → v' = v.
Proof.
  intros (Hnd & Hall) Hv Hv' Hsame.
  assert (Hid : v_id v' = v_id v).
  { destruct Hsame as [Hsrc|Hid]; [|exact Hid].
    rewrite Forall_forall in Hall.
    rewrite (Hall v Hv), (Hall v' Hv'), Hsrc. reflexivity. }
  clear Hsame Hall. induction vs as [|x vs IH]; [inversion Hv|].
  rewrite fmap_cons in Hnd. apply NoDup_cons in Hnd as (Hx & Hnd).
  apply elem_of_cons in Hv as [->|Hv]; apply elem_of_cons in Hv' as [->|Hv'].
  - reflexivity.
  - exfalso. apply Hx. rewrite <- Hid. apply list_elem_of_fmap. eauto.
  - exfalso. apply Hx. rewrite Hid. apply list_elem_of_fmap. eauto.
  - exact (IH Hnd Hv Hv').
Qed.

Lemma video_layer_source (l : LayerSpec) (s : string) :
  layer_type l = Some "video" → layer_src l = Some s → video_source l = Some s.
Proof. intros Ht Hs. unfold video_source. rewrite Ht, Hs. reflexivity. Qed.

Lemma page_load_media (w : World) (c : PropertyValue) (b : bool) :
  chosen_card w = Some c →
  some_type_video (take MAX_LAYERS (raw_layers c)) = Ok b →
  media (assets (exec page_load w))
  = media (foldl ensure_assets (assets w)
             (video_sources (valid_layers (take MAX_LAYERS (raw_layers c))))).
Proof.
  intros Hc Hb. destruct (loaded_overlays w c b Hc Hb) as (_ & ->).
  apply media_reset.
Qed.

Lemma elem_of_media (vs : list Video) (i s : string) :
  (i, s) ∈ media vs ↔ ∃ v, v ∈ vs ∧ v_id v = i ∧ v_src v = s.
Proof.
  unfold media. rewrite list_elem_of_fmap. split.
  - intros (v & [= -> ->] & Hv). eauto.
  - intros (v & Hv & <- & <-). eauto.
Qed.

(** X6: in a registry that only [ensureVideoAsset] has filled there is,
    after the load and after any events, exactly one video element for each
    source a valid video layer names: its id is the id of that source, its
    source is the layer's source, and no other element has that id or that
    source.  The registry stays well formed, and the assets that were there
    before the load keep their places in front. *)
Theorem X6_one_video_per_source
    (w : World) (c : PropertyValue) (b : bool) (evs : list Event) :
  registry_ok (assets w) →
  chosen_card w = Some c →
  some_type_video (take MAX_LAYERS (raw_layers c)) = Ok b →
  let w1 := run evs (exec page_load w) in
  registry_ok (assets w1)
  ∧ media (assets w) `prefix_of` media (assets w1)
  ∧ ∀ (l : LayerSpec) (s : string),
      l ∈ valid_layers (take MAX_LAYERS (raw_layers c)) →
      layer_type l = Some "video" → layer_src l = Some s →
      ∃ v : Video,
        v ∈ assets w1 ∧ v_id v = video_id s ∧ v_src v = s
        ∧ ∀ v' : Video,
            v' ∈ assets w1 → v_src v' = s ∨ v_id v' = video_id s → v' = v.
Proof.
  intros Hok Hc Hb w1. subst w1.
  set (vl := valid_layers (take MAX_LAYERS (raw_layers c))).
  assert (Hm : media (assets (run evs (exec page_load w)))
               = media (foldl ensure_assets (assets w) (video_sources vl))).
  { rewrite (same_scene_media _ _ (run_same_scene evs (exec page_load w))).
    apply (page_load_media w c b); assumption. }
  assert (Hok1 : registry_ok (assets (run evs (exec page_load w)))).
  { apply (registry_ok_media _ _ Hm), registry_ok_ensure_all, Hok. }
  split; [exact Hok1|]. split.
  { rewrite Hm. destruct (ensure_all_prefix (video_sources vl) (assets w)) as (k & ->).
    unfold media. rewrite fmap_app. apply prefix_app_r. reflexivity. }
  intros l s Hl Ht Hs.
  assert (Hin : video_id s ∈ v_id <$> foldl ensure_assets (assets w) (video_sources vl)).
  { apply ensure_all_contains. unfold video_sources. apply list_elem_of_omap.
    exists l. split; [exact Hl|]. apply video_layer_source; assumption. }
  rewrite <- media_ids, <- Hm, media_ids in Hin.
  apply list_elem_of_fmap in Hin as (v & Hid & Hv).
  assert (Hsrc : v_src v = s).
  { destruct Hok1 as (_ & Hall). rewrite Forall_forall in Hall.
    apply video_id_inj. rewrite <- (Hall v Hv). congruence. }
  exists v. split; [exact Hv|]. split; [congruence|]. split; [exact Hsrc|].
  intros v' Hv' Hsame. apply (registry_unique _ _ _ Hok1 Hv Hv').
  destruct Hsame as [H|H]; [left|right]; congruence.
Qed.

Lemma X6_two_videos :
  ∃ v : Video,
    v ∈ assets (run [] (exec page_load (blank_page None (Some two_videos_config))))
    ∧ v_id v = video_id "clip.mp4" ∧ v_src v = "clip.mp4".
Proof.
  assert (Hok : registry_ok (assets (blank_page None (Some two_videos_config)))).
  { split; [apply NoDup_nil_2|apply Forall_nil_2]. }
  destruct (X6_one_video_per_source
              (blank_page None (Some two_videos_config))
              (OwnCard (card [Some (layer (Some "video") (Some "clip.mp4"));
                              Some (layer (Some "video") (Some "clip.mp4"))]))
              true [] Hok eq_refl eq_refl) as (_ & _ & H).
  destruct (H (layer (Some "video") (Some "clip.mp4")) "clip.mp4") as (v & Hv & Hi & Hs & _).
  - vm_compute. apply list_elem_of_here.
  - reflexivity.
  - reflexivity.
  - exists v. auto.
Defined.

(** ** The controls and the engine *)

Lemma controls_frame w w' :
  startBtnDisabled w' = startBtnDisabled w → stopBtnDisabled w' = stopBtnDisabled w →
  mindarSystem w' = mindarSystem w → controls_agree w → controls_agree w'.
Proof. unfold controls_agree, tracker_running. intros -> -> ->. auto. Qed.

Lemma hide_world_controls w :
  startBtnDisabled (hide_world w) = startBtnDisabled w
  ∧ stopBtnDisabled (hide_world w) = stopBtnDisabled w
  ∧ mindarSystem (hide_world w) = mindarSystem w.
Proof.
  destruct (hide_world_fields w)
    as (_ & _ & _ & _ & _ & _ & _ & _ & Hsb & Hpb & _ & Hm & _).
  auto.
Qed.

Lemma handler_controls (flag : World → bool) (h : M unit) (w : World) :
  controls_agree w → controls_agree (exec h w) →
  controls_agree (exec (when_listening flag h) w).
Proof.
  intros H0 H. unfold exec, when_listening in *. unfold_m.
  destruct (flag w); [exact H|exact H0].
Qed.

Lemma startBtn_click_controls o w :
  controls_agree w → controls_agree (exec (Part000.startBtn_click o) w).
Proof.
  intros H. unfold exec. destruct (mindarSystem w) as [t|] eqn:Hm.
  - assert (is_Some (mindarSystem w)) as Hsome by (rewrite Hm; eauto).
    destruct o.
    + rewrite (startBtn_click_resolves w Hsome). cbn [snd]. split; reflexivity.
    + rewrite (startBtn_click_rejects w Hsome). cbn [snd].
      destruct (hide_world_controls
                  (set_sceneShown true (set_statusLog (StStarting :: statusLog w) w)))
        as (Hsb & Hpb & Hm').
      exact (controls_frame w _ Hsb Hpb Hm' H).
  - rewrite (startBtn_click_not_ready o w Hm). cbn [snd].
    exact (controls_frame w _ eq_refl eq_refl eq_refl H).
Qed.

Lemma stopBtn_click_controls o w :
  controls_agree w → controls_agree (exec (Part000.stopBtn_click o) w).
Proof.
  intros H. unfold exec. destruct (mindarSystem w) as [t|] eqn:Hm.
  - assert (is_Some (mindarSystem w)) as Hsome by (rewrite Hm; eauto).
    destruct o.
    + rewrite (stopBtn_click_resolves w Hsome). cbn [snd]. split; reflexivity.
    + rewrite (stopBtn_click_rejects w Hsome). cbn [snd].
      destruct (hide_world_controls w) as (Hsb & Hpb & Hm').
      exact (controls_frame w _ Hsb Hpb Hm' H).
  - rewrite (stopBtn_click_not_ready o w Hm). exact H.
Qed.

Lemma dispatch_controls ev w :
  controls_agree w → controls_agree (exec (dispatch ev) w).
Proof.
  intros H. destruct ev as [|o|o|plays| |]; cbn [dispatch].
  - unfold exec, engine_ready. unfold_m. cbn [snd].
    destruct (mindarSystem w) eqn:Hm; [exact H|].
    unfold controls_agree, tracker_running in *. rewrite Hm in H. exact H.
  - apply handler_controls; [exact H|]. apply startBtn_click_controls, H.
  - apply handler_controls; [exact H|]. apply stopBtn_click_controls, H.
  - apply handler_controls; [exact H|].
    exact (controls_frame w _ eq_refl eq_refl eq_refl H).
  - apply handler_controls; [exact H|]. unfold exec. rewrite onTargetFound_eq.
    exact (controls_frame w _ eq_refl eq_refl eq_refl H).
  - apply handler_controls; [exact H|]. unfold exec. rewrite onTargetLost_eq. cbn [snd].
    destruct (hide_world_controls (set_statusLog (StTargetLost :: statusLog w) w))
      as (Hsb & Hpb & Hm').
    exact (controls_frame w _ Hsb Hpb Hm' H).
Qed.

Lemma run_controls evs : ∀ w, controls_agree w → controls_agree (run evs w).
Proof.
  induction evs as [|ev evs IH]; intros w H; cbn [run foldl]; [exact H|].
  apply IH, dispatch_controls, H.
Qed.

(** Loading touches neither control nor the engine. *)
Lemma page_load_controls w :
  startBtnDisabled (exec page_load w) = startBtnDisabled w
  ∧ stopBtnDisabled (exec page_load w) = stopBtnDisabled w
  ∧ mindarSystem (exec page_load w) = mindarSystem w.
Proof.
  unfold exec.
  destruct (page_load_cases w) as [(c & b & Hc & Hb & ->)|(e & w' & Hr & ->)];
    cbn [snd].
  - destruct (main_world_fields c b (script_loaded w))
      as (_ & _ & _ & _ & _ & _ & _ & _ & _ & _ & Hm & Hsb & Hpb).
    cbn zeta in *. rewrite Hm, Hsb, Hpb. repeat split.
  - destruct (resolve_card_rest (script_loaded w)) as (Hsb & Hpb & _ & Hm & _).
    unfold exec in *. rewrite Hr in *. cbn [snd] in *. world_simpl.
    rewrite Hm, Hsb, Hpb. repeat split.
Qed.

Lemma idle_iff_stopped w : trackingState w = Idle ↔ tracker_running w = false.
Proof.
  unfold trackingState, tracker_running.
  destruct (mindarSystem w) as [[[]]|]; cbn; destruct (anchorVisible w);
    split; congruence.
Qed.

(** X7: on a page whose controls agree with the engine when the script
    starts (start enabled, stop disabled, the engine not running), they
    agree after the load and after every sequence of events, each handler
    running to its end before the next: the start control is disabled
    exactly while the engine runs and the stop control exactly while it
    does not.  So start is enabled exactly in the idle state and stop
    exactly in the scanning and tracking states. *)
Theorem X7_controls_follow_the_engine (w0 : World) (evs : list Event) :
  controls_agree w0 →
  let w := run evs (exec page_load w0) in
  controls_agree w
  ∧ (startBtnDisabled w = false ↔ trackingState w = Idle)
  ∧ (stopBtnDisabled w = false ↔ trackingState w ≠ Idle).
Proof.
  intros H0 w.
  assert (H : controls_agree w).
  { apply run_controls.
    destruct (page_load_controls w0) as (Hsb & Hpb & Hm).
    exact (controls_frame w0 _ Hsb Hpb Hm H0). }
  split; [exact H|]. destruct H as (Hs & Hp).
  rewrite Hs, Hp, idle_iff_stopped.
  destruct (tracker_running w); cbn; (split; [split; congruence|]); split.
  - intros _. discriminate.
  - reflexivity.
  - discriminate.
  - intros H. contradiction H. reflexivity.
Qed.

Lemma X7_started_page :
  let w := run [StartClick Resolves] (exec page_load (engine_page one_image_config)) in
  startBtnDisabled w = true ∧ stopBtnDisabled w = false ∧ trackingState w ≠ Idle.
Proof.
  assert (H0 : controls_agree (engine_page one_image_config))
    by (split; reflexivity).
  pose proof (X7_controls_follow_the_engine
                (engine_page one_image_config) [StartClick Resolves] H0) as H.
  cbv zeta in *. destruct H as (_ & _ & H).
  split; [reflexivity|]. split; [reflexivity|]. apply H. reflexivity.
Defined.

(** ** The scene output and the engine *)








(** ** The overlays and the anchor *)

Lemma follow_frame w w' :
  spawnedEntities w' = spawnedEntities w → store w' = store w →
  anchorVisible w' = anchorVisible w →
  overlays_follow_anchor w → overlays_follow_anchor w'.
Proof. unfold overlays_follow_anchor, all_overlays. intros -> -> ->. auto. Qed.

Lemma follow_hide w : spawned_valid w → overlays_follow_anchor (hide_world w).
Proof.
  intros Hvalid. destruct (hide_world_hidden w Hvalid) as (Hav & Hall & _).
  unfold overlays_follow_anchor. rewrite Hav. exact Hall.
Qed.

(** A world built from [hide_world] by setters of other fields. *)
Lemma follow_after_hide w0 w' :
  spawned_valid w0 →
  spawnedEntities w' = spawnedEntities (hide_world w0) →
  store w' = store (hide_world w0) →
  anchorVisible w' = anchorVisible (hide_world w0) →
  overlays_follow_anchor w'.
Proof.
  intros Hvalid H1 H2 H3.
  exact (follow_frame (hide_world w0) w' H1 H2 H3 (follow_hide w0 Hvalid)).
Qed.

Lemma handler_follow (flag : World → bool) (h : M unit) (w : World) :
  overlays_follow_anchor w → overlays_follow_anchor (exec h w) →
  overlays_follow_anchor (exec (when_listening flag h) w).
Proof.
  intros H0 H. unfold exec, when_listening in *. unfold_m.
  destruct (flag w); [exact H|exact H0].
Qed.

Lemma dispatch_follow ev w :
  spawned_valid w → overlays_follow_anchor w →
  overlays_follow_anchor (exec (dispatch ev) w).
Proof.
  intros Hvalid H. destruct ev as [|o|o|plays| |]; cbn [dispatch].
  - unfold exec, engine_ready. unfold_m. cbn [snd].
    destruct (mindarSystem w); [exact H|].
    exact (follow_frame w _ eq_refl eq_refl eq_refl H).
  - apply handler_follow; [exact H|]. unfold exec.
    destruct (mindarSystem w) as [t|] eqn:Hm.
    + assert (is_Some (mindarSystem w)) as Hsome by (rewrite Hm; eauto).
      destruct o.
      * rewrite (startBtn_click_resolves w Hsome). cbn [snd].
        eapply follow_after_hide; [|reflexivity..]. exact Hvalid.
      * rewrite (startBtn_click_rejects w Hsome). cbn [snd].
        eapply follow_after_hide; [|reflexivity..]. exact Hvalid.
    + rewrite (startBtn_click_not_ready o w Hm). cbn [snd].
      exact (follow_frame w _ eq_refl eq_refl eq_refl H).
  - apply handler_follow; [exact H|]. unfold exec.
    destruct (mindarSystem w) as [t|] eqn:Hm.
    + assert (is_Some (mindarSystem w)) as Hsome by (rewrite Hm; eauto).
      destruct (hide_world_fields w) as (Hav & _).
      destruct o.
      * rewrite (stopBtn_click_resolves w Hsome). cbn [snd].
        eapply (follow_after_hide w); [exact Hvalid|reflexivity..|].
        world_simpl. symmetry. exact Hav.
      * rewrite (stopBtn_click_rejects w Hsome). cbn [snd].
        eapply (follow_after_hide w); [exact Hvalid|reflexivity..|].
        world_simpl. symmetry. exact Hav.
    + rewrite (stopBtn_click_not_ready o w Hm). exact H.
  - apply handler_follow; [exact H|].
    exact (follow_frame w _ eq_refl eq_refl eq_refl H).
  - apply handler_follow; [exact H|]. unfold exec. rewrite onTargetFound_eq. cbn [snd].
    unfold overlays_follow_anchor. world_simpl.
    apply (altered_overlays true _ (store w)); [exact Hvalid|reflexivity].
  - apply handler_follow; [exact H|]. unfold exec. rewrite onTargetLost_eq. cbn [snd].
    apply follow_hide. exact Hvalid.
Qed.

Lemma page_load_follow w : overlays_follow_anchor (exec page_load w).
Proof.
  pose proof (page_load_valid w) as Hvalid. revert Hvalid. unfold exec.
  destruct (page_load_cases w) as [(c & b & Hc & Hb & ->)|(e & w' & Hr & ->)];
    cbn [snd]; intros Hvalid.
  - unfold main_world in *. cbn zeta in *.
    set (w2 := set_sceneShown false _) in *.
    destruct (hide_world_fields w2) as (Hav & Hs & _ & Hsp & _). cbn zeta in *.
    assert (Hvalid2 : spawned_valid w2).
    { unfold spawned_valid in *. world_simpl. rewrite Hsp, Hs in Hvalid.
      unfold hide_store in Hvalid. rewrite foldl_alter_length in Hvalid. exact Hvalid. }
    apply (follow_after_hide w2); [exact Hvalid2|reflexivity..|].
    world_simpl. symmetry. exact Hav.
  - unfold overlays_follow_anchor, all_overlays. world_simpl.
    destruct (resolve_card_frame (script_loaded w)) as (Hsp & _).
    unfold exec in Hsp. rewrite Hr in Hsp. cbn [snd] in Hsp. rewrite Hsp.
    constructor.
Qed.

(** X9: the overlays are shown and hidden together with the anchor.
    After the load and after every sequence of events, every spawned
    overlay has the visibility of the anchor: all are hidden while the
    anchor is hidden, as after the load, a start, a stop or a lost target,
    and all are visible while it is visible, as after a found target.  No
    handler leaves some overlays shown and others hidden. *)
Theorem X9_overlays_follow_the_anchor (w0 : World) (evs : list Event) :
  let w := run evs (exec page_load w0) in
  all_overlays (λ e, e_visible e = anchorVisible w) (spawnedEntities w) w.
Proof.
  cbn zeta. induction evs as [|ev evs IH] using rev_ind.
  - apply page_load_follow.
  - rewrite run_app. cbn [run foldl].
    apply dispatch_follow; [apply session_valid|exact IH].
Qed.

(** ** The entity's own material *)

Lemma overlay_material bust l : e_material (overlay_of bust l) = None.
Proof.
  unfold overlay_of, layer_anim_init.
  destruct (e_layer_anim _); [|reflexivity].
  destruct (e_position _) as [[x y] z]. reflexivity.
Qed.

Lemma overlays_at_all (P : Entity → Prop) (rs : list nat) (w : World) : ∀ es,
  overlays_at rs w = Some <$> es → Forall P es → all_overlays P rs w.
Proof.
  unfold all_overlays, overlays_at.
  induction rs as [|r rs IH]; intros es Hes HP; [constructor|].
  destruct es as [|e es]; [discriminate|].
  rewrite !fmap_cons in Hes. injection Hes as Hr Hrs.
  apply Forall_cons in HP as (He & HP).
  constructor; [eauto|]. exact (IH es Hrs HP).
Qed.

Lemma page_load_materials w :
  all_overlays (λ e, e_material e = None) (spawnedEntities (exec page_load w))
    (exec page_load w).
Proof.
  destruct (page_load_cases w) as [(c & b & Hc & Hb & _)|(e & w' & Hr & Hp)].
  - destruct (loaded_overlays w c b Hc Hb) as (Hov & _).
    apply (overlays_at_all _ _ _ _ Hov).
    apply Forall_fmap, Forall_forall. intros l _. apply overlay_material.
  - unfold all_overlays, exec. rewrite Hp. cbn [snd]. world_simpl.
    destruct (resolve_card_frame (script_loaded w)) as (Hsp & _).
    unfold exec in Hsp. rewrite Hr in Hsp. cbn [snd] in Hsp. rewrite Hsp.
    constructor.
Qed.

Lemma same_scene_materials w w' :
  same_scene w w' →
  all_overlays (λ e, e_material e = None) (spawnedEntities w) w →
  all_overlays (λ e, e_material e = None) (spawnedEntities w') w'.
Proof.
  intros (Hsp & _ & Hst & _) H. unfold all_overlays in *. rewrite Hsp.
  apply (Forall_impl _ _ _ H). intros r (e & He & Hm).
  assert (Hr : (set_e_visible true <$> store w') !! r
               = (set_e_visible true <$> store w) !! r) by (rewrite Hst; reflexivity).
  rewrite !list_lookup_fmap, He in Hr.
  destruct (store w' !! r) as [e'|]; [|discriminate].
  exists e'. split; [reflexivity|].
  cbn [fmap option_fmap option_map] in Hr. apply (inj Some) in Hr.
  apply (f_equal e_material) in Hr. cbn in Hr. congruence.
Qed.

(** X10: the reset of the video behind one entity never runs.  The first
    loop of [hideAllOverlaysAndReset] looks for a [material] attribute on
    each spawned entity, but the script puts the material on the plane
    inside the entity, never on the entity, and no handler changes that:
    after the load and after any events no spawned entity has a material of
    its own, so a turn of that loop only hides the entity and changes no
    asset.  The videos are reset by the second loop alone. *)
Theorem X10_entity_reset_never_runs (w0 : World) (evs : list Event) :
  let w := run evs (exec page_load w0) in
  all_overlays (λ e, e_material e = None) (spawnedEntities w) w
  ∧ ∀ r : nat,
      r ∈ spawnedEntities w →
      Part000.hide_entity r w
      = (Ok tt, set_store (alter (set_e_visible false) r (store w)) w).
Proof.
  cbn zeta.
  assert (H : all_overlays (λ e, e_material e = None)
                (spawnedEntities (run evs (exec page_load w0)))
                (run evs (exec page_load w0))).
  { apply (same_scene_materials (exec page_load w0)); [apply run_same_scene|].
    apply page_load_materials. }
  split; [exact H|].
  intros r Hr. unfold all_overlays in H. rewrite Forall_forall in H.
  destruct (H r Hr) as (e & He & Hm).
  unfold Part000.hide_entity. unfold_m. rewrite He, Hm.
  rewrite (alter_insert_lookup _ _ _ _ He). reflexivity.
Qed.

(** ** Hiding twice, and a target found and lost *)

Lemma World_eq (w w' : World) :
  location_id w = location_id w' → cardsJson w = cardsJson w' →
  dateNow w = dateNow w' → statusLog w = statusLog w' → igHref w = igHref w' →
  videoBtnDisplay w = videoBtnDisplay w' →
  startBtnDisabled w = startBtnDisabled w' → stopBtnDisabled w = stopBtnDisabled w' →
  sceneShown w = sceneShown w' → mindarSystem w = mindarSystem w' →
  assets w = assets w' → anchorVisible w = anchorVisible w' →
  anchorChildren w = anchorChildren w' → store w = store w' →
  spawnedEntities w = spawnedEntities w' →
  targetListeners w = targetListeners w' → clickListeners w = clickListeners w' →
  w = w'.
Proof. destruct w, w'. cbn. intros. subst. reflexivity. Qed.

(** The loop of [hideAllOverlaysAndReset] reads nothing of the page but the
    overlays and the assets. *)
Lemma hide_loop_env rs : ∀ w,
  let w' := foldl hide_step w rs in
  location_id w' = location_id w ∧ cardsJson w' = cardsJson w ∧ dateNow w' = dateNow w.
Proof.
  induction rs as [|r rs IH]; intros w; cbn [foldl]; [cbn zeta; auto|].
  cbn zeta. destruct (hide_entity_eq r w) as (vs & Heq & _).
  assert (hide_step w r
          = set_assets vs (set_store (alter (set_e_visible false) r (store w)) w)) as ->.
  { unfold hide_step, exec. rewrite Heq. reflexivity. }
  exact (IH (set_assets vs (set_store (alter (set_e_visible false) r (store w)) w))).
Qed.

(** [hideAllOverlaysAndReset] in closed form. *)
Lemma hide_world_eq w :
  hide_world w
  = set_assets (Part000.reset_video <$> assets w)
      (set_store (hide_store (spawnedEntities w) (store w)) (set_anchorVisible false w)).
Proof.
  destruct (hide_world_fields w)
    as (Hav & Hs & Has & Hsp & Han & Hst & Hig & Hvb & Hsb & Hpb & Hsc & Hm & Htl & Hcl).
  assert (Henv : location_id (hide_world w) = location_id w
                 ∧ cardsJson (hide_world w) = cardsJson w
                 ∧ dateNow (hide_world w) = dateNow w).
  { unfold hide_world, exec, Part000.hideAllOverlaysAndReset, Part000.setAnchorVisible.
    unfold_m. world_simpl.
    rewrite (for_of_total _ hide_step hide_entity_total). world_simpl.
    apply (hide_loop_env (spawnedEntities w) (set_anchorVisible false w)). }
  destruct Henv as (Hl & Hc & Hd).
  cbn zeta in *. apply World_eq; world_simpl; assumption.
Qed.

Lemma hide_store_idem (rs : list nat) (s : list Entity) :
  hide_store rs (hide_store rs s) = hide_store rs s.
Proof.
  unfold hide_store. apply list_eq. intros i.
  rewrite !(foldl_alter_lookup (set_e_visible false) rs) by reflexivity.
  destruct (bool_decide (i ∈ rs)); [|reflexivity].
  destruct (s !! i); reflexivity.
Qed.

Lemma hide_store_shown (rs : list nat) (s : list Entity) :
  hide_store rs (show_store rs s) = hide_store rs s.
Proof.
  unfold hide_store, show_store. apply list_eq. intros i.
  rewrite !(foldl_alter_lookup (set_e_visible false) rs) by reflexivity.
  rewrite (foldl_alter_lookup (set_e_visible true) rs) by reflexivity.
  destruct (bool_decide (i ∈ rs)); [|reflexivity].
  destruct (s !! i); reflexivity.
Qed.

Lemma hide_world_idem w : hide_world (hide_world w) = hide_world w.
Proof.
  rewrite (hide_world_eq (hide_world w)), (hide_world_eq w). world_simpl.
  rewrite hide_store_idem, reset_reset. reflexivity.
Qed.

(** X11: hiding is idempotent, and a target that is found and then lost
    leaves the page as a target lost alone does.  Running
    [hideAllOverlaysAndReset] twice gives the world one run gives; the
    [setAnchorVisible(anchor, false)] that [main] and the stop handler call
    right after it changes nothing; and after [targetFound] followed by
    [targetLost] every field but the status text is what [targetLost] alone
    leaves. *)
Theorem X11_hiding_is_idempotent (w : World) :
  hide_world (hide_world w) = hide_world w
  ∧ exec (Part000.setAnchorVisible false) (hide_world w) = hide_world w
  ∧ ∀ log : list Status,
      set_statusLog log (run [TargetFound; TargetLost] w)
      = set_statusLog log (run [TargetLost] w).
Proof.
  split; [apply hide_world_idem|]. split.
  { rewrite (hide_world_eq w). reflexivity. }
  intros log. cbn [run foldl dispatch].
  unfold exec, when_listening. unfold_m.
  destruct (targetListeners w) eqn:Ht.
  - rewrite onTargetFound_eq. cbn [fst snd]. world_simpl. rewrite Ht.
    rewrite !onTargetLost_eq. cbn [snd].
    rewrite !hide_world_eq. world_simpl. rewrite hide_store_shown. reflexivity.
  - cbn [snd]. rewrite Ht. reflexivity.
Qed.

(** ** A tracker that refuses to stop *)

(** X12: when the engine's [stop()] rejects, the stop handler of the later
    build lets the rejection escape: by then the overlays are hidden and the
    videos reset, but the scene output is not hidden, the controls stay as
    they were (stop enabled, start disabled while the engine ran) and no
    status is written.  The stop handler of the first build lets it escape
    with nothing changed at all.  The start handlers of both builds never
    throw. *)
Theorem X12_rejected_stop_escapes (w : World) :
  is_Some (mindarSystem w) →
  let w' := exec (Part000.stopBtn_click Rejects) w in
  fst (Part000.stopBtn_click Rejects w) = Throw TrackerRejected
  ∧ w' = set_anchorVisible false (hide_world w)
  ∧ startBtnDisabled w' = startBtnDisabled w
  ∧ stopBtnDisabled w' = stopBtnDisabled w
  ∧ mindarSystem w' = mindarSystem w
  ∧ sceneShown w' = sceneShown w
  ∧ statusLog w' = statusLog w
  ∧ MainJs.stopBtn_click Rejects w = (Throw TrackerRejected, w)
  ∧ ∀ o : Outcome,
      fst (Part000.startBtn_click o w) = Ok tt ∧ fst (MainJs.startBtn_click o w) = Ok tt.
Proof.
  intros Hsome w'. subst w'. unfold exec.
  rewrite (stopBtn_click_rejects w Hsome). cbn [fst snd].
  destruct (hide_world_fields w)
    as (_ & _ & _ & _ & _ & Hst & _ & _ & Hsb & Hpb & Hsc & Hm & _).
  cbn zeta in *. world_simpl.
  repeat (split; [assumption || reflexivity|]).
  split.
  { unfold MainJs.stopBtn_click. unfold_m. destruct Hsome as (t & ->). reflexivity. }
  intros o. split; [apply start_never_throws|].
  destruct (mindarSystem w) as [t|] eqn:Hm'.
  - destruct o.
    + rewrite mainjs_start_resolves by (rewrite Hm'; eauto). reflexivity.
    + rewrite mainjs_start_rejects by (rewrite Hm'; eauto). reflexivity.
  - rewrite (mainjs_start_not_ready o w Hm'). reflexivity.
Qed.

Lemma X12_engine_refuses :
  fst (Part000.stopBtn_click Rejects (engine_page one_image_config))
  = Throw TrackerRejected.
Proof.
  assert (Hsome : is_Some (mindarSystem (engine_page one_image_config)))
    by (eexists; reflexivity).
  exact (proj1 (X12_rejected_stop_escapes (engine_page one_image_config) Hsome)).
Defined.

(** ** Frames that move nothing *)










(** ** Loading in the first build *)

Lemma mainjs_build_total l w : MainJs.build_layer l w = (Ok tt, mainjs_build_world w l).
Proof.
  unfold mainjs_build_world, exec. destruct l as [l|]; [|reflexivity].
  unfold MainJs.build_layer.
  destruct (_ || _); [reflexivity|].
  repeat (destruct (field_is _ _); [ try reflexivity | ]); try reflexivity.
  unfold MainJs.addVideoLayer. unfold_m. rewrite ensureVideoAsset_eq. reflexivity.
Qed.

Lemma mainjs_build_invalid l w : valid_spec l = false → mainjs_build_world w l = w.
Proof.
  unfold mainjs_build_world, exec. destruct l as [l|]; [|reflexivity].
  intros H. unfold MainJs.build_layer.
  destruct (valid_spec_false l H) as [Ht|[Hs|(t & Ht & Hv)]].
  - rewrite Ht. reflexivity.
  - rewrite Hs, orb_true_r. reflexivity.
  - destruct (_ || _); [reflexivity|].
    rewrite Ht. unfold variant_for in Hv. unfold field_is.
    destruct (strict_eq t "image"); [discriminate|].
    destruct (strict_eq t "gif"); [discriminate|].
    destruct (strict_eq t "model"); [discriminate|].
    destruct (strict_eq t "video"); [discriminate|].
    reflexivity.
Qed.

Lemma mainjs_build_gif l w : not_gif l = false → mainjs_build_world w (Some l) = w.
Proof.
  unfold not_gif. intros H. apply negb_false_iff, field_is_true in H.
  unfold mainjs_build_world, exec. rewrite (mainjs_gif_skipped l w H). reflexivity.
Qed.

Lemma mainjs_build_valid l w :
  valid_spec (Some l) = true → not_gif l = true →
  mainjs_build_world w (Some l)
  = attach_world
      (MainJs.appendChild (mainjs_overlay_child l) (MainJs.makeEntityCommon l))
      (set_assets
         (match video_source l with
          | Some src => ensure_assets (assets w) src
          | None => assets w
          end) w).
Proof.
  intros H Hgif. apply valid_spec_Some in H as (t & Ht & Hin & Hsrc).
  revert Hgif.
  unfold mainjs_build_world, exec, MainJs.build_layer, mainjs_overlay_child, video_source,
    not_gif.
  rewrite Ht, Hsrc. cbn [truthy_field]. rewrite (type_truthy t Hin). cbn [negb orb].
  destruct w. unfold layer_types in Hin.
  rewrite !elem_of_cons, elem_of_nil in Hin.
  destruct Hin as [->|[->|[->|[->|[]]]]];
    cbn [field_is strict_eq String.eqb Ascii.eqb Bool.eqb];
    try reflexivity; try discriminate.
  intros _. unfold MainJs.addVideoLayer. unfold_m. rewrite ensureVideoAsset_eq. reflexivity.
Qed.

Lemma mainjs_layers_cons_built l ls :
  valid_spec (Some l) = true → not_gif l = true →
  mainjs_layers (Some l :: ls) = l :: mainjs_layers ls.
Proof.
  intros Hv Hg. unfold mainjs_layers. rewrite (valid_layers_cons_valid l ls Hv).
  cbn [List.filter]. rewrite Hg. reflexivity.
Qed.

Lemma mainjs_layers_cons_gif l ls :
  valid_spec (Some l) = true → not_gif l = false →
  mainjs_layers (Some l :: ls) = mainjs_layers ls.
Proof.
  intros Hv Hg. unfold mainjs_layers. rewrite (valid_layers_cons_valid l ls Hv).
  cbn [List.filter]. rewrite Hg. reflexivity.
Qed.

Lemma mainjs_layers_cons_invalid l ls :
  valid_spec l = false → mainjs_layers (l :: ls) = mainjs_layers ls.
Proof.
  intros Hv. unfold mainjs_layers. rewrite (valid_layers_cons_invalid l ls Hv).
  reflexivity.
Qed.

(** The loop of the first build adds the overlays of the valid layers that
    are no gif, in order, to the store and to the anchor; it registers the
    video sources; it leaves everything else as it is. *)
Lemma mainjs_build_loop ls : ∀ w,
  let w' := foldl mainjs_build_world w ls in
  store w' = store w ++ (mainjs_overlay_of <$> mainjs_layers ls)
  ∧ anchorChildren w'
    = anchorChildren w ++ seq (length (store w)) (length (mainjs_layers ls))
  ∧ assets w' = foldl ensure_assets (assets w) (video_sources (mainjs_layers ls))
  ∧ spawnedEntities w' = spawnedEntities w
  ∧ statusLog w' = statusLog w
  ∧ igHref w' = igHref w
  ∧ videoBtnDisplay w' = videoBtnDisplay w
  ∧ startBtnDisabled w' = startBtnDisabled w
  ∧ stopBtnDisabled w' = stopBtnDisabled w
  ∧ sceneShown w' = sceneShown w
  ∧ mindarSystem w' = mindarSystem w
  ∧ anchorVisible w' = anchorVisible w
  ∧ targetListeners w' = targetListeners w
  ∧ clickListeners w' = clickListeners w.
Proof.
  induction ls as [|x ls IH]; intros w; cbn [foldl].
  - cbn zeta. rewrite !app_nil_r. repeat split; reflexivity.
  - destruct (valid_spec x) eqn:Hx.
    + destruct x as [l|]; [|discriminate].
      destruct (not_gif l) eqn:Hg.
      * rewrite (mainjs_layers_cons_built l ls Hx Hg), (mainjs_build_valid l w Hx Hg).
        set (w1 := attach_world _ _).
        assert (store w1 = store w ++ [mainjs_overlay_of l]) as Hs1 by reflexivity.
        assert (anchorChildren w1 = anchorChildren w ++ [length (store w)]) as Han1
          by reflexivity.
        assert (assets w1 = match video_source l with
                            | Some src => ensure_assets (assets w) src
                            | None => assets w
                            end) as Has1 by reflexivity.
        destruct (IH w1) as (Hs & Han & Has & Hrest).
        rewrite Hs, Han, Has, Hs1, Han1, Has1.
        rewrite length_app. cbn [length]. rewrite Nat.add_1_r.
        rewrite <- !app_assoc. cbn [fmap list_fmap length seq app].
        repeat split; try reflexivity; try apply Hrest.
        unfold video_sources. cbn [omap list_omap].
        destruct (video_source l); reflexivity.
      * rewrite (mainjs_layers_cons_gif l ls Hx Hg), (mainjs_build_gif l w Hg).
        apply IH.
    + rewrite (mainjs_layers_cons_invalid x ls Hx), (mainjs_build_invalid x w Hx).
      apply IH.
Qed.

Lemma mainjs_main_returns w c b :
  chosen_card w = Some c →
  some_type_video (take MAX_LAYERS (raw_layers c)) = Ok b →
  MainJs.main w = (Ok tt, mainjs_world c b w).
Proof.
  intros Hc Hb. unfold MainJs.main. unfold_m.
  rewrite (resolve_card_returns w c b Hc Hb).
  unfold clearAnchor, setStatus. unfold_m.
  rewrite (for_of_total _ mainjs_build_world mainjs_build_total). reflexivity.
Qed.

Lemma mainjs_overlay_visible l : e_visible (mainjs_overlay_of l) = true.
Proof.
  unfold mainjs_overlay_of, layer_anim_init.
  destruct (e_layer_anim _); [|reflexivity].
  destruct (e_position _) as [[x y] z]. reflexivity.
Qed.

Lemma mainjs_layers_le ls : (length (mainjs_layers (take MAX_LAYERS ls)) ≤ MAX_LAYERS)%nat.
Proof.
  unfold mainjs_layers. etrans; [apply List.filter_length_le|].
  etrans; [apply valid_layers_le_length|]. rewrite length_take. lia.
Qed.

(** X14: a load in the first build.  [main] of [src/main.js] returns and
    leaves, as the children of the anchor, exactly the overlays of the valid
    layers among the first five entries that are no gif, in order and at
    most five; the anchor's earlier children are gone.  Every overlay is
    visible and stays so, since this build hides nothing: the anchor's
    visibility and the scene output are as they were.  The registry holds
    the sources of the video layers among them, never played or reset by the
    load itself. *)
Theorem X14_first_build_load (w : World) (c : PropertyValue) (b : bool) :
  chosen_card w = Some c →
  some_type_video (take MAX_LAYERS (raw_layers c)) = Ok b →
  let built := mainjs_layers (take MAX_LAYERS (raw_layers c)) in
  let w1 := exec MainJs.onDOMContentLoaded w in
  MainJs.main w = (Ok tt, w1)
  ∧ store w1 = store w ++ (mainjs_overlay_of <$> built)
  ∧ overlays_at (anchorChildren w1) w1 = Some <$> (mainjs_overlay_of <$> built)
  ∧ (length built ≤ MAX_LAYERS)%nat
  ∧ Forall (λ e, e_visible e = true) (mainjs_overlay_of <$> built)
  ∧ assets w1 = foldl ensure_assets (assets w) (video_sources built)
  ∧ statusLog w1 = StReady :: resolve_log w
  ∧ videoBtnDisplay w1 = Some (if b then InlineBlock else DisplayNone)
  ∧ anchorVisible w1 = anchorVisible w
  ∧ sceneShown w1 = sceneShown w
  ∧ spawnedEntities w1 = spawnedEntities w
  ∧ clickListeners w1 = true.
Proof.
  intros Hc Hb built w1.
  assert (Hw1 : w1 = mainjs_world c b w).
  { subst w1. unfold exec, MainJs.onDOMContentLoaded. unfold_m.
    rewrite (mainjs_main_returns w c b Hc Hb). reflexivity. }
  rewrite Hw1. split; [apply mainjs_main_returns; assumption|].
  unfold mainjs_world. cbn zeta.
  destruct (mainjs_build_loop (take MAX_LAYERS (raw_layers c))
              (set_anchorChildren [] (resolved_world c b w)))
    as (Bs & Ban & Bas & Bsp & Bst & Big & Bvb & Bsb & Bpb & Bsc & Bm & Bav & Btl & Bcl).
  cbn zeta in *. set (w2 := foldl mainjs_build_world _ _) in *.
  unfold resolved_world in *. world_simpl. fold built in Bs, Ban, Bas.
  split; [exact Bs|]. split.
  { unfold overlays_at. world_simpl. rewrite Ban. cbn [app].
    pose proof (overlays_at_fresh (store w) (mainjs_overlay_of <$> built) w2 Bs) as H.
    unfold overlays_at in H. rewrite length_fmap in H. exact H. }
  split; [apply mainjs_layers_le|]. split.
  { apply Forall_fmap, Forall_forall. intros l _. apply mainjs_overlay_visible. }
  rewrite Bas, Bst, Bvb, Bav, Bsc, Bsp. repeat split.
Qed.

Lemma X14_mixed_card :
  (λ o : option Entity, o ≫= variant_of)
    <$> overlays_at
          (anchorChildren (exec MainJs.onDOMContentLoaded
                             (blank_page None (Some mixed_config))))
          (exec MainJs.onDOMContentLoaded (blank_page None (Some mixed_config)))
  = [Some TexturedPlane; Some VideoPlane].
Proof.
  pose proof (X14_first_build_load
                (blank_page None (Some mixed_config))
                (OwnCard (card [Some (layer (Some "image") (Some "a.png"));
                                Some (layer (Some "gif") (Some "b.gif"));
                                Some (layer (Some "video") (Some "clip.mp4"))]))
                true eq_refl eq_refl) as H.
  cbv zeta in H. destruct H as (_ & _ & -> & _). reflexivity.
Defined.


(** ** The [always-on-top] component *)

Section always_on_top.

Import AlwaysOnTop.

(** Induction on a tree of nodes: the children come as a list. *)
Lemma Object3D_tree_ind (P : Object3D → Prop) :
  (∀ m r mat cs, Forall P cs → P (Node m r mat cs)) → ∀ o, P o.
Proof.
  intros H. fix IH 1. intros [m r mat cs]. apply H.
  induction cs as [|c cs IHcs]; constructor; [apply IH|exact IHcs].
Qed.

Lemma mark_all_marks (ms : list (option nat)) : ∀ h : gmap nat MeshMaterial,
  mark_all ms h = foldl mark h (omap id ms).
Proof.
  unfold mark_all. induction ms as [|[a|] ms IH]; intros h; cbn [foldl omap list_omap].
  - reflexivity.
  - cbn [id]. cbn [foldl]. apply IH.
  - apply IH.
Qed.

(** The heap after marking a list of addresses. *)
Lemma marked_lookup (addrs : list nat) : ∀ (h : gmap nat MeshMaterial) (a : nat),
  foldl mark h addrs !! a
  = if bool_decide (a ∈ addrs) then on_top <$> h !! a else h !! a.
Proof.
  induction addrs as [|x addrs IH]; intros h a; cbn [foldl]; [reflexivity|].
  rewrite IH. unfold mark.
  destruct (decide (a = x)) as [->|Hne].
  - rewrite lookup_alter_eq.
    rewrite (bool_decide_eq_true_2 (x ∈ x :: addrs)) by apply list_elem_of_here.
    destruct (bool_decide (x ∈ addrs)); destruct (h !! x); reflexivity.
  - rewrite lookup_alter_ne by congruence.
    destruct (bool_decide (a ∈ addrs)) eqn:Hin.
    + apply bool_decide_eq_true in Hin.
      rewrite (bool_decide_eq_true_2 (a ∈ x :: addrs)) by (apply list_elem_of_further, Hin).
      reflexivity.
    + apply bool_decide_eq_false in Hin.
      rewrite (bool_decide_eq_false_2 (a ∈ x :: addrs)); [reflexivity|].
      rewrite elem_of_cons. tauto.
Qed.

Lemma traverse_all_eq (cs : list Object3D) :
  Forall (λ c, ∀ h, traverse c h = (retag c, foldl mark h (mesh_materials c))) cs →
  ∀ h, traverse_all traverse cs h
       = (map retag cs, foldl mark h (concat (map mesh_materials cs))).
Proof.
  induction 1 as [|c cs Hc _ IH]; intros h; cbn [traverse_all map concat].
  - reflexivity.
  - rewrite Hc, IH, foldl_app. reflexivity.
Qed.

(** The traversal in closed form: the tree is retagged, and the heap is
    marked at the materials of the meshes. *)
Lemma traverse_eq (o : Object3D) : ∀ h,
  traverse o h = (retag o, foldl mark h (mesh_materials o)).
Proof.
  induction o as [m r mat cs IH] using Object3D_tree_ind; intros h.
  cbn [traverse retag mesh_materials]. unfold visit.
  destruct m.
  - rewrite (traverse_all_eq cs IH), foldl_app, mark_all_marks. reflexivity.
  - rewrite (traverse_all_eq cs IH). reflexivity.
Qed.

Lemma retag_idem (o : Object3D) : retag (retag o) = retag o.
Proof.
  induction o as [m r mat cs IH] using Object3D_tree_ind.
  cbn [retag]. f_equal; [destruct m; reflexivity|].
  induction IH as [|c cs Hc _ IHcs]; cbn [map]; [reflexivity|].
  rewrite Hc, IHcs. reflexivity.
Qed.

Lemma retag_materials (o : Object3D) : mesh_materials (retag o) = mesh_materials o.
Proof.
  induction o as [m r mat cs IH] using Object3D_tree_ind.
  cbn [retag mesh_materials]. f_equal. f_equal.
  induction IH as [|c cs Hc _ IHcs]; cbn [map]; [reflexivity|].
  rewrite Hc, IHcs. reflexivity.
Qed.

Lemma retag_kinds (o : Object3D) : kind <$> nodes (retag o) = kind <$> nodes o.
Proof.
  induction o as [m r mat cs IH] using Object3D_tree_ind.
  cbn [retag nodes]. rewrite !fmap_cons. f_equal.
  induction IH as [|c cs Hc _ IHcs]; cbn [map concat]; [reflexivity|].
  rewrite !fmap_app, Hc, IHcs. reflexivity.
Qed.

(** After retagging every mesh is at 999, and no other node has moved. *)
Lemma retag_orders (o : Object3D) :
  renderOrder_of <$> nodes (retag o)
  = (λ n, if isMesh_of n then 999%Z else renderOrder_of n) <$> nodes o.
Proof.
  induction o as [m r mat cs IH] using Object3D_tree_ind.
  cbn [retag nodes]. rewrite !fmap_cons. f_equal.
  induction IH as [|c cs Hc _ IHcs]; cbn [map concat]; [reflexivity|].
  rewrite !fmap_app, Hc, IHcs. reflexivity.
Qed.

(** The materials of the meshes, node by node. *)
Lemma mesh_materials_nodes (o : Object3D) (a : nat) :
  a ∈ mesh_materials o ↔
  ∃ n, n ∈ nodes o ∧ isMesh_of n = true ∧ Some a ∈ mats (material_of n).
Proof.
  induction o as [m r mat cs IH] using Object3D_tree_ind.
  assert (Hcs : a ∈ concat (map mesh_materials cs) ↔
                ∃ n, n ∈ concat (map nodes cs)
                     ∧ isMesh_of n = true ∧ Some a ∈ mats (material_of n)).
  { induction IH as [|c cs Hc _ IHcs]; cbn [map concat].
    - split; [intros H; inversion H|intros (n & H & _); inversion H].
    - rewrite elem_of_app, Hc, IHcs. split.
      + intros [(n & Hn & H)|(n & Hn & H)]; exists n;
          (split; [apply elem_of_app; auto|exact H]).
      + intros (n & Hn & H). apply elem_of_app in Hn as [Hn|Hn]; [left|right]; eauto. }
  cbn [mesh_materials nodes]. rewrite elem_of_app, Hcs. split.
  - intros [Ha|(n & Hn & H)].
    + destruct m; [|inversion Ha].
      apply list_elem_of_omap in Ha as (x & Hx & Hid). cbn in Hid. subst x.
      exists (Node true r mat cs). split; [apply list_elem_of_here|]. auto.
    + exists n. split; [apply list_elem_of_further, Hn|exact H].
  - intros (n & Hn & Hm & Hmat). apply elem_of_cons in Hn as [->|Hn].
    + left. cbn in Hm, Hmat. rewrite Hm. apply list_elem_of_omap.
      exists (Some a). auto.
    + right. eauto.
Qed.

Lemma apply_eq (m : bool) (r : Z) (mat : MaterialRef) (cs : list Object3D)
    (h : gmap nat MeshMaterial) :
  apply (Node m r mat cs) h
  = (retag (Node m 999 mat cs), foldl mark h (mesh_materials (Node m r mat cs))).
Proof. unfold apply. rewrite traverse_eq. reflexivity. Qed.

Lemma marked_twice (addrs : list nat) (h : gmap nat MeshMaterial) :
  foldl mark (foldl mark h addrs) addrs = foldl mark h addrs.
Proof.
  apply map_eq. intros a. rewrite !marked_lookup.
  destruct (bool_decide (a ∈ addrs)); [|reflexivity].
  destruct (h !! a); reflexivity.
Qed.

(** X15: what [apply] of the [always-on-top] component leaves.  The root
    is at render order 999 and so is every mesh under it, however deep; a
    node that is neither keeps its render order.  Every material a mesh of
    the tree refers to, alone or in an array, has [depthTest] and
    [depthWrite] off and [transparent] and [needsUpdate] on, and keeps its
    other properties; a material no mesh of the tree refers to is not
    touched, also when a node that is no mesh refers to it.  The shape of
    the tree and the references stay.  Applying again, as every
    [model-loaded] does, changes nothing more. *)
Theorem X15_always_on_top (obj : Object3D) (h : gmap nat MeshMaterial) :
  let obj' := fst (apply obj h) in
  let h' := snd (apply obj h) in
  renderOrder_of obj' = 999%Z
  ∧ Forall (λ n, isMesh_of n = true → renderOrder_of n = 999%Z) (nodes obj')
  ∧ tail (renderOrder_of <$> nodes obj')
    = tail ((λ n, if isMesh_of n then 999%Z else renderOrder_of n) <$> nodes obj)
  ∧ kind <$> nodes obj' = kind <$> nodes obj
  ∧ (∀ (n : Object3D) (a : nat) (m : MeshMaterial),
       n ∈ nodes obj' → isMesh_of n = true → Some a ∈ mats (material_of n) →
       h' !! a = Some m →
       drawn_on_top m ∧ needsUpdate m = true)
  ∧ (∀ a : nat,
       h' !! a = if bool_decide (a ∈ mesh_materials obj)
                 then on_top <$> h !! a else h !! a)
  ∧ apply obj' h' = (obj', h').
Proof.
  destruct obj as [m r mat cs]. rewrite apply_eq. cbn [fst snd].
  set (obj := Node m r mat cs). set (top := Node m 999 mat cs).
  assert (Hmats : mesh_materials top = mesh_materials obj) by reflexivity.
  assert (Hlook : ∀ a : nat,
            foldl mark h (mesh_materials obj) !! a
            = if bool_decide (a ∈ mesh_materials obj) then on_top <$> h !! a else h !! a)
    by (intros a; apply marked_lookup).
  split; [destruct m; reflexivity|]. split.
  { apply Forall_forall. intros n Hn Hmesh.
    pose proof (retag_orders top) as Hord.
    apply list_elem_of_lookup in Hn as (i & Hi).
    assert (Hi' : (renderOrder_of <$> nodes (retag top)) !! i = Some (renderOrder_of n))
      by (rewrite list_lookup_fmap, Hi; reflexivity).
    rewrite Hord, list_lookup_fmap in Hi'.
    pose proof (retag_kinds top) as Hkind.
    assert (Hk : (kind <$> nodes (retag top)) !! i = Some (kind n))
      by (rewrite list_lookup_fmap, Hi; reflexivity).
    rewrite Hkind, list_lookup_fmap in Hk.
    destruct (nodes top !! i) as [n0|]; [|discriminate].
    cbn in Hi', Hk. injection Hk as Hk _. rewrite Hk, Hmesh in Hi'.
    congruence. }
  split; [rewrite retag_orders; reflexivity|].
  split; [rewrite retag_kinds; reflexivity|].
  split.
  { intros n a mm Hn Hmesh Hmat Hmm.
    assert (Ha : a ∈ mesh_materials obj).
    { rewrite <- Hmats, <- (retag_materials top). apply mesh_materials_nodes. eauto. }
    rewrite Hlook, (bool_decide_eq_true_2 _ Ha) in Hmm.
    destruct (h !! a) as [m0|]; [|discriminate].
    injection Hmm as <-. repeat split. }
  split; [exact Hlook|].
  assert (Hretag : retag top = Node m 999 mat (map retag cs))
    by (cbn [retag]; destruct m; reflexivity).
  rewrite Hretag, apply_eq, <- Hretag, retag_idem. f_equal.
  rewrite retag_materials, Hmats. apply marked_twice.
Qed.

End always_on_top.

(** ** Stacking the canvas above the camera video *)

Section compositor.

Import Compositor.

Lemma poll_app callback envs1 envs2 sp :
  poll callback (envs1 ++ envs2) sp = poll callback envs2 (poll callback envs1 sp).
Proof. unfold poll. apply foldl_app. Qed.

Lemma drift_app envs1 envs2 page :
  drift (envs1 ++ envs2) page = drift envs2 (drift envs1 page).
Proof. unfold drift. apply foldl_app. Qed.

Lemma poll_cons callback env envs st page :
  poll callback (env :: envs) (st, page) = poll callback envs (fire callback (st, env page)).
Proof. reflexivity. Qed.

Lemma fire_running callback st page :
  cleared st = false → fire callback (st, page) = callback st page.
Proof. unfold fire. cbn [fst snd]. intros ->. reflexivity. Qed.

Lemma fire_cleared callback st page :
  cleared st = true → fire callback (st, page) = (st, page).
Proof. unfold fire. cbn [fst snd]. intros ->. reflexivity. Qed.

(** Once the timer is cleared the callback runs no more. *)
Lemma cleared_stays callback envs : ∀ st page,
  cleared st = true → poll callback envs (st, page) = (st, drift envs page).
Proof.
  induction envs as [|env envs IH]; intros st page Hst; [reflexivity|].
  rewrite poll_cons, (fire_cleared _ _ _ Hst). exact (IH st (env page) Hst).
Qed.

Lemma ios_callback_page st page : (ios_callback st page).2 = ios_styled page.
Proof.
  unfold ios_callback, ios_styled.
  destruct (getMindarCameraVideo page); [|reflexivity].
  destruct (ios_canvas page); reflexivity.
Qed.

Lemma ios_callback_waits st page :
  ios_ready page = false →
  ios_callback st page
  = ({| tries := S (tries st); cleared := bool_decide (40 < S (tries st))%nat || cleared st |},
     page).
Proof.
  unfold ios_ready, ios_callback.
  destruct (getMindarCameraVideo page) as [cam|]; [|reflexivity].
  destruct (ios_canvas page) as [canvas|]; [|reflexivity].
  rewrite !bool_decide_eq_true_2 by eauto. discriminate.
Qed.

Lemma ios_callback_styles st page :
  ios_ready page = true →
  ios_callback st page = ({| tries := S (tries st); cleared := true |}, ios_styled page).
Proof.
  unfold ios_ready, ios_callback, ios_styled.
  destruct (getMindarCameraVideo page) as [cam|].
  - destruct (ios_canvas page) as [canvas|]; [reflexivity|].
    rewrite andb_comm. rewrite (bool_decide_eq_false_2 (is_Some None)); [discriminate|].
    intros [? ?]. discriminate.
  - rewrite (bool_decide_eq_false_2 (is_Some None)); [discriminate|].
    intros [? ?]. discriminate.
Qed.

(** However the page changes, the counter never passes 41, and the timer
    that is still running has fired every time. *)
Lemma ios_poll_counts envs : ∀ st page,
  cleared st = false → (tries st ≤ 40)%nat →
  let st' := (poll ios_callback envs (st, page)).1 in
  (tries st' ≤ 41)%nat
  ∧ (tries st' ≤ tries st + length envs)%nat
  ∧ (cleared st' = false → tries st' = tries st + length envs ∧ (tries st' ≤ 40)%nat).
Proof.
  induction envs as [|env envs IH]; intros st page Hst Htries; cbn zeta.
  - cbn. split; [lia|]. split; [lia|]. intros _. lia.
  - rewrite poll_cons, (fire_running _ _ _ Hst). cbn [length].
    destruct (ios_ready (env page)) eqn:Hready.
    + rewrite (ios_callback_styles st _ Hready).
      rewrite cleared_stays by reflexivity. cbn [fst tries cleared].
      split; [lia|]. split; [lia|]. discriminate.
    + rewrite (ios_callback_waits st _ Hready). rewrite Hst, orb_false_r.
      destruct (decide (40 < S (tries st))%nat) as [Hlast|Hmore].
      * rewrite (bool_decide_eq_true_2 _ Hlast).
        rewrite cleared_stays by reflexivity. cbn [fst tries cleared].
        split; [lia|]. split; [lia|]. discriminate.
      * rewrite (bool_decide_eq_false_2 _ Hmore).
        destruct (IH {| tries := S (tries st); cleared := false |} (env page))
          as (H1 & H2 & H3); [reflexivity|cbn; lia|].
        cbn zeta in *. cbn [tries] in *.
        split; [exact H1|]. split; [lia|]. intros Hc. destruct (H3 Hc). lia.
Qed.

(** While the camera video or the canvas is missing, the callback only
    counts. *)
Lemma ios_poll_waits envs : ∀ page,
  (∀ k, (k < length envs)%nat → (k < 41)%nat →
        ios_ready (drift (take (S k) envs) page) = false) →
  poll ios_callback envs (new_poll, page)
  = ({| tries := min 41 (length envs); cleared := bool_decide (41 ≤ length envs)%nat |},
     drift envs page).
Proof.
  induction envs as [|env envs IH] using rev_ind; intros page Hwait; [reflexivity|].
  rewrite poll_app, drift_app, length_app. cbn [length].
  rewrite IH.
  - change (drift [env] (drift envs page)) with (env (drift envs page)).
    rewrite poll_cons. cbn [poll foldl].
    destruct (decide (41 ≤ length envs)%nat) as [Hdone|Hmore].
    + rewrite (bool_decide_eq_true_2 _ Hdone), fire_cleared by reflexivity.
      rewrite (bool_decide_eq_true_2 (41 ≤ length envs + 1)%nat) by lia.
      f_equal. f_equal. lia.
    + rewrite (bool_decide_eq_false_2 _ Hmore), fire_running by reflexivity.
      rewrite ios_callback_waits.
      * cbn [tries cleared]. rewrite orb_false_r. f_equal. f_equal; [lia|].
        apply bool_decide_ext. lia.
      * specialize (Hwait (length envs)).
        rewrite length_app in Hwait. cbn [length] in Hwait.
        rewrite take_ge in Hwait by (rewrite length_app; cbn; lia).
        rewrite drift_app in Hwait. apply Hwait; lia.
  - intros k Hk Hk41. specialize (Hwait k).
    rewrite length_app in Hwait. cbn [length] in Hwait.
    rewrite take_app_le in Hwait by lia. apply Hwait; lia.
Qed.

(** X16: the interval of [iosForceCanvasAboveCamera] is bounded.  Whatever
    happens to the page between two firings, the callback runs at most 41
    times: its counter never passes 41, a timer that is still running has
    fired at every tick so far, and from the 41st tick on the timer is
    cleared. *)
Theorem X16_ios_poll_is_bounded (envs : list (Page → Page)) (page : Page) :
  let st := (poll ios_callback envs (new_poll, page)).1 in
  (tries st ≤ 41)%nat
  ∧ (tries st ≤ length envs)%nat
  ∧ (cleared st = false → tries st = length envs ∧ (length envs ≤ 40)%nat)
  ∧ ((41 ≤ length envs)%nat → cleared st = true).
Proof.
  destruct (ios_poll_counts envs new_poll page) as (H1 & H2 & H3);
    [reflexivity|cbn; lia|].
  cbn zeta in *. cbn [tries new_poll] in *.
  split; [exact H1|]. split; [lia|]. split.
  - intros Hc. destruct (H3 Hc). lia.
  - intros Hlen. destruct (cleared _) eqn:Hc; [reflexivity|].
    destruct (H3 eq_refl). lia.
Qed.

(** X17: the interval gives up.  When at each of the first 41 firings the
    camera video or the canvas is missing, no style is ever written: the
    page is what the environment alone has made of it, also when both
    elements appear afterwards, and the timer is cleared at the 41st
    firing. *)
Theorem X17_ios_poll_gives_up (envs : list (Page → Page)) (page : Page) :
  (∀ k, (k < length envs)%nat → (k < 41)%nat →
        ios_ready (drift (take (S k) envs) page) = false) →
  poll ios_callback envs (new_poll, page)
  = ({| tries := min 41 (length envs); cleared := bool_decide (41 ≤ length envs)%nat |},
     drift envs page).
Proof. apply ios_poll_waits. Qed.

Lemma X17_camera_comes_late :
  poll ios_callback (replicate 41 id ++ [add_camera]) (new_poll, starting_page)
  = ({| tries := 41; cleared := true |}, tracking_page).
Proof.
  rewrite (X17_ios_poll_gives_up (replicate 41 id ++ [add_camera]) starting_page);
    [reflexivity|].
  intros k _ Hk.
  do 41 (destruct k as [|k]; [reflexivity|]). lia.
Defined.

(** The style of an element after a run of assignments. *)
Lemma set_styles_style kvs : ∀ (e : Element) (k : string),
  style (set_styles kvs e) !! k = assigned k kvs (style e !! k).
Proof.
  induction kvs as [|kv kvs IH]; intros e k; [reflexivity|].
  cbn [set_styles foldl assigned]. fold (set_styles kvs (set_style kv e)).
  rewrite IH. f_equal. cbn [set_style style].
  destruct (String.eqb_spec kv.1 k) as [->|Hne].
  - apply lookup_insert_eq.
  - apply lookup_insert_ne. exact Hne.
Qed.

Lemma set_styles_attrs kvs : ∀ e : Element, attrs (set_styles kvs e) = attrs e.
Proof.
  induction kvs as [|kv kvs IH]; intros e; [reflexivity|].
  cbn [set_styles foldl]. fold (set_styles kvs (set_style kv e)). rewrite IH.
  reflexivity.
Qed.

Lemma set_styles_attrs_opt kvs (o : option Element) :
  attrs <$> (set_styles kvs <$> o) = attrs <$> o.
Proof.
  destruct o as [e|]; [|reflexivity].
  change (Some (attrs (set_styles kvs e)) = Some (attrs e)).
  rewrite set_styles_attrs. reflexivity.
Qed.

(** A property that is not assigned keeps its value. *)
Lemma assigned_other k kvs : ∀ old, k ∉ kvs.*1 → assigned k kvs old = old.
Proof.
  induction kvs as [|kv kvs IH]; intros old Hk; [reflexivity|].
  cbn [assigned]. rewrite fmap_cons, not_elem_of_cons in Hk. destruct Hk as (Hne & Hk).
  rewrite (IH _ Hk). destruct (String.eqb_spec kv.1 k); [congruence|reflexivity].
Qed.

(** A property that is assigned forgets its old value. *)
Lemma assigned_known k kvs : ∀ old old',
  k ∈ kvs.*1 → assigned k kvs old = assigned k kvs old'.
Proof.
  induction kvs as [|kv kvs IH]; intros old old' Hk; [inversion Hk|].
  cbn [assigned]. rewrite fmap_cons in Hk.
  destruct (decide (k ∈ kvs.*1)) as [Hin|Hout].
  - apply IH, Hin.
  - apply elem_of_cons in Hk as [->|Hk]; [|contradiction].
    rewrite String.eqb_refl. reflexivity.
Qed.

(** The camera video is the first video of the document with a stream;
    a video asset, which has none, is never taken for it. *)
Lemma camera_is_streaming page cam :
  getMindarCameraVideo page = Some cam →
  ∃ e, elements page !! cam = Some e ∧ is_video e = true ∧ srcObject e = true
       ∧ ∀ j e', (j < cam)%nat → elements page !! j = Some e' →
                 is_video e' && srcObject e' = false.
Proof.
  unfold getMindarCameraVideo, querySelector. intros H.
  destruct (list_find _ _) as [[j e]|] eqn:Hfind; [|discriminate].
  apply (inj Some) in H. cbn in H. subst j.
  apply list_find_Some in Hfind as (He & Hsel & Hfirst).
  exists e. unfold is_camera in Hsel. apply andb_true_iff in Hsel as (Hv & Hs).
  split; [exact He|]. split; [exact Hv|]. split; [exact Hs|].
  intros j e' Hj He'. specialize (Hfirst j e' He' Hj). unfold is_camera in Hfirst.
  destruct (is_video e' && srcObject e'); [contradiction Hfirst; reflexivity|reflexivity].
Qed.

Lemma ios_styled_elements page cam canvas :
  getMindarCameraVideo page = Some cam → ios_canvas page = Some canvas →
  elements (ios_styled page)
  = alter (set_styles canvas_styles) canvas
      (alter (set_styles camera_styles) cam (elements page)).
Proof. intros Hcam Hcanvas. unfold ios_styled. rewrite Hcam, Hcanvas. reflexivity. Qed.

(** X18: the interval writes the styles once.  When the camera video and
    the canvas are both there for the first time at one of the first 41
    firings, that firing styles the two elements and clears the timer; the
    later firings do nothing, so that the page is afterwards what the
    environment makes of the styled page.  The camera video is the first
    video of the document that carries a stream, so a video asset is never
    styled in its place.  In the styled page the canvas is fixed at z-index
    2 and the camera video, fixed and covering, at z-index 0; no other
    element is changed, no element is added or removed, and a style
    property the callback does not assign keeps its value. *)
Theorem X18_ios_poll_styles_once
    (pre : list (Page → Page)) (env : Page → Page) (post : list (Page → Page))
    (page : Page) (cam canvas : nat) :
  (length pre < 41)%nat →
  (∀ k, (k < length pre)%nat → ios_ready (drift (take (S k) pre) page) = false) →
  getMindarCameraVideo (env (drift pre page)) = Some cam →
  ios_canvas (env (drift pre page)) = Some canvas →
  let seen := env (drift pre page) in
  poll ios_callback (pre ++ env :: post) (new_poll, page)
  = ({| tries := S (length pre); cleared := true |}, drift post (ios_styled seen))
  ∧ (∃ e : Element,
       elements seen !! cam = Some e ∧ is_video e = true ∧ srcObject e = true
       ∧ ∀ (j : nat) (e' : Element),
           (j < cam)%nat → elements seen !! j = Some e' →
           is_video e' && srcObject e' = false)
  ∧ attrs <$> elements (ios_styled seen) = attrs <$> elements seen
  ∧ (∀ e' : Element,
       elements (ios_styled seen) !! canvas = Some e' →
       style e' !! "zIndex" = Some "2" ∧ style e' !! "position" = Some "fixed"
       ∧ style e' !! "inset" = Some "0")
  ∧ (∀ e' : Element,
       cam ≠ canvas → elements (ios_styled seen) !! cam = Some e' →
       style e' !! "zIndex" = Some "0" ∧ style e' !! "position" = Some "fixed"
       ∧ style e' !! "objectFit" = Some "cover")
  ∧ (∀ j : nat,
       j ≠ cam → j ≠ canvas → elements (ios_styled seen) !! j = elements seen !! j)
  ∧ (∀ (j : nat) (e e' : Element) (k : string),
       elements seen !! j = Some e → elements (ios_styled seen) !! j = Some e' →
       k ∉ camera_styles.*1 → style e' !! k = style e !! k).
Proof.
  intros Hlen Hwait Hcam Hcanvas seen.
  assert (Hready : ios_ready seen = true).
  { unfold ios_ready. subst seen. rewrite Hcam, Hcanvas.
    rewrite !bool_decide_eq_true_2 by eauto. reflexivity. }
  pose proof (ios_styled_elements seen cam canvas Hcam Hcanvas) as Hels.
  split.
  { rewrite poll_app, ios_poll_waits by (intros k Hk _; apply Hwait, Hk).
    rewrite Nat.min_r by lia.
    rewrite (bool_decide_eq_false_2 (41 ≤ length pre)%nat) by lia.
    rewrite poll_cons, fire_running by reflexivity.
    fold seen. rewrite (ios_callback_styles _ seen Hready).
    apply cleared_stays. reflexivity. }
  split; [exact (camera_is_streaming seen cam Hcam)|].
  split.
  { rewrite Hels. apply list_eq. intros j. rewrite !list_lookup_fmap.
    destruct (decide (j = canvas)) as [->|Hj1].
    - rewrite list_lookup_alter_eq.
      destruct (decide (canvas = cam)) as [->|Hj2].
      + rewrite list_lookup_alter_eq, !set_styles_attrs_opt. reflexivity.
      + rewrite list_lookup_alter_ne by congruence.
        apply set_styles_attrs_opt.
    - rewrite list_lookup_alter_ne by congruence.
      destruct (decide (j = cam)) as [->|Hj2].
      + rewrite list_lookup_alter_eq. apply set_styles_attrs_opt.
      + rewrite list_lookup_alter_ne by congruence. reflexivity. }
  split.
  { intros e' He'. rewrite Hels, list_lookup_alter_eq in He'.
    destruct (alter _ cam _ !! canvas) as [e|]; [|discriminate].
    apply (inj Some) in He' as <-. rewrite !set_styles_style. repeat split. }
  split.
  { intros e' Hne He'. rewrite Hels in He'.
    rewrite list_lookup_alter_ne, list_lookup_alter_eq in He' by congruence.
    destruct (elements seen !! cam) as [e|]; [|discriminate].
    apply (inj Some) in He' as <-. rewrite !set_styles_style. repeat split. }
  split.
  { intros j Hj1 Hj2. rewrite Hels, !list_lookup_alter_ne by congruence. reflexivity. }
  intros j e e' k He He' Hk. rewrite Hels in He'.
  assert (Hk' : k ∉ canvas_styles.*1).
  { intros Hin. apply Hk. apply list_elem_of_In in Hin. apply list_elem_of_In.
    cbn in Hin |- *. tauto. }
  destruct (decide (j = canvas)) as [->|Hj1].
  - rewrite list_lookup_alter_eq in He'.
    destruct (decide (canvas = cam)) as [->|Hj2].
    + rewrite list_lookup_alter_eq, He in He'. apply (inj Some) in He' as <-.
      rewrite !set_styles_style, !assigned_other by assumption. reflexivity.
    + rewrite list_lookup_alter_ne, He in He' by congruence.
      apply (inj Some) in He' as <-.
      rewrite set_styles_style, assigned_other by assumption. reflexivity.
  - rewrite list_lookup_alter_ne in He' by congruence.
    destruct (decide (j = cam)) as [->|Hj2].
    + rewrite list_lookup_alter_eq, He in He'. apply (inj Some) in He' as <-.
      rewrite set_styles_style, assigned_other by assumption. reflexivity.
    + rewrite list_lookup_alter_ne in He' by congruence. congruence.
Qed.

Lemma X18_camera_comes_in_time :
  poll ios_callback ([id; id] ++ add_camera :: [id]) (new_poll, starting_page)
  = ({| tries := 3; cleared := true |}, drift [id] (ios_styled tracking_page)).
Proof.
  refine (proj1 (X18_ios_poll_styles_once [id; id] add_camera [id] starting_page 3 2
                   _ _ eq_refl eq_refl)).
  - cbn. lia.
  - intros k Hk. do 2 (destruct k as [|k]; [reflexivity|]). cbn in Hk. lia.
Defined.

(** *** A second pass *)

Lemma Element_eq (e e' : Element) : attrs e = attrs e' → style e = style e' → e = e'.
Proof. destruct e, e'. unfold attrs. cbn. intros [= -> -> ->] ->. reflexivity. Qed.

(** Of two runs of assignments to the same properties the later one
    counts. *)
Lemma set_styles_override kvs1 kvs2 (e : Element) :
  kvs1.*1 = kvs2.*1 → set_styles kvs2 (set_styles kvs1 e) = set_styles kvs2 e.
Proof.
  intros Hkeys. apply Element_eq; [rewrite !set_styles_attrs; reflexivity|].
  apply map_eq. intros k. rewrite !set_styles_style.
  destruct (decide (k ∈ kvs2.*1)) as [Hin|Hout].
  - apply assigned_known, Hin.
  - f_equal. apply assigned_other. rewrite Hkeys. exact Hout.
Qed.

Lemma set_styles_app kvs1 kvs2 (e : Element) :
  set_styles (kvs1 ++ kvs2) e = set_styles kvs2 (set_styles kvs1 e).
Proof. unfold set_styles. apply foldl_app. Qed.

Lemma assign_styles_attrs el kvs page :
  attrs <$> elements (assign_styles el kvs page) = attrs <$> elements page.
Proof.
  apply list_eq. intros j. cbn [assign_styles elements]. rewrite !list_lookup_fmap.
  destruct (decide (j = el)) as [->|Hne].
  - rewrite list_lookup_alter_eq. apply set_styles_attrs_opt.
  - rewrite list_lookup_alter_ne by congruence. reflexivity.
Qed.

Lemma ios_styled_attrs page :
  attrs <$> elements (ios_styled page) = attrs <$> elements page
  ∧ scene (ios_styled page) = scene page
  ∧ renderer (ios_styled page) = renderer page.
Proof.
  unfold ios_styled.
  destruct (getMindarCameraVideo page) as [cam|]; [|auto].
  destruct (ios_canvas page) as [canvas|]; [|auto].
  rewrite !assign_styles_attrs. auto.
Qed.

(** A selector sees the attributes of an element, not its style. *)
Lemma querySelector_attrs sel (sel' : Tag * bool * bool → bool) page page' :
  (∀ e, sel e = sel' (attrs e)) →
  attrs <$> elements page' = attrs <$> elements page →
  querySelector sel page' = querySelector sel page.
Proof.
  intros Hsel Hattrs.
  assert (Hfind : ∀ els : list Element,
            fst <$> list_find (λ e, sel e = true) els
            = fst <$> list_find (λ a, sel' a = true) (attrs <$> els)).
  { induction els as [|e els IH]; [reflexivity|].
    rewrite fmap_cons. cbn [list_find]. rewrite <- Hsel.
    destruct (decide (sel e = true)); [reflexivity|].
    destruct (list_find _ els) as [[j1 e1]|],
             (list_find _ (attrs <$> els)) as [[j2 e2]|];
      cbn in IH |- *; congruence. }
  unfold querySelector. rewrite !Hfind, Hattrs. reflexivity.
Qed.

Lemma ios_styled_finds page :
  getMindarCameraVideo (ios_styled page) = getMindarCameraVideo page
  ∧ ios_canvas (ios_styled page) = ios_canvas page.
Proof.
  destruct (ios_styled_attrs page) as (Hattrs & Hscene & Hrenderer).
  unfold getMindarCameraVideo, ios_canvas, renderer_domElement.
  rewrite Hscene, Hrenderer.
  rewrite (querySelector_attrs is_camera
             (λ a, match a.1.1 with VideoTag => true | _ => false end && a.2)
             (ios_styled page) page) by auto.
  rewrite (querySelector_attrs is_canvas_a_canvas
             (λ a, match a.1.1 with CanvasTag => true | _ => false end && a.1.2)
             (ios_styled page) page) by auto.
  auto.
Qed.

Lemma Page_eq (page page' : Page) :
  elements page = elements page' → scene page = scene page' →
  renderer page = renderer page' → page = page'.
Proof. destruct page, page'. cbn. intros -> -> ->. reflexivity. Qed.

(** X19: a second pass finds nothing to do.  The script starts
    [iosForceCanvasAboveCamera] twice for each start and each found target,
    the second time a moment later; on a page the first pass has styled the
    second one finds the same two elements and writes the values they
    already have, so the page stays as it is. *)
Theorem X19_ios_second_pass (page : Page) :
  getMindarCameraVideo (ios_styled page) = getMindarCameraVideo page
  ∧ ios_canvas (ios_styled page) = ios_canvas page
  ∧ ios_styled (ios_styled page) = ios_styled page
  ∧ ∀ st : Poll, (ios_callback st (ios_styled page)).2 = ios_styled page.
Proof.
  destruct (ios_styled_finds page) as (Hcam & Hcanvas).
  split; [exact Hcam|]. split; [exact Hcanvas|].
  assert (Hidem : ios_styled (ios_styled page) = ios_styled page).
  { unfold ios_styled at 1. rewrite Hcam, Hcanvas. unfold ios_styled.
    destruct (getMindarCameraVideo page) as [cam|]; [|reflexivity].
    destruct (ios_canvas page) as [canvas|]; [|reflexivity].
    apply Page_eq; [|reflexivity..].
    cbn [assign_styles elements]. apply list_eq. intros j.
    destruct (decide (j = canvas)) as [->|Hj1].
    - destruct (decide (canvas = cam)) as [->|Hj2].
      + rewrite !list_lookup_alter_eq.
        destruct (elements page !! cam) as [e|]; [|reflexivity].
        cbn [fmap option_fmap option_map]. f_equal.
        rewrite <- !set_styles_app.
        rewrite (app_assoc camera_styles canvas_styles), set_styles_app.
        apply set_styles_override. reflexivity.
      + rewrite list_lookup_alter_eq, (list_lookup_alter_ne _ _ cam canvas) by congruence.
        rewrite !list_lookup_alter_eq, !(list_lookup_alter_ne _ _ cam canvas) by congruence.
        destruct (elements page !! canvas) as [e|]; [|reflexivity].
        cbn [fmap option_fmap option_map]. f_equal.
        apply set_styles_override. reflexivity.
    - rewrite !(list_lookup_alter_ne _ _ canvas j) by congruence.
      destruct (decide (j = cam)) as [->|Hj2].
      + rewrite !list_lookup_alter_eq.
        rewrite !(list_lookup_alter_ne _ _ canvas cam) by congruence.
        rewrite !list_lookup_alter_eq.
        destruct (elements page !! cam) as [e|]; [|reflexivity].
        cbn [fmap option_fmap option_map]. f_equal.
        apply set_styles_override. reflexivity.
      + rewrite !(list_lookup_alter_ne _ _ cam j) by congruence.
        rewrite !(list_lookup_alter_ne _ _ canvas j) by congruence.
        rewrite !(list_lookup_alter_ne _ _ cam j) by congruence.
        reflexivity. }
  split; [exact Hidem|].
  intros st. rewrite ios_callback_page. exact Hidem.
Qed.

(** ** The canvases of the scene, shown and hidden *)





Lemma querySelector_Some sel page i :
  querySelector sel page = Some i →
  ∃ e, elements page !! i = Some e ∧ sel e = true.
Proof.
  unfold querySelector. intros H.
  destruct (list_find _ _) as [[j e]|] eqn:Hfind; [|discriminate].
  injection H as ->. apply list_find_Some in Hfind as (He & Hsel & _). eauto.
Qed.

Lemma querySelectorAll_attrs sel (sel' : Tag * bool * bool → bool) page page' :
  (∀ e, sel e = sel' (attrs e)) →
  attrs <$> elements page' = attrs <$> elements page →
  querySelectorAll sel page' = querySelectorAll sel page.
Proof.
  intros Hsel Hattrs. unfold querySelectorAll.
  assert (Hlen : length (elements page') = length (elements page)).
  { rewrite <- (length_fmap attrs), Hattrs. apply length_fmap. }
  rewrite Hlen. apply filter_ext. intros i.
  assert (Hi : attrs <$> elements page' !! i = attrs <$> elements page !! i)
    by (rewrite <- !list_lookup_fmap, Hattrs; reflexivity).
  destruct (elements page' !! i) as [e'|], (elements page !! i) as [e|];
    try discriminate; [|reflexivity].
  cbn [fmap option_fmap option_map] in Hi. apply (inj Some) in Hi.
  rewrite !Hsel, Hi. reflexivity.
Qed.

Lemma canvas_list_attrs page page' :
  attrs <$> elements page' = attrs <$> elements page →
  scene page' = scene page → renderer page' = renderer page →
  scene_targets page' = scene_targets page.
Proof.
  intros Hattrs Hscene Hrenderer.
  unfold scene_targets, getAllAFrameCanvasEls, renderer_domElement.
  rewrite Hscene, Hrenderer.
  rewrite (querySelector_attrs is_a_canvas (λ a, a.1.2) page' page) by auto.
  rewrite (querySelectorAll_attrs is_canvas
             (λ a, match a.1.1 with CanvasTag => true | _ => false end) page' page)
    by auto.
  reflexivity.
Qed.


Lemma scene_styles_keys show : (scene_styles show).*1 = hidden_styles.*1.
Proof. destruct show; reflexivity. Qed.

Lemma hide_each_elements show (rs : list nat) : ∀ page,
  let page1 := foldl (λ page el, forceHideElement (Some el) (negb show) page) page rs in
  elements page1
  = foldl (λ els r, alter (set_styles (scene_styles show)) r els) (elements page) rs
  ∧ scene page1 = scene page ∧ renderer page1 = renderer page.
Proof.
  induction rs as [|r rs IH]; intros page; cbn [foldl]; [auto|].
  destruct (IH (forceHideElement (Some r) (negb show) page)) as (-> & -> & ->).
  auto.
Qed.

(** [showScene], element by element. *)
Lemma showScene_lookup show page i :
  elements (showScene show page) !! i
  = if bool_decide (i ∈ scene_targets page)
    then set_styles (scene_styles show) <$> elements page !! i
    else elements page !! i.
Proof.
  unfold showScene, scene_targets.
  destruct (hide_each_elements show (getAllAFrameCanvasEls page) page) as (Hels & Hscene & _).
  cbn zeta in *. set (page1 := foldl _ page _) in *.
  assert (Hidem : ∀ e, set_styles (scene_styles show) (set_styles (scene_styles show) e)
                       = set_styles (scene_styles show) e)
    by (intros e; apply set_styles_override; reflexivity).
  assert (H1 : elements page1 !! i
               = if bool_decide (i ∈ getAllAFrameCanvasEls page)
                 then set_styles (scene_styles show) <$> elements page !! i
                 else elements page !! i)
    by (rewrite Hels; apply foldl_alter_lookup, Hidem).
  rewrite Hscene. destruct (scene page) as [s|]; cbn [forceHideElement option_list].
  - change (elements
              (assign_styles s (if negb show then hidden_styles else shown_styles) page1))
      with (alter (set_styles (scene_styles show)) s (elements page1)).
    destruct (decide (i = s)) as [->|Hne].
    + rewrite list_lookup_alter_eq, H1.
      rewrite (bool_decide_eq_true_2 (s ∈ _ ++ [s]))
        by (apply elem_of_app; right; apply list_elem_of_here).
      destruct (bool_decide _); [|reflexivity].
      destruct (elements page !! s) as [e|]; [|reflexivity].
      cbn [fmap option_fmap option_map]. rewrite Hidem. reflexivity.
    + rewrite list_lookup_alter_ne, H1 by congruence.
      rewrite (bool_decide_ext (i ∈ getAllAFrameCanvasEls page ++ [s])
                 (i ∈ getAllAFrameCanvasEls page)); [reflexivity|].
      rewrite elem_of_app, list_elem_of_singleton. tauto.
  - rewrite app_nil_r. exact H1.
Qed.

Lemma showScene_attrs show page :
  attrs <$> elements (showScene show page) = attrs <$> elements page.
Proof.
  apply list_eq. intros i. rewrite !list_lookup_fmap, showScene_lookup.
  destruct (bool_decide _); [apply set_styles_attrs_opt|reflexivity].
Qed.

Lemma showScene_names show page :
  scene (showScene show page) = scene page
  ∧ renderer (showScene show page) = renderer page.
Proof.
  unfold showScene.
  destruct (hide_each_elements show (getAllAFrameCanvasEls page) page) as (_ & Hscene & Hr).
  cbn zeta in *. set (page1 := foldl _ page _) in *.
  rewrite <- Hscene, <- Hr.
  destruct (scene page1) as [s|] eqn:Hs;
    cbn [forceHideElement assign_styles scene renderer]; rewrite ?Hs;
    split; reflexivity.
Qed.

(** X21: showing and hiding the scene output.  After [showScene], every
    element of the canvas list and the scene root has the three styles of
    [forceHideElement]: visible, opaque and clickable when shown; hidden,
    transparent and inert when hidden.  No other element is written to;
    every other style property of every element keeps its value, so the
    stacking of canvas and camera video survives hiding; no element is added
    or removed.  And the last call counts: hiding and then showing gives the
    page that showing alone gives, and the other way round. *)
Theorem X21_show_scene (show : bool) (page : Page) :
  let page' := showScene show page in
  (∀ (i : nat) (e' : Element),
     i ∈ scene_targets page → elements page' !! i = Some e' →
     style e' !! "visibility" = Some (if show then "visible" else "hidden")
     ∧ style e' !! "opacity" = Some (if show then "1" else "0")
     ∧ style e' !! "pointerEvents" = Some (if show then "auto" else "none"))
  ∧ (∀ i : nat, i ∉ scene_targets page → elements page' !! i = elements page !! i)
  ∧ (∀ (i : nat) (e e' : Element) (k : string),
       elements page !! i = Some e → elements page' !! i = Some e' →
       k ∉ hidden_styles.*1 → style e' !! k = style e !! k)
  ∧ attrs <$> elements page' = attrs <$> elements page
  ∧ (∀ show2 : bool, showScene show2 page' = showScene show2 page).
Proof.
  cbn zeta. split.
  { intros i e' Hi He'. rewrite showScene_lookup, (bool_decide_eq_true_2 _ Hi) in He'.
    destruct (elements page !! i) as [e|]; [|discriminate].
    apply (inj Some) in He' as <-. rewrite !set_styles_style.
    destruct show; repeat split. }
  split.
  { intros i Hi. rewrite showScene_lookup, (bool_decide_eq_false_2 _ Hi). reflexivity. }
  split.
  { intros i e e' k He He' Hk. rewrite showScene_lookup, He in He'.
    destruct (bool_decide _); apply (inj Some) in He' as <-; [|reflexivity].
    rewrite set_styles_style. f_equal. apply assigned_other.
    rewrite scene_styles_keys. exact Hk. }
  split; [apply showScene_attrs|].
  intros show2.
  destruct (showScene_names show page) as (Hscene & Hrenderer).
  pose proof (canvas_list_attrs page (showScene show page)
                (showScene_attrs show page) Hscene Hrenderer) as Htargets.
  apply Page_eq.
  - apply list_eq. intros i. rewrite !showScene_lookup, Htargets.
    destruct (bool_decide _); [|reflexivity].
    destruct (elements page !! i) as [e|]; [|reflexivity].
    cbn [fmap option_fmap option_map]. f_equal.
    apply set_styles_override. rewrite !scene_styles_keys. reflexivity.
  - rewrite !(proj1 (showScene_names _ _)). reflexivity.
  - rewrite !(proj2 (showScene_names _ _)). reflexivity.
Qed.

(** The page of a running session, hidden: the canvas of the renderer,
    which is also the element of class [a-canvas] and the only canvas, is
    listed once, before the scene root; the two videos are left alone. *)
Example hide_tracking_page :
  scene_targets tracking_page = [2; 0]
  ∧ (λ e, style e !! "visibility") <$> elements (showScene false tracking_page)
    = [Some "hidden"; None; Some "hidden"; None].
Proof. split; vm_compute; reflexivity. Qed.

End compositor.

(** ** Further sample inputs *)

(** A [null] entry behind a video layer does no harm: the video test has
    stopped before it, and the loop skips it. *)
Example null_behind_video :
  let w := exec page_load (blank_page None (Some null_later_config)) in
  statusLog w = [StReady; StLoading "card_001"]
  ∧ spawnedEntities w = [0]
  ∧ videoBtnDisplay w = Some InlineBlock.
Proof. cbn zeta. repeat split; vm_compute; reflexivity. Qed.

(** Two meshes that share the material at address 0: [apply] marks it, and
    the material at 2; the material at 1, which only a group refers to, and
    the material at 3, which is not of this model, stay as they are. *)
Example shared_material_marked :
  let h' := (AlwaysOnTop.apply AlwaysOnTop.shared_model AlwaysOnTop.shared_heap).2 in
  AlwaysOnTop.depthTest <$> h' !! 0 = Some false
  ∧ AlwaysOnTop.depthTest <$> h' !! 1 = Some true
  ∧ AlwaysOnTop.depthTest <$> h' !! 2 = Some false
  ∧ AlwaysOnTop.depthTest <$> h' !! 3 = Some true
  ∧ AlwaysOnTop.renderOrder_of
      <$> AlwaysOnTop.nodes
            (AlwaysOnTop.apply AlwaysOnTop.shared_model AlwaysOnTop.shared_heap).1
    = [999; 999; 3; 999]%Z.
Proof. cbn zeta. repeat split; vm_compute; reflexivity. Qed.
